(** * generateDotnetApi.js: type translation, name synthesis, method rendering

    A shallow embedding of [utils/doclint/generateDotnetApi.js], the script
    that turns the documentation tree of the API into C# declarations.

    - JavaScript strings are [string]s; case conversion and the regular
      expressions of the script are modelled on ASCII.
    - The three module-level [Map]s ([modelTypes], [documentedResults],
      [enumTypes]) are insertion-ordered association lists inside [State].
    - A function that reads or writes them, or that can [throw], lives in the
      monad [M]: state passing with exceptions.  A JavaScript TypeError
      (a property read on [undefined]) is the exception [TypeError].
    - [translateType] returns a string or [null]: an [option string].
    - What the script requires from other modules is the record [Externals].
    - Writing files, running the formatter and console output are left out:
      the embedding stops at the lines handed to [writeFile]. *)

From Stdlib Require Import String Ascii List Bool Arith ZArith Lia.
Import ListNotations.
Open Scope list_scope.
Open Scope string_scope.

(** ** JavaScript string primitives *)

Module Js.

(** The double-quote character, code 34. *)
Definition dq : string := String (ascii_of_nat 34) EmptyString.

Definition quoted (s : string) : string := dq ++ s ++ dq.

Definition startsWith (s p : string) : bool := String.prefix p s.

Definition endsWith (s suf : string) : bool :=
  let n := String.length s in
  let m := String.length suf in
  Nat.leb m n && String.eqb (String.substring (n - m) m s) suf.

(** [s.includes(sub)] *)
Fixpoint includes (s sub : string) : bool :=
  String.prefix sub s ||
  match s with
  | EmptyString => false
  | String _ r => includes r sub
  end.

(** [s.substring(n)] *)
Fixpoint substringFrom (n : nat) (s : string) : string :=
  match n, s with
  | 0, _ => s
  | S n', String _ r => substringFrom n' r
  | S _, EmptyString => EmptyString
  end.

(** [s.substring(0, s.length - 1)] *)
Definition dropLast (s : string) : string :=
  String.substring 0 (String.length s - 1) s.

Definition upperChar (c : ascii) : ascii :=
  let n := nat_of_ascii c in
  if Nat.leb 97 n && Nat.leb n 122 then ascii_of_nat (n - 32) else c.

Definition lowerChar (c : ascii) : ascii :=
  let n := nat_of_ascii c in
  if Nat.leb 65 n && Nat.leb n 90 then ascii_of_nat (n + 32) else c.

Fixpoint toLowerCase (s : string) : string :=
  match s with
  | EmptyString => EmptyString
  | String c r => String (lowerChar c) (toLowerCase r)
  end.

(** [s.charAt(0).toUpperCase() + s.substring(1)]; total, [charAt] of the
    empty string is the empty string. *)
Definition capitalize (s : string) : string :=
  match s with
  | EmptyString => EmptyString
  | String c r => String (upperChar c) r
  end.

(** [s[0].toUpperCase() + s.substring(1)]; [s[0]] is [undefined] on the
    empty string and the method call on it raises a TypeError ([None]). *)
Definition capitalizeIdx (s : string) : option string :=
  match s with
  | EmptyString => None
  | String c r => Some (String (upperChar c) r)
  end.

(** [l.join(sep)] *)
Fixpoint join (sep : string) (l : list string) : string :=
  match l with
  | [] => EmptyString
  | [x] => x
  | x :: r => x ++ sep ++ join sep r
  end.

(** [l.includes(x)] on arrays of strings. *)
Definition includesStr (l : list string) (x : string) : bool :=
  existsb (String.eqb x) l.

(** Truthiness of a string value: the empty string is falsy. *)
Definition truthy (s : string) : bool :=
  match s with EmptyString => false | _ => true end.

(** Truthiness of a possibly [undefined] string. *)
Definition truthyOpt (o : option string) : bool :=
  match o with Some s => truthy s | None => false end.

(** [a || b] on a possibly undefined string [a] and a string [b]. *)
Definition orElse (a : option string) (b : string) : string :=
  match a with
  | Some s => if truthy s then s else b
  | None => b
  end.

(** [o === lit] for a possibly undefined string. *)
Definition isStr (o : option string) (lit : string) : bool :=
  match o with Some s => String.eqb s lit | None => false end.

(** Template-literal interpolation of a value that may be [null]. *)
Definition show (o : option string) : string :=
  match o with Some s => s | None => "null" end.

(** [literal.replace] of every double quote by nothing, as in [renderEnum]. *)
Fixpoint removeQuotes (s : string) : string :=
  match s with
  | EmptyString => EmptyString
  | String c r =>
      if Ascii.eqb c (ascii_of_nat 34) then removeQuotes r
      else String c (removeQuotes r)
  end.

(** [s.replace(/[-]/g, ' ')] *)
Fixpoint dashesToSpaces (s : string) : string :=
  match s with
  | EmptyString => EmptyString
  | String c r =>
      String (if Ascii.eqb c "-"%char then " "%char else c) (dashesToSpaces r)
  end.

(** [s.split(' ')]: always at least one (possibly empty) word. *)
Fixpoint splitSpaces (s : string) : list string :=
  match s with
  | EmptyString => [EmptyString]
  | String c r =>
      if Ascii.eqb c " "%char then EmptyString :: splitSpaces r
      else match splitSpaces r with
           | w :: ws => String c w :: ws
           | [] => [String c EmptyString]
           end
  end.

End Js.

(** ** JavaScript [Map] with string keys

    Iteration order is insertion order and [set] on a present key replaces the
    value in place, so a map is an association list without repeated keys. *)

Module JsMap.

Definition t (V : Type) : Type := list (string * V).

Definition empty {V} : t V := [].

Fixpoint get {V} (k : string) (m : t V) : option V :=
  match m with
  | [] => None
  | (k', v) :: r => if String.eqb k k' then Some v else get k r
  end.

Fixpoint set {V} (k : string) (v : V) (m : t V) : t V :=
  match m with
  | [] => [(k, v)]
  | (k', v') :: r =>
      if String.eqb k k' then (k', v) :: r else (k', v') :: set k v r
  end.

Definition keys {V} (m : t V) : list string := map fst m.

Definition fromList {V} (l : list (string * V)) : t V :=
  fold_left (fun m kv => set (fst kv) (snd kv) m) l empty.

End JsMap.

(** ** The documentation tree consumed by the generator

    [Documentation.Type] and [Documentation.Member] as the generator reads
    them.  A field that may be [undefined] is an [option]; arrays are lists.
    The documentation payload [spec] is opaque to the generator: it is only
    handed to the XML documentation renderer.  Of the map [args] of a member
    only the size is read, which is the length of [argsArray]; [type] is
    always present (the generator dereferences it before any test). *)

Definition MarkdownNodes : Type := list string.

Inductive Kind : Type := KMethod | KProperty | KEvent | KInterface.

Scheme All for list.
Scheme All for option.

Inductive Type_ : Type := mkType {
  name : string;
  expression : option string;
  union : option (list Type_);
  templates : option (list Type_);
  args : option (list Type_);
  returnType : option Type_;
  properties : option (list Member) }
with Member : Type := mkMember {
  kind : Kind;
  mname : string;
  alias : option string;
  type : Type_;
  required : bool;
  async : bool;
  argsArray : list Member;
  spec : option MarkdownNodes;
  clazz : option string }.

Scheme Type_mut := Induction for Type_ Sort Prop
  with Member_mut := Induction for Member Sort Prop.
Combined Scheme Type_Member_ind from Type_mut, Member_mut.

(** The [parent] argument: a [Documentation.Class] or a [Documentation.Type],
    of which only [name] and [alias] are read. *)
Record Parent : Type := mkParent {
  parentName : string;
  parentAlias : option string }.

Definition Kind_eqb (a b : Kind) : bool :=
  match a, b with
  | KMethod, KMethod | KProperty, KProperty
  | KEvent, KEvent | KInterface, KInterface => true
  | _, _ => false
  end.

Definition option_eqb {A} (f : A -> A -> bool) (a b : option A) : bool :=
  match a, b with
  | Some x, Some y => f x y
  | None, None => true
  | _, _ => false
  end.

Definition list_eqb {A} (f : A -> A -> bool) : list A -> list A -> bool :=
  fix go (l1 l2 : list A) {struct l1} : bool :=
    match l1, l2 with
    | [], [] => true
    | x :: r1, y :: r2 => f x y && go r1 r2
    | _, _ => false
    end.

(** Structural equality of documentation trees. *)
Fixpoint Type_eqb (a b : Type_) {struct a} : bool :=
  String.eqb (name a) (name b)
  && option_eqb String.eqb (expression a) (expression b)
  && option_eqb (list_eqb Type_eqb) (union a) (union b)
  && option_eqb (list_eqb Type_eqb) (templates a) (templates b)
  && option_eqb (list_eqb Type_eqb) (args a) (args b)
  && option_eqb Type_eqb (returnType a) (returnType b)
  && option_eqb (list_eqb Member_eqb) (properties a) (properties b)
with Member_eqb (a b : Member) {struct a} : bool :=
  Kind_eqb (kind a) (kind b)
  && String.eqb (mname a) (mname b)
  && option_eqb String.eqb (alias a) (alias b)
  && Type_eqb (type a) (type b)
  && Bool.eqb (required a) (required b)
  && Bool.eqb (async a) (async b)
  && list_eqb Member_eqb (argsArray a) (argsArray b)
  && option_eqb (list_eqb String.eqb) (spec a) (spec b)
  && option_eqb String.eqb (clazz a) (clazz b).

(** [JSON.stringify(p) !== JSON.stringify(q)] on two [properties] values.
    The serialisation of these plain data trees determines them, so comparing
    the two serialisations is comparing the trees. *)
Definition JSON_stringify_differ (p q : option (list Member)) : bool :=
  negb (option_eqb (list_eqb Member_eqb) p q).

(** ** Exceptions, registries and the generator monad *)

(** One constructor per [throw] of the generator, and [TypeError] for the
    runtime error JavaScript raises on a property access or a method call on
    [undefined] or [null]. *)
Inductive Error : Type :=
| TypeError
| ArrayDimensionError (typeName parentName : string)
    (* Array (.. from ..) has more than 1 dimension. Panic. *)
| ObjectUnexpected            (* Object unexpected *)
| MapTemplatesError           (* Map has invalid number of templates. *)
| ArgumentNotParsed           (* There was an argument we could not parse. *)
| NullReturnType              (* Unexpected null as return type. *)
| RanOutOfNames (attemptedName : string)
| NotSupported
| NullInTranslatedArguments   (* Unexpected null in translated argument types. *)
| ParameterAlreadyDocumented (paramName : string)
| RequiredUnionWithOptionalUnion (memberName : string)
| ProblemRenderingMember.

(** The three module-level maps. *)
Record State : Type := mkState {
  modelTypes : JsMap.t Type_;
  documentedResults : JsMap.t string;
  enumTypes : JsMap.t (list string) }.

Inductive Result (A : Type) : Type :=
| Ok (a : A) (s : State)
| Throw (e : Error).
Arguments Ok {A} a s.
Arguments Throw {A} e.

Definition M (A : Type) : Type := State -> Result A.

Definition ret {A} (a : A) : M A := fun s => Ok a s.

Definition throw {A} (e : Error) : M A := fun _ => Throw e.

Definition bind {A B} (c : M A) (k : A -> M B) : M B :=
  fun s => match c s with
           | Ok a s' => k a s'
           | Throw e => Throw e
           end.

Notation "x <- c ;; k" := (bind c (fun x => k))
  (at level 61, c at next level, right associativity).
Notation "c ;;; k" := (bind c (fun _ => k))
  (at level 61, right associativity).

(** [value] when it is defined, a TypeError otherwise. *)
Definition defined {A} (o : option A) : M A :=
  match o with Some a => ret a | None => throw TypeError end.

Definition getModelTypes : M (JsMap.t Type_) := fun s => Ok (modelTypes s) s.

Definition setModelType (k : string) (v : Type_) : M unit :=
  fun s => Ok tt (mkState (JsMap.set k v (modelTypes s))
                          (documentedResults s) (enumTypes s)).

Definition setDocumentedResult (k v : string) : M unit :=
  fun s => Ok tt (mkState (modelTypes s)
                          (JsMap.set k v (documentedResults s)) (enumTypes s)).

Definition setEnumType (k : string) (v : list string) : M unit :=
  fun s => Ok tt (mkState (modelTypes s) (documentedResults s)
                          (JsMap.set k v (enumTypes s))).

(** [array.map(f)] for an [f] that runs in the monad, left to right. *)
Definition mapM {A B} (f : A -> M B) : list A -> M (list B) :=
  fix go (l : list A) : M (list B) :=
    match l with
    | [] => ret []
    | x :: r => y <- f x ;; ys <- go r ;; ret (y :: ys)
    end.

(** [array.join(sep)] on translated types: [null] elements print as the
    empty string. *)
Definition joinTypes (sep : string) (l : list (option string)) : string :=
  Js.join sep (map (fun o => match o with Some s => s | None => EmptyString end) l).

(** [array.includes(null)] *)
Definition includesNull (l : list (option string)) : bool :=
  existsb (fun o => match o with None => true | Some _ => false end) l.

(** The state of the generator when the first class is rendered: the
    well-known tri-state enum is already registered. *)
Definition initialState : State :=
  mkState JsMap.empty JsMap.empty
          (JsMap.set "MixedState" ["On"; "Off"; "Mixed"] JsMap.empty).

Definition nullableTypes : list string := ["int"; "bool"; "decimal"; "float"].

Definition customTypeNames : JsMap.t string :=
  JsMap.fromList [("domcontentloaded", "DOMContentLoaded");
                  ("networkidle", "NetworkIdle");
                  ("File", "FilePayload")].

(** What the generator takes from the modules it requires: the names of the
    documented classes ([documentation.classesArray]), the two renderers of
    [xmlDocumentation] (the column width is the constant 80), and the order
    in which the engine's [sort] leaves an array under the comparator of
    [renderMethod] when that comparator is not a consistent one. *)
Record Externals : Type := mkExternals {
  classesArray : list string;
  renderXmlDoc : option MarkdownNodes -> list string;
  renderTextOnly : option MarkdownNodes -> list string;
  inconsistentSort : list Member -> list Member }.

(** ** Naming helpers *)

Definition toArgumentName (name : string) : string :=
  if String.eqb name "event" then "@" ++ name else name.

(** [name.replace(/(HTTP[S]?)/g, ...)]: every HTTP or HTTPS becomes Http or
    Https. *)
Fixpoint replaceHTTP (s : string) : string :=
  match s with
  | String "H" (String "T" (String "T" (String "P" r))) =>
      match r with
      | String "S" r' => "Https" ++ replaceHTTP r'
      | _ => "Http" ++ replaceHTTP r
      end
  | String c r => String c (replaceHTTP r)
  | EmptyString => EmptyString
  end.

Definition toTitleCase (name : string) : string :=
  if String.eqb name "dblclick" then "DblClick"
  else Js.capitalize (replaceHTTP name).

Definition toMemberName (member : Member) (omitAsync : bool) : string :=
  let assumedName := toTitleCase (Js.orElse (alias member) (mname member)) in
  match kind member with
  | KInterface => "I" ++ assumedName
  | k =>
      if negb omitAsync && Kind_eqb k KMethod && async member
         && negb (Js.endsWith assumedName "Async")
      then assumedName ++ "Async"
      else assumedName
  end.

(** ** Regular expressions of [processArg] *)

Definition isLineTerminator (c : ascii) : bool :=
  Nat.eqb (nat_of_ascii c) 10 || Nat.eqb (nat_of_ascii c) 13.

(** The class [\s], on ASCII. *)
Definition isSpace (c : ascii) : bool :=
  let n := nat_of_ascii c in
  (Nat.leb 9 n && Nat.leb n 13) || Nat.eqb n 32.

(** The class [\w]. *)
Definition isWordChar (c : ascii) : bool :=
  let n := nat_of_ascii c in
  (Nat.leb 48 n && Nat.leb n 57) || (Nat.leb 65 n && Nat.leb n 90)
  || (Nat.leb 97 n && Nat.leb n 122) || Nat.eqb n 95.

(** Offset of the last [>] before the first line terminator: where the
    greedy group of the IEnumerable pattern stops. *)
Fixpoint lastGt (s : string) : option nat :=
  match s with
  | EmptyString => None
  | String c r =>
      if isLineTerminator c then None
      else match lastGt r with
           | Some k => Some (S k)
           | None => if Ascii.eqb c ">"%char then Some 0 else None
           end
  end.

(** [newArg.replace] under the global pattern IEnumerable, [<], a greedy
    group [v] of any characters but line terminators, [>]: every match
    becomes ['Enumerable' + v[0].toUpperCase() + v.substring(1)].  [skip]
    counts the characters of the current match still to be dropped; [None]
    is the TypeError of [v[0].toUpperCase()] on an empty group. *)
Fixpoint replaceIEnumerable (skip : nat) (s : string) : option string :=
  match s with
  | EmptyString => Some EmptyString
  | String c r =>
      match skip with
      | S k => replaceIEnumerable k r
      | 0 =>
          let rest := Js.substringFrom 12 s in
          match (if String.prefix "IEnumerable<" s then lastGt rest
                 else None) with
          | Some k =>
              match Js.capitalizeIdx (String.substring 0 k rest),
                    replaceIEnumerable (12 + k) r with
              | Some v, Some tail => Some ("Enumerable" ++ v ++ tail)
              | _, _ => None
              end
          | None => option_map (String c) (replaceIEnumerable 0 r)
          end
      end
  end.

Fixpoint takeWord (s : string) : string :=
  match s with
  | String c r => if isWordChar c then String c (takeWord r) else EmptyString
  | EmptyString => EmptyString
  end.

(** [nonGenericType.match(..)[0]]: the first run of word characters, which
    only white space, single and double quotes may precede.  Without such a
    run [match] gives [null] and indexing it is a TypeError ([None]). *)
Fixpoint firstWord (s : string) : option string :=
  match s with
  | EmptyString => None
  | String c r =>
      if isWordChar c then Some (takeWord s)
      else if isSpace c || Ascii.eqb c (ascii_of_nat 34)
              || Ascii.eqb c (ascii_of_nat 39)
      then firstWord r
      else None
  end.

(** ** Arrays of strings *)

(** [array.indexOf(x)], where [x] may be [undefined]; -1 when absent. *)
Fixpoint indexOf (l : list string) (x : option string) : Z :=
  match l with
  | [] => (-1)%Z
  | y :: r =>
      if Js.isStr x y then 0%Z
      else let i := indexOf r x in
           if Z.ltb i 0 then (-1)%Z else Z.succ i
  end.

(** [array.splice(start, 0, x)]: a negative [start] counts from the end. *)
Definition spliceInsert (l : list string) (start : Z) (x : string) : list string :=
  let len := Z.of_nat (List.length l) in
  let i := if Z.ltb start 0 then Z.max (len + start) 0 else Z.min start len in
  (firstn (Z.to_nat i) l ++ x :: skipn (Z.to_nat i) l)%list.

(** The variables local to one call of [renderMethod], shared by its inner
    functions. *)
Module Locals.
Record t : Type := mk {
  args : list string;
  explodedArgs : list string;
  argTypeMap : JsMap.t string;
  paramDocs : JsMap.t (list string) }.
End Locals.

(** ** The generator *)

Section Generator.

Variable X : Externals.

Definition classNameMap : JsMap.t string :=
  fold_left (fun m kv => JsMap.set (fst kv) (snd kv) m)
    [("Error", "Exception");
     ("TimeoutError", "TimeoutException");
     ("EvaluationArgument", "object");
     ("boolean", "bool");
     ("Serializable", "T");
     ("any", "object");
     ("Buffer", "byte[]");
     ("path", "string");
     ("URL", "string");
     ("RegExp", "Regex");
     ("Readable", "Stream")]
    (JsMap.fromList
       (map (fun x => (x, "I" ++ toTitleCase x)) (classesArray X))).

Definition registerModelType (typeName : string) (type : Type_) : M unit :=
  if Js.includesStr ["object"; "string"; "int"] typeName then ret tt
  else
    m <- getModelTypes ;;
    match JsMap.get typeName m with
    | Some _ => ret tt   (* already exists, so skipping *)
    | None => setModelType typeName type
    end.

(** The test [type.union.length == 2 && type.union[1].name === 'Array' &&
    type.union[1].templates[0].name === type.union[0].name] of
    [translateType]; [None] is the TypeError of reading [templates[0].name]
    when the array variant has no template. *)
Definition isArrayOfFirstVariant (u : list Type_) : option bool :=
  match u with
  | [u0; u1] =>
      if String.eqb (name u1) "Array" then
        match templates u1 with
        | Some (t0 :: _) => Some (String.eqb (name t0) (name u0))
        | _ => None
        end
      else Some false
  | _ => Some false
  end.

(** The expressions ['[boolean]|dq mixed dq'] and ['[float]|dq raf dq'],
    where dq is the double quote. *)
Definition booleanOrMixed : string := "[boolean]|" ++ Js.quoted "mixed".
Definition floatOrRaf : string := "[float]|" ++ Js.quoted "raf".

(** The default [generateNameCallback], [t => t.name]. *)
Definition defaultNameCallback (t : Type_) : M string := ret (name t).

Fixpoint translateType (type : Type_) (parent : Parent)
    (generateNameCallback : Type_ -> M string) {struct type}
  : M (option string) :=
  (* a few special cases we can fix automatically *)
  if Js.isStr (expression type) "[null]|[Error]" then ret (Some "void")
  else if Js.isStr (expression type) booleanOrMixed
  then ret (Some "MixedState")
  else
  match union type with
  | Some u =>
      u0 <- defined (nth_error u 0) ;;
      if String.eqb (name u0) "null" && Nat.eqb (List.length u) 2 then
        match u with
        | [_; u1] => translateType u1 parent generateNameCallback
        | _ => throw TypeError
        end
      else if Js.isStr (expression type) "[string]|[Buffer]"
      then ret (Some "byte[]")
      else if Js.isStr (expression type) "[string]|[float]"
              || Js.isStr (expression type) "[string]|[float]|[boolean]"
      then ret (Some "string")
      else
        arrayOfFirst <- defined (isArrayOfFirstVariant u) ;;
        if (arrayOfFirst : bool)
        then ret (Some ("IEnumerable<" ++ name u0 ++ ">"))
        else if Js.isStr (expression type) floatOrRaf
        then ret (Some "Polling")
        else if Js.truthy (name type) then
          (* Regular primitive enums are named in the markdown. *)
          setEnumType (name type) (map name u) ;;;
          ret (Some (name type))
        else ret None
  | None =>
  if String.eqb (name type) "Array" then
    match templates type with
    | None => throw TypeError
    | Some [t0] =>
        innerType <- translateType t0 parent generateNameCallback ;;
        ret (Some ("IEnumerable<" ++ Js.show innerType ++ ">"))
    | Some _ => throw (ArrayDimensionError (name type) (parentName parent))
    end
  else if String.eqb (name type) "Object" then
    match templates type with
    | Some [t0; t1] =>
        keyType <- translateType t0 parent generateNameCallback ;;
        valueType <- translateType t1 parent generateNameCallback ;;
        ret (Some ("IEnumerable<KeyValuePair<" ++ Js.show keyType ++ ", "
                   ++ Js.show valueType ++ ">>"))
    | _ =>
        match properties type with
        | None => ret (Some "object")
        | Some _ =>
            (* this is an additional type that we need to generate *)
            objectName <- generateNameCallback type ;;
            if String.eqb objectName "Object" then throw ObjectUnexpected
            else registerModelType objectName type ;;; ret (Some objectName)
        end
    end
  else if String.eqb (name type) "Map" then
    match templates type with
    | Some [t0; t1] =>
        keyType <- translateType t0 parent generateNameCallback ;;
        valueType <- translateType t1 parent generateNameCallback ;;
        ret (Some ("Dictionary<" ++ Js.show keyType ++ ", "
                   ++ Js.show valueType ++ ">"))
    | _ => throw MapTemplatesError
    end
  else if String.eqb (name type) "function" then
    match args type with
    | None => ret (Some "Action")
    | Some targs =>
        if Js.isStr (expression type) "[function]" then ret (Some "Action")
        else
          translatedCallbackArguments <-
            mapM (fun t => translateType t parent generateNameCallback) targs ;;
          if includesNull translatedCallbackArguments
          then throw ArgumentNotParsed
          else
            let argsList := joinTypes ", " translatedCallbackArguments in
            match returnType type with
            | None => ret (Some ("Action<" ++ argsList ++ ">"))
            | Some rt =>
                returnType <- translateType rt parent generateNameCallback ;;
                match returnType with
                | None => throw NullReturnType
                | Some r =>
                    ret (Some ("Func<" ++ argsList ++ ", " ++ r ++ ">"))
                end
            end
    end
  else
  match templates type with
  | Some ts =>
      (* a generic type: the templates are translated with the default
         callback *)
      types <- mapM (fun t => translateType t parent defaultNameCallback) ts ;;
      ret (Some (name type ++ "<" ++ joinTypes ", " types ++ ">"))
  | None =>
      ret (Some (Js.orElse (JsMap.get (name type) classNameMap) (name type)))
  end
  end.


(** [typesDiffer], the local function of [generateNameDefault]. *)
Definition typesDiffer (left right : Type_) : bool :=
  if Js.truthyOpt (expression left) && Js.truthyOpt (expression right)
  then negb (option_eqb String.eqb (expression left) (expression right))
  else JSON_stringify_differ (properties right) (properties left).

Definition generateEnumNameIfApplicable (type : Type_) : option string :=
  match union type with
  | None => None
  | Some u =>
      let potentialValues :=
        filter (fun v => Js.startsWith (name v) Js.dq) u in
      if negb (Nat.eqb (List.length potentialValues) (List.length u))
         && negb (match u with
                  | u0 :: _ =>
                      String.eqb (name u0) "null"
                      && Nat.eqb (List.length potentialValues)
                                 (List.length u - 1)
                  | [] => false
                  end)
      then None   (* this isn't an enum *)
      else Some (name type)
  end.

(** The first two statements of the loop of [generateNameDefault]: the
    trailing s is dropped, then the custom type names are applied. *)
Definition normalizeAttempt (attemptedName : string) : string :=
  (* crude attempt at removing plurality *)
  let attemptedName :=
    if Js.endsWith attemptedName "s"
       && negb (Js.includesStr ["properties"; "httpcredentials"]
                               (Js.toLowerCase attemptedName))
    then Js.dropLast attemptedName else attemptedName in
  Js.orElse (JsMap.get attemptedName customTypeNames) attemptedName.

(** The [while (true)] loop of [generateNameDefault].  [names] is what is
    left of the array of the same name, last element first: every [continue]
    pops one. *)
Fixpoint generateNameLoop (names : list string) (attemptedName : string)
    (t : Type_) {struct names} : M string :=
  let attemptedName := normalizeAttempt attemptedName in
  m <- getModelTypes ;;
  let probableType := JsMap.get attemptedName m in
  if match probableType with
     | Some p => typesDiffer t p
     | None => false
     end || Js.includesStr ["Value"] attemptedName
  then
    match names with
    | [] => throw (RanOutOfNames attemptedName)
    | n :: names' => generateNameLoop names' (n ++ attemptedName) t
    end
  else setModelType attemptedName t ;;; ret attemptedName.

(** The array [names] of [generateNameDefault] once the duplicate is
    dropped. *)
Definition nameChain (member : Member) (name_ : string) (parent : Parent)
  : list string :=
  let names := [Js.orElse (parentAlias parent) (parentName parent);
                toTitleCase (Js.orElse (alias member) (mname member));
                toTitleCase name_] in
  if String.eqb (nth 2 names EmptyString) (nth 1 names EmptyString)
  then removelast names   (* get rid of duplicates, cheaply *)
  else names.

Definition generateNameDefault (member : Member) (name_ : string)
    (t : Type_) (parent : Parent) : M string :=
  if match properties t, templates t, union t with
     | None, None, None => Js.isStr (expression t) "[Object]"
     | _, _, _ => false
     end
  then ret "object"
  else
    (* we'd get this call for enums, primarily *)
    let enumName := generateEnumNameIfApplicable t in
    if negb (Js.truthyOpt enumName) then
      match kind member with
      | KMethod | KProperty =>
          let names := nameChain member name_ parent in
          let attemptedName := last names EmptyString in
          generateNameLoop (rev (removelast names)) attemptedName t
      | KEvent => ret (name_ ++ "Payload")
      | KInterface => ret (Js.orElse enumName (name t))
      end
    else ret (Js.orElse enumName (name t)).

(** [printArgDoc(name, value, out)]: the lines pushed to [out]. *)
Definition printArgDoc (name_ : string) (value : list string) : list string :=
  match value with
  | [v] => ["/// <param name=" ++ Js.quoted name_ ++ ">" ++ v ++ "</param>"]
  | _ => ("/// <param name=" ++ Js.quoted name_ ++ ">")
         :: app (map (fun l => "/// " ++ l) value) ["/// </param>"]
  end.

(** [renderEnum]: the body handed to [writeFile]; [None] is the TypeError of
    [word[0].toUpperCase()] on an empty word. *)
Fixpoint renderEnumLiterals (literals : list string) : option (list string) :=
  match literals with
  | [] => Some []
  | literal :: rest =>
      (* strip out the quotes *)
      let literal := Js.removeQuotes literal in
      let words :=
        map (fun word =>
               match JsMap.get word customTypeNames with
               | Some w => if Js.truthy w then Some w else Js.capitalizeIdx word
               | None => Js.capitalizeIdx word
               end)
            (Js.splitSpaces (Js.dashesToSpaces literal)) in
      if includesNull words then None
      else
        match renderEnumLiterals rest with
        | None => None
        | Some body =>
            Some (("[EnumMember(Value = " ++ Js.quoted literal ++ ")]")
                  :: (joinTypes EmptyString words ++ ",")
                  :: body)
        end
  end.

Definition renderEnum (literals : list string) : option (list string) :=
  option_map (cons "Undefined = 0,") (renderEnumLiterals literals).

(** *** [renderMethod] and its inner functions *)

Definition resolveType (member : Member) (parent : Parent) (type : Type_)
  : M (option string) :=
  translateType type parent (fun t =>
    let newName :=
      parentName parent ++ toMemberName member true ++ "Result" in
    setDocumentedResult newName
      ("Result of calling <see cref=" ++ Js.dq ++ "I"
       ++ toTitleCase (parentName parent) ++ "." ++ toMemberName member false
       ++ Js.dq ++ "/>.") ;;;
    ret newName).

Definition addParamsDoc (paramName : string) (docs : list string)
    (L : Locals.t) : M Locals.t :=
  let paramName :=
    if Js.startsWith paramName "@" then Js.substringFrom 1 paramName
    else paramName in
  match JsMap.get paramName (Locals.paramDocs L) with
  | Some _ => throw (ParameterAlreadyDocumented paramName)
  | None =>
      ret (Locals.mk (Locals.args L) (Locals.explodedArgs L)
             (Locals.argTypeMap L)
             (JsMap.set paramName docs (Locals.paramDocs L)))
  end.

Definition pushArg (innerArgType : option string) (innerArgName : string)
    (argument : Member) (isExploded : bool) (L : Locals.t) : Locals.t :=
  let isNullable :=
    match innerArgType with
    | Some ty => Js.includesStr nullableTypes ty
    | None => false
    end in
  let requiredPrefix :=
    if required argument || isExploded then EmptyString
    else if isNullable then "?" else EmptyString in
  let requiredSuffix :=
    if required argument || isExploded then EmptyString else " = default" in
  let push :=
    Js.show innerArgType ++ requiredPrefix ++ " " ++ innerArgName
    ++ requiredSuffix in
  Locals.mk
    (if isExploded then Locals.args L else app (Locals.args L) [push])
    (if isExploded then app (Locals.explodedArgs L) [push]
     else Locals.explodedArgs L)
    (JsMap.set push innerArgName (Locals.argTypeMap L))
    (Locals.paramDocs L).

(** [args.push(x)] *)
Definition pushRaw (x : string) (L : Locals.t) : Locals.t :=
  Locals.mk (app (Locals.args L) [x]) (Locals.explodedArgs L)
            (Locals.argTypeMap L) (Locals.paramDocs L).

(** One round of the [for (const newArg of translatedArguments)] loop. *)
Definition pushExploded (argName : string) (arg : Member)
    (argDocumentation : list string) (L : Locals.t) (newArg : string)
  : M Locals.t :=
  nonGenericType <- defined (replaceIEnumerable 0 newArg) ;;
  sanitizedArgName <- defined (firstWord nonGenericType) ;;
  let newArgName := argName ++ Js.capitalize sanitizedArgName in
  (* push the exploded arg *)
  addParamsDoc newArgName argDocumentation
    (pushArg (Some newArg) newArgName arg true L).

Definition foldM {A S} (f : S -> A -> M S) : list A -> S -> M S :=
  fix go (l : list A) (s : S) : M S :=
    match l with
    | [] => ret s
    | x :: r => s' <- f s x ;; go r s'
    end.

Fixpoint processArg (member : Member) (parent : Parent) (arg : Member)
    (L : Locals.t) {struct arg} : M Locals.t :=
  if String.eqb (mname arg) "options" then
    match properties (type arg) with
    | None => throw TypeError
    | Some props =>
        (fix forEach (l : list Member) (L : Locals.t) : M Locals.t :=
           match l with
           | [] => ret L
           | p :: r => L' <- processArg member parent p L ;; forEach r L'
           end) props L
    end
  else if Js.isStr (expression (type arg)) "[string]|[path]" then
    let argName := toArgumentName (mname arg) in
    let L := pushArg (Some "string") (argName ++ " = null") arg false L in
    let L := pushArg (Some "string") (argName ++ "Path = null") arg false L in
    match spec arg with
    | Some _ =>
        L <- addParamsDoc argName (renderTextOnly X (spec arg)) L ;;
        addParamsDoc (argName ++ "Path")
          ["Instead of specifying <paramref name=" ++ Js.quoted argName
           ++ "/>, gives the file name to load from."] L
    | None => ret L
    end
  else if Js.isStr (expression (type arg)) "[boolean]|[Array]<[string]>" then
    (* we split this into two args, one boolean, with the logical name *)
    let argName := toArgumentName (mname arg) in
    u <- defined (union (type arg)) ;;
    u0 <- defined (nth_error u 0) ;;
    leftArgType <- translateType u0 parent (fun _ => throw NotSupported) ;;
    u1 <- defined (nth_error u 1) ;;
    rightArgType <- translateType u1 parent (fun _ => throw NotSupported) ;;
    let L := pushArg leftArgType argName arg false L in
    let L := pushArg rightArgType (argName ++ "Values") arg false L in
    L <- addParamsDoc argName (renderTextOnly X (spec arg)) L ;;
    addParamsDoc (argName ++ "Values")
      ["The values to take into account when <paramref name="
       ++ Js.quoted argName ++ "/> is <code>true</code>."] L
  else
    let argName := toArgumentName (Js.orElse (alias arg) (mname arg)) in
    argType <- translateType (type arg) parent
                 (fun t => generateNameDefault member argName t parent) ;;
    match argType, union (type arg) with
    | None, Some u =>
        (* we might have to split this into multiple arguments *)
        translatedArguments <-
          mapM (fun t => translateType t parent
                           (fun x => generateNameDefault member argName x parent))
               u ;;
        if includesNull translatedArguments
        then throw NullInTranslatedArguments
        else
          let argDocumentation := renderTextOnly X (spec arg) in
          L <- foldM (pushExploded argName arg argDocumentation)
                 (map Js.show translatedArguments) L ;;
          ret (pushRaw (if required arg then "EXPLODED_ARG"
                        else "OPTIONAL_EXPLODED_ARG") L)
    | _, _ =>
        L <- addParamsDoc argName (renderTextOnly X (spec arg)) L ;;
        if String.eqb argName "timeout" && Js.isStr argType "decimal"
        then (* a special argument, we ignore our convention *)
          ret (pushRaw "int timeout = 0" L)
        else ret (pushArg argType argName arg false L)
    end.

(** [member.argsArray.sort((a, b) => b.alias === 'options' ? -1 : 0)].  With
    no alias equal to options the comparator is constantly 0 and the stable
    sort leaves the array as it is; otherwise the comparator is not
    consistent and the order is the engine's. *)
Definition sortArgs (argsArray : list Member) : list Member :=
  if existsb (fun b => Js.isStr (alias b) "options") argsArray
  then inconsistentSort X argsArray
  else argsArray.

Definition waitForExcluded : list string :=
  ["WaitForTimeoutAsync"; "WaitForFunctionAsync"; "WaitForLoadStateAsync";
   "WaitForURLAsync"; "WaitForSelectorAsync"; "WaitForElementStateAsync"].

(** The [WaitFor] block of [renderMethod]. *)
Definition addWaitForAction (name_ : string) (L : Locals.t) : M Locals.t :=
  if Js.includes name_ "WaitFor" && negb (Js.includesStr waitForExcluded name_)
  then
    let firstOptional := find (fun a => Js.includes a "=") (Locals.args L) in
    let L :=
      Locals.mk
        (spliceInsert (Locals.args L) (indexOf (Locals.args L) firstOptional)
                      "Func<Task> action = default")
        (Locals.explodedArgs L)
        (JsMap.set "Func<Task> action = default" "action" (Locals.argTypeMap L))
        (Locals.paramDocs L) in
    addParamsDoc "action" ["Action to perform while waiting"] L
  else ret L.

(** [printArgDoc(argType, paramDocs.get(argType), out)] with
    [argType = argTypeMap.get(key)]: reading [length] of a missing
    documentation is a TypeError. *)
Definition argDoc (L : Locals.t) (key : string) : M (list string) :=
  argType <- defined (JsMap.get key (Locals.argTypeMap L)) ;;
  value <- defined (JsMap.get argType (Locals.paramDocs L)) ;;
  ret (printArgDoc argType value).

Definition isExplodedMarker (arg : string) : bool :=
  String.eqb arg "EXPLODED_ARG" || String.eqb arg "OPTIONAL_EXPLODED_ARG".

(** The [for] loop over [args] that builds one overload: the documentation
    lines pushed to [out], [overloadedArgs], and
    [containsOptionalExplodedArgs]. *)
Fixpoint overloadArgs (L : Locals.t) (explodedArg : string)
    (args : list string) (acc : list string * list string * bool)
  : M (list string * list string * bool) :=
  match args with
  | [] => ret acc
  | arg :: rest =>
      let '(out, overloadedArgs, containsOptional) := acc in
      if isExplodedMarker arg then
        doc <- argDoc L explodedArg ;;
        overloadArgs L explodedArg rest
          (app out doc, app overloadedArgs [explodedArg],
           String.eqb arg "OPTIONAL_EXPLODED_ARG")
      else
        doc <- argDoc L arg ;;
        overloadArgs L explodedArg rest
          (app out doc, app overloadedArgs [arg], containsOptional)
  end.

Definition signature (type : option string) (name_ : string)
    (args : list string) : string :=
  Js.show type ++ " " ++ name_ ++ "(" ++ Js.join ", " args ++ ");".

(** [explodedArgs.forEach((explodedArg, argIndex) => ..)] *)
Fixpoint renderOverloads (member : Member) (type : option string)
    (name_ : string) (L : Locals.t) (explodedArgs : list string)
    (acc : list string * bool) : M (list string * bool) :=
  match explodedArgs with
  | [] => ret acc
  | explodedArg :: rest =>
      let out := app (fst acc) (renderXmlDoc X (spec member)) in
      r <- overloadArgs L explodedArg (Locals.args L) (out, [], snd acc) ;;
      let '(out, overloadedArgs, containsOptional) := r in
      let out := app out [signature type name_ overloadedArgs] in
      let out :=
        match rest with
        | [] => out
        | _ :: _ => app out [EmptyString]   (* output a special blank line *)
        end in
      renderOverloads member type name_ L rest (out, containsOptional)
  end.

(** The first part of [renderMethod]: the value of its local variable [type]
    (here [type_]) when the getter test is reached. *)
Definition methodReturnType (member : Member) (parent : Parent)
  : M (option string) :=
  (* need to check the original one *)
  type_ <-
    (if String.eqb (name (type member)) "Object"
        || String.eqb (name (type member)) "Array"
     then
       inner <-
         (if String.eqb (name (type member)) "Array" then
            (* we want to influence the name, but also change the object type *)
            ts <- defined (templates (type member)) ;;
            t0 <- defined (nth_error ts 0) ;;
            ret (t0, true)
          else ret (type member, false)) ;;
       let '(innerType, isArray) := inner in
       if Js.isStr (expression innerType) "[Object]<[string], [string]>"
       then ret None   (* do nothing, because this is handled down the road *)
       else if negb isArray
               && match properties innerType with None => true | Some _ => false end
       then ret (Some "dynamic")
       else
         type_ <-
           (if Js.truthyOpt (JsMap.get (name innerType) classNameMap)
            then ret (JsMap.get (name innerType) classNameMap)
            else resolveType member parent innerType) ;;
         if isArray
         then ret (Some ("IReadOnlyCollection<" ++ Js.show type_ ++ ">"))
         else ret type_
     else ret None) ;;
  if Js.truthyOpt type_ then ret type_
  else resolveType member parent (type member).

(** The lines [renderMethod] pushes to [out]. *)
Definition renderMethod (member : Member) (parent : Parent) (name_ : string)
  : M (list string) :=
  type_ <- methodReturnType member parent ;;
  (* translate simple getters into read-only properties *)
  if Nat.eqb (List.length (argsArray member)) 0
     && negb (Js.isStr type_ "void")
     && negb (Js.startsWith name_ "Get")
     && negb (Js.startsWith name_ "As")
     && negb (async member)
  then
    ret (app (match spec member with
              | Some _ => renderXmlDoc X (spec member)
              | None => []
              end)
             [Js.show type_ ++ " " ++ name_ ++ " { get; }"])
  else
    (* HACK: special case for generics handling! *)
    let name_ := if Js.isStr type_ "T" then name_ ++ "<T>" else name_ in
    (* adjust the return type for async methods *)
    let type_ :=
      if async member then
        if Js.isStr type_ "void" then Some "Task"
        else Some ("Task<" ++ Js.show type_ ++ ">")
      else type_ in
    (* render args *)
    L <- foldM (fun L arg => processArg member parent arg L)
           (sortArgs (argsArray member))
           (Locals.mk [] [] JsMap.empty JsMap.empty) ;;
    L <- addWaitForAction name_ L ;;
    match Locals.explodedArgs L with
    | [] =>
        ret (app (renderXmlDoc X (spec member))
                 (app (flat_map (fun kv => printArgDoc (fst kv) (snd kv))
                                (Locals.paramDocs L))
                      [signature type_ name_ (Locals.args L)]))
    | _ :: _ =>
        r <- renderOverloads member type_ name_ L (Locals.explodedArgs L)
               ([], false) ;;
        let '(out, containsOptionalExplodedArgs) := r in
        (* If the exploded union arguments are optional, we also output a
           special signature: all the arguments except the exploded ones. *)
        if containsOptionalExplodedArgs then
          let filteredArgs :=
            filter (fun x => negb (String.eqb x "OPTIONAL_EXPLODED_ARG"))
                   (Locals.args L) in
          docs <- foldM (fun out arg =>
                           if String.eqb arg "EXPLODED_ARG"
                           then throw (RequiredUnionWithOptionalUnion (mname member))
                           else doc <- argDoc L arg ;; ret (app out doc))
                    filteredArgs
                    (app out (renderXmlDoc X (spec member))) ;;
          ret (app docs [signature type_ name_ filteredArgs])
        else ret out
    end.

(** The lines [renderMember] pushes to [out]. *)
Definition renderMember (member : Member) (parent : Parent)
  : M (list string) :=
  let name_ := toMemberName member false in
  out <-
    match kind member with
    | KMethod => renderMethod member parent name_
    | k =>
        type_ <- translateType (type member) parent
                   (fun t => generateNameDefault member name_ t parent) ;;
        let docs := match spec member with
                    | Some _ => renderXmlDoc X (spec member)
                    | None => []
                    end in
        match k with
        | KEvent =>
            ret (app docs
                   ["event EventHandler<" ++ Js.show type_ ++ "> " ++ name_ ++ ";"])
        | KProperty =>
            let propertyOrigin :=
              if Js.isStr (expression (type member)) "[string]|[float]"
              then mname member ++ "String" else mname member in
            let origin :=
              match clazz member with
              | None => ["[JsonPropertyName(" ++ Js.quoted propertyOrigin ++ ")]"]
              | Some _ => []
              end in
            (* this is a special hack for Accessibility *)
            let type_ :=
              if String.eqb (mname member) "children"
              then Some ("IEnumerable<" ++ parentName parent ++ ">")
              else type_ in
            (* [type.endsWith] on [null] is a TypeError *)
            ty <- defined type_ ;;
            let ty :=
              if negb (Js.endsWith ty "?") && negb (required member)
                 && Js.includesStr nullableTypes ty
              then ty ++ "?" else ty in
            ret (app docs
                   (app origin
                      [match clazz member with
                       | Some _ => "public " ++ ty ++ " " ++ name_ ++ " { get; }"
                       | None => "public " ++ ty ++ " " ++ name_ ++ " { get; set; }"
                       end]))
        | _ => throw ProblemRenderingMember
        end
    end ;;
  ret (app out [EmptyString]).

End Generator.

(** ** Sample documentation trees *)

Definition simpleType (n : string) : Type_ :=
  mkType n None None None None None None.

Definition unionType (n : string) (e : option string) (vs : list Type_)
  : Type_ :=
  mkType n e (Some vs) None None None None.

Definition arrayType (ts : list Type_) : Type_ :=
  mkType "Array" None None (Some ts) None None None.

Definition objectType (e : option string) (props : list Member) : Type_ :=
  mkType "Object" e None None None None (Some props).

(** A parameter or an object property. *)
Definition param (n : string) (t : Type_) (req : bool)
    (sp : option MarkdownNodes) : Member :=
  mkMember KProperty n None t req false [] sp None.

Definition method (n : string) (result : Type_) (isAsync : bool)
    (ps : list Member) (sp : option MarkdownNodes) : Member :=
  mkMember KMethod n None result true isAsync ps sp (Some "Page").

Definition page : Parent := mkParent "Page" None.

(** Externals with no documented class, renderers that keep the text of the
    payload, and a sort that leaves arrays alone. *)
Definition plainExternals : Externals :=
  mkExternals []
    (fun o => match o with
              | Some l => map (fun x => "/// " ++ x) l
              | None => []
              end)
    (fun o => match o with Some l => l | None => [] end)
    (fun l => l).

(** The six canonical expressions [translateType] maps to a fixed type. *)
Definition hasFixedExpression (type : Type_) : bool :=
  Js.isStr (expression type) "[null]|[Error]"
  || Js.isStr (expression type) booleanOrMixed
  || Js.isStr (expression type) "[string]|[Buffer]"
  || Js.isStr (expression type) "[string]|[float]"
  || Js.isStr (expression type) "[string]|[float]|[boolean]"
  || Js.isStr (expression type) floatOrRaf.

(** The two-variant union that starts with the null marker. *)
Definition isNullableShape (u : list Type_) : bool :=
  match u with
  | [u0; _] => String.eqb (name u0) "null"
  | _ => false
  end.

(** A union that no fixed expression and no fixed two-variant shape claims:
    the one that reaches the last rule for unions. *)
Definition isRemainingUnion (type : Type_) : bool :=
  match union type with
  | Some (u0 :: r) =>
      negb (hasFixedExpression type)
      && negb (isNullableShape (u0 :: r))
      && match isArrayOfFirstVariant (u0 :: r) with
         | Some false => true
         | _ => false
         end
  | _ => false
  end.

Definition isQuotedLiteral (v : Type_) : bool := Js.startsWith (name v) Js.dq.

(** Every variant is a quoted string literal, or every variant except a
    leading null marker is. *)
Definition isLiteralUnion (u : list Type_) : bool :=
  forallb isQuotedLiteral u
  || match u with
     | u0 :: r => String.eqb (name u0) "null" && forallb isQuotedLiteral r
     | [] => false
     end.

Definition withEnumType (k : string) (v : list string) (s : State) : State :=
  mkState (modelTypes s) (documentedResults s) (JsMap.set k v (enumTypes s)).

Definition withModelType (k : string) (v : Type_) (s : State) : State :=
  mkState (JsMap.set k v (modelTypes s)) (documentedResults s) (enumTypes s).

(** The line of an enum body that carries the serialised value. *)
Definition enumMemberLine (literal : string) : string :=
  "[EnumMember(Value = " ++ Js.quoted literal ++ ")]".

(** The elements at even positions. *)
Fixpoint everyOther (l : list string) : list string :=
  match l with
  | a :: _ :: r => a :: everyOther r
  | _ => []
  end.

(** Unions used as concrete inputs. *)
Definition sizeUnion : Type_ :=
  unionType "Size" None [simpleType "int"; simpleType "boolean"].

Definition unnamedLiterals : Type_ :=
  unionType EmptyString None
    [simpleType (Js.quoted "a"); simpleType (Js.quoted "b")].

Definition colorScheme : Type_ :=
  unionType "ColorScheme" None
    [simpleType (Js.quoted "light"); simpleType (Js.quoted "dark")].

Definition nullableLiteral : Type_ :=
  unionType "Media" None [simpleType "null"; simpleType (Js.quoted "print")].

Definition nullableLiterals : Type_ :=
  unionType "Media" None
    [simpleType "null"; simpleType (Js.quoted "screen");
     simpleType (Js.quoted "print")].

Definition nullOrError : Type_ :=
  unionType EmptyString (Some "[null]|[Error]")
    [simpleType "null"; simpleType "Error"].

Definition nullOrString : Type_ :=
  unionType EmptyString (Some "[null]|[string]")
    [simpleType "null"; simpleType "string"].

Definition arrayOfStrings : Type_ := arrayType [simpleType "string"].

Definition arrayOfBadArray : Type_ :=
  arrayType [arrayType [simpleType "string"; simpleType "int"]].

(** The name [renderMethod] gives to a method that returns the generic
    parameter. *)
Definition genericName (type_ : option string) (name_ : string) : string :=
  if Js.isStr type_ "T" then name_ ++ "<T>" else name_.

(** The test of the [WaitFor] block of [renderMethod]. *)
Definition takesWaitForAction (name_ : string) : bool :=
  Js.includes name_ "WaitFor" && negb (Js.includesStr waitForExcluded name_).

Definition memberDocs (X : Externals) (member : Member) : list string :=
  match spec member with
  | Some _ => renderXmlDoc X (spec member)
  | None => []
  end.

Definition titleMethod (isAsync : bool) : Member :=
  method "title" (simpleType "string") isAsync [] (Some ["The page title."]).

(** The return type of a rendered method: wrapped in Task when the method is
    asynchronous. *)
Definition asyncType (member : Member) (type_ : option string)
  : option string :=
  if async member then
    if Js.isStr type_ "void" then Some "Task"
    else Some ("Task<" ++ Js.show type_ ++ ">")
  else type_.

Definition stringOrNumber : Type_ :=
  unionType EmptyString (Some "[string]|[number]")
    [simpleType "string"; simpleType "number"].

Definition idParam (sp : option MarkdownNodes) : Member :=
  param "id" (simpleType "string") true sp.

Definition valueParam (req : bool) (sp : option MarkdownNodes) : Member :=
  param "value" stringOrNumber req sp.

Definition setValueMethod (req : bool) : Member :=
  method "setValue" (simpleType "void") false
    [idParam (Some ["The id."]); valueParam req (Some ["The value."])]
    (Some ["Sets the value."]).

(** A WaitFor method with the same two parameters. *)
Definition waitForValueMethod (req : bool) : Member :=
  method "waitForValue" (simpleType "void") true
    [idParam (Some ["The id."]); valueParam req (Some ["The value."])]
    (Some ["Waits for the value."]).

(** The key under which [addParamsDoc] files a parameter: the name without
    a leading at sign. *)
Definition docKey (paramName : string) : string :=
  if Js.startsWith paramName "@" then Js.substringFrom 1 paramName
  else paramName.

Definition stringOrPath : Type_ :=
  unionType EmptyString (Some "[string]|[path]")
    [simpleType "string"; simpleType "path"].

Definition addScriptMethod : Member :=
  method "addScript" (simpleType "void") false
    [param "script" stringOrPath true (Some ["The script."])]
    (Some ["Adds a script."]).

(** The name [generateNameDefault] tries first, and the one it tries next:
    the first with the next element of the chain in front. *)
Definition candidateName (member : Member) (name_ : string)
    (parent : Parent) : string :=
  normalizeAttempt (last (nameChain member name_ parent) EmptyString).

Definition disambiguatedName (member : Member) (name_ : string)
    (parent : Parent) : string :=
  normalizeAttempt
    (last (removelast (nameChain member name_ parent)) EmptyString
     ++ candidateName member name_ parent).

Definition isMethodOrProperty (member : Member) : bool :=
  match kind member with
  | KMethod | KProperty => true
  | _ => false
  end.

(** An object type with its own properties, which is not a union. *)
Definition isAnonymousObject (t : Type_) : bool :=
  match properties t, union t with
  | Some _, None => true
  | _, _ => false
  end.

(** Two classes, each with a property of the same name and of an anonymous
    object type of its own. *)
Definition alpha : Parent := mkParent "Alpha" None.
Definition beta : Parent := mkParent "Beta" None.

Definition property (c n : string) (t : Type_) : Member :=
  mkMember KProperty n None t true false [] None (Some c).

Definition widthObject (e : option string) : Type_ :=
  objectType e [param "width" (simpleType "int") true None].

Definition heightObject (e : option string) : Type_ :=
  objectType e [param "height" (simpleType "int") true None].

Definition waitForEventMethod : Member :=
  method "waitForEvent" (simpleType "void") true
    [param "event" (simpleType "string") true (Some ["The event."]);
     param "url" (simpleType "string") true (Some ["The url."])]
    (Some ["Waits for the event."]).

(** ** Emission: [writeFile], [renderClass], [renderModelType], links

    The part of the script that turns rendered members into files.  A
    generated file is kept as the folder, the name handed to [path.join] and
    the lines that replace the content marker of the template. *)

Inductive Folder : Type := TypesDir | ModelsDir | EnumsDir.

Record GeneratedFile : Type := mkFile {
  folder : Folder;
  fileName : string;
  content : list string }.

(** [Documentation.Class], as [renderClass] reads it. *)
Record Class : Type := mkClass {
  className : string;
  classAlias : option string;
  classExtends : option string;
  membersArray : list Member;
  classSpec : option MarkdownNodes }.

Definition classParent (clazz : Class) : Parent :=
  mkParent (className clazz) (classAlias clazz).

(** The two [throw]s of [renderModelType], beside the errors of the
    generator it calls. *)
Inductive EmitError : Type :=
| GeneratorError (e : Error)
| ArrayUnexpected        (* Array at this stage is unexpected. *)
| NotSureWhatToDo.       (* Not sure what to do in this case. *)

Inductive Emitted (A : Type) : Type :=
| Wrote (a : A) (s : State)
| Failed (e : EmitError).
Arguments Wrote {A} a s.
Arguments Failed {A} e.

(** Template-literal interpolation of a value that may be [undefined]. *)
Definition showUndefined (o : option string) : string :=
  match o with Some s => s | None => "undefined" end.

(** What the link renderer receives: the name of [item.clazz], [item.member],
    [item.option] and [item.param]. *)
Record LinkItem : Type := mkLinkItem {
  linkClazz : option string;
  linkMember : option Member;
  linkOption : option string;
  linkParam : option string }.

Inductive LinkError : Type :=
| UnknownLinkFormat      (* Unknown link format. *)
| LinkTypeError.         (* reading [name] of a missing [member.clazz] *)

(** The callback given to [documentation.setLinkRenderer]. *)
Definition linkRenderer (item : LinkItem) : LinkError + string :=
  match linkClazz item, linkMember item with
  | Some c, _ => inr ("<see cref=" ++ Js.quoted ("I" ++ toTitleCase c) ++ "/>")
  | None, Some m =>
      match clazz m with
      | Some c =>
          inr ("<see cref="
               ++ Js.quoted ("I" ++ toTitleCase c ++ "." ++ toMemberName m false)
               ++ "/>")
      | None => inl LinkTypeError
      end
  | None, None =>
      if Js.truthyOpt (linkOption item)
      then inr ("<paramref name=" ++ Js.quoted (showUndefined (linkOption item))
                ++ "/>")
      else if Js.truthyOpt (linkParam item)
      then inr ("<paramref name=" ++ Js.quoted (showUndefined (linkParam item))
                ++ "/>")
      else inl UnknownLinkFormat
  end.

Section Emission.

Variable X : Externals.

(** [writeFile]: the file that is written.  [name] is [undefined] when
    [renderClass] finds no entry for the class. *)
Definition writeFile (kind_ : string) (name_ : option string)
    (spec_ : option MarkdownNodes) (body : list string) (folder_ : Folder)
    (extendsName : option string) : M GeneratedFile :=
  fun s =>
    let docs :=
      match spec_ with
      | Some _ => renderXmlDoc X spec_
      | None =>
          let ownDocumentation :=
            match name_ with
            | Some n => JsMap.get n (documentedResults s)
            | None => None
            end in
          match ownDocumentation with
          | Some own =>
              if Js.truthy own
              then ["/// <summary>"; "/// " ++ own; "/// </summary>"]
              else []
          | None => []
          end
      end in
    let extendsName :=
      if Js.isStr extendsName "IEventEmitter" then None else extendsName in
    let declaration :=
      "public " ++ kind_ ++ " " ++ showUndefined name_
      ++ (if Js.truthyOpt extendsName
          then " : " ++ showUndefined extendsName else EmptyString) in
    Ok (mkFile folder_ (showUndefined name_ ++ ".generated.cs")
               (app docs (declaration :: "{" :: app body ["}"])))
       s.

(** The loop [for (const member of ..) renderMember(member, parent, body)]. *)
Definition renderMembers (members : list Member) (parent : Parent)
  : M (list string) :=
  foldM (fun body member =>
           out <- renderMember X member parent ;; ret (app body out))
        members [].

(** [renderClass]; [None] when nothing is written. *)
Definition renderClass (clazz : Class) : M (option GeneratedFile) :=
  let name_ := JsMap.get (className clazz) (classNameMap X) in
  if Js.isStr name_ "TimeoutException" then ret None
  else
    body <- renderMembers (membersArray clazz) (classParent clazz) ;;
    file <- writeFile "partial interface" name_ (classSpec clazz) body TypesDir
              (if Js.truthyOpt (classExtends clazz)
               then Some ("I" ++ toTitleCase (showUndefined (classExtends clazz)))
               else None) ;;
    ret (Some file).

(** [renderModelType].  [newType name] is the parent [new Type(name, null)],
    built by the constructor of [Documentation.Type]. *)
Definition renderModelType (newType : string -> Parent) (name_ : string)
    (type_ : Type_) : State -> Emitted GeneratedFile :=
  fun s =>
    let unwrapped :=
      match union type_ with
      | Some [] => None   (* [type.union[0].name] on [undefined] *)
      | Some [u0; u1] => Some (if String.eqb (name u0) "null" then u1 else type_)
      | _ => Some type_
      end in
    match unwrapped with
    | None => Failed (GeneratorError TypeError)
    | Some type_ =>
        if String.eqb (name type_) "Array" then Failed ArrayUnexpected
        else
          match properties type_ with
          | Some props =>
              match (body <- renderMembers props (newType name_) ;;
                     writeFile "partial class" (Some name_) None body
                               ModelsDir None) s with
              | Ok file s' => Wrote file s'
              | Throw e => Failed (GeneratorError e)
              end
          | None => Failed NotSureWhatToDo
          end
    end.

(** [renderEnum] with its call of [writeFile]; [None] is the TypeError of
    [renderEnum]. *)
Definition renderEnumFile (name_ : string) (literals : list string)
  : M GeneratedFile :=
  body <- defined (renderEnum literals) ;;
  writeFile "enum" (Some name_) None body EnumsDir None.

End Emission.

(** ** Predicates used to state the properties *)

(** The shape of the types that reach the naming callback of
    [translateType]: an Object node that is not a union and has properties. *)
Definition isObjectWithProperties (t : Type_) : bool :=
  String.eqb (name t) "Object"
  && match union t with None => true | Some _ => false end
  && match properties t with Some _ => true | None => false end.

(** Neither of the two expressions [translateType] tests first. *)
Definition hasNoShortcut (t : Type_) : bool :=
  negb (Js.isStr (expression t) "[null]|[Error]")
  && negb (Js.isStr (expression t) booleanOrMixed).

(** A name without a rule of its own in [translateType]. *)
Definition hasOrdinaryName (t : Type_) : bool :=
  negb (Js.includesStr ["Array"; "Object"; "Map"; "function"] (name t)).

(** A node that [translateType] takes by its name alone: no union, no
    templates, none of the names and expressions with a rule of their own. *)
Definition isPlainName (t : Type_) : bool :=
  hasNoShortcut t
  && match union t with None => true | Some _ => false end
  && match templates t with None => true | Some _ => false end
  && hasOrdinaryName t.

(** Every key of the first map is a key of the second. *)
Definition keysKept {V} (m m' : JsMap.t V) : Prop :=
  forall k, JsMap.get k m <> None -> JsMap.get k m' <> None.

(** No registry has lost a key. *)
Definition registriesGrow (s s' : State) : Prop :=
  keysKept (modelTypes s) (modelTypes s')
  /\ keysKept (documentedResults s) (documentedResults s')
  /\ keysKept (enumTypes s) (enumTypes s').

(** Every registered model type is an Object node with properties. *)
Definition modelTypesAreObjects (s : State) : Prop :=
  forall k t, JsMap.get k (modelTypes s) = Some t ->
              isObjectWithProperties t = true.

Definition withDocumentedResult (k v : string) (s : State) : State :=
  mkState (modelTypes s) (JsMap.set k v (documentedResults s)) (enumTypes s).

(** The names [classNameMap] sets after the documented classes. *)
Definition fixedClassNames : list (string * string) :=
  [("Error", "Exception");
   ("TimeoutError", "TimeoutException");
   ("EvaluationArgument", "object");
   ("boolean", "bool");
   ("Serializable", "T");
   ("any", "object");
   ("Buffer", "byte[]");
   ("path", "string");
   ("URL", "string");
   ("RegExp", "Regex");
   ("Readable", "Stream")].

Definition isFixedClassName (n : string) : bool :=
  Js.includesStr (map fst fixedClassNames) n.

(** Sample inputs. *)
Definition withClasses (classes : list string) : Externals :=
  mkExternals classes (renderXmlDoc plainExternals)
    (renderTextOnly plainExternals) (inconsistentSort plainExternals).

Definition pageClass (base : option string) : Class :=
  mkClass "Page" None base [titleMethod false] (Some ["The page."]).

Definition plainParent (n : string) : Parent := mkParent n None.

(** A Map, Object or generic node over the given templates. *)
Definition templated (n : string) (ts : list Type_) : Type_ :=
  mkType n None None (Some ts) None None None.

Definition functionType (e : option string) (targs : option (list Type_))
    (result : option Type_) : Type_ :=
  mkType "function" e None None targs result None.

(** The name [resolveType] gives to the result type of a method. *)
Definition resultName (member : Member) (parent : Parent) : string :=
  parentName parent ++ toMemberName member true ++ "Result".

Definition emptyLocals : Locals.t := Locals.mk [] [] JsMap.empty JsMap.empty.

(** The two expressions [processArg] splits into two fixed parameters. *)
Definition hasFixedSplit (arg : Member) : bool :=
  Js.isStr (expression (type arg)) "[string]|[path]"
  || Js.isStr (expression (type arg)) "[boolean]|[Array]<[string]>".

(** The name under which [processArg] renders an ordinary parameter. *)
Definition argumentName (arg : Member) : string :=
  toArgumentName (Js.orElse (alias arg) (mname arg)).

Definition timeoutParam (req : bool) (sp : option MarkdownNodes) : Member :=
  param "timeout" (simpleType "decimal") req sp.

Definition optionsParam (props : list Member) : Member :=
  param "options" (objectType None props) false None.

(** The expression of the string-to-string dictionary, which [renderMethod]
    leaves to [translateType]. *)
Definition stringDictionary : string := "[Object]<[string], [string]>".

Definition eventMember (n : string) (t : Type_) : Member :=
  mkMember KEvent n None t true false [] None (Some "Page").

(** The words of an enum literal. *)
Definition literalWords (literal : string) : list string :=
  Js.splitSpaces (Js.dashesToSpaces (Js.removeQuotes literal)).

(** What the invariant proofs ask of a naming callback: on an Object node
    with properties it keeps the invariant. *)
Definition keepsInv (Inv : State -> Prop) (cb : Type_ -> M string) : Prop :=
  forall t s r s', isObjectWithProperties t = true -> Inv s ->
                   cb t s = Ok r s' -> Inv s'.

(** Concatenation of output lines. *)
Infix "+++" := (@app string) (right associativity, at level 60).

(** * Properties *)

(** ** Registries *)

Lemma get_set_same {V} (k : string) (v : V) (m : JsMap.t V) :
  JsMap.get k (JsMap.set k v m) = Some v.
Proof.
  induction m as [|[k' v'] m IH]; simpl.
  - now rewrite String.eqb_refl.
  - destruct (String.eqb k k') eqn:E; simpl; rewrite E; auto.
Qed.

Lemma get_set_other {V} (k k' : string) (v : V) (m : JsMap.t V) :
  k' <> k -> JsMap.get k' (JsMap.set k v m) = JsMap.get k' m.
Proof.
  intros Hne. induction m as [|[k0 v0] m IH]; simpl.
  - apply String.eqb_neq in Hne. now rewrite Hne.
  - destruct (String.eqb k k0) eqn:E; simpl.
    + apply String.eqb_eq in E. subst k0.
      apply String.eqb_neq in Hne. now rewrite Hne.
    + now rewrite IH.
Qed.

Lemma set_set_same {V} (k : string) (v w : V) (m : JsMap.t V) :
  JsMap.set k v (JsMap.set k w m) = JsMap.set k v m.
Proof.
  induction m as [|[k' v'] m IH]; simpl.
  - now rewrite String.eqb_refl.
  - destruct (String.eqb k k') eqn:E; simpl; rewrite E; [reflexivity|].
    now rewrite IH.
Qed.

Lemma keys_set_present {V} (k : string) (v w : V) (m : JsMap.t V) :
  JsMap.get k m = Some w -> JsMap.keys (JsMap.set k v m) = JsMap.keys m.
Proof.
  induction m as [|[k' v'] m IH]; simpl; [discriminate|].
  destruct (String.eqb k k') eqn:E; simpl; [reflexivity|].
  intros H. now rewrite IH.
Qed.

Lemma keys_set_absent {V} (k : string) (v : V) (m : JsMap.t V) :
  JsMap.get k m = None -> JsMap.keys (JsMap.set k v m) = (JsMap.keys m ++ [k])%list.
Proof.
  induction m as [|[k' v'] m IH]; simpl; [reflexivity|].
  destruct (String.eqb k k') eqn:E; simpl; [discriminate|].
  intros H. now rewrite IH.
Qed.

Lemma get_None_not_In {V} (k : string) (m : JsMap.t V) :
  JsMap.get k m = None -> ~ In k (JsMap.keys m).
Proof.
  induction m as [|[k' v'] m IH]; simpl; [tauto|].
  destruct (String.eqb k k') eqn:E; [discriminate|].
  apply String.eqb_neq in E. intros H [H1|H1]; [congruence|]. now apply IH.
Qed.

Lemma set_keeps_NoDup {V} (k : string) (v : V) (m : JsMap.t V) :
  NoDup (JsMap.keys m) -> NoDup (JsMap.keys (JsMap.set k v m)).
Proof.
  intros Hnd. destruct (JsMap.get k m) as [w|] eqn:E.
  - now rewrite (keys_set_present k v w m E).
  - rewrite (keys_set_absent k v m E).
    apply NoDup_rev in Hnd. rewrite <- (rev_involutive (_ ++ _)%list).
    apply NoDup_rev. rewrite rev_app_distr. simpl. constructor; [|assumption].
    rewrite <- in_rev. now apply get_None_not_In.
Qed.

(** ** [translateType] on unions *)

(** The two-variant union with a leading null marker is translated as its
    second variant, whatever that variant is, unless the union carries one of
    the two expressions tested first. *)
Lemma translateType_nullable (X : Externals) (type x nullT : Type_)
    (parent : Parent) (cb : Type_ -> M string) (s : State) :
  union type = Some [nullT; x] ->
  name nullT = "null" ->
  Js.isStr (expression type) "[null]|[Error]" = false ->
  Js.isStr (expression type) booleanOrMixed = false ->
  translateType X type parent cb s = translateType X x parent cb s.
Proof.
  intros Hu Hn H1 H2.
  destruct type as [n e u t a r p]. cbn [union expression] in Hu, H1, H2.
  subst u. cbn [translateType expression union].
  rewrite H1, H2. cbn [bind defined nth_error ret].
  rewrite Hn. reflexivity.
Qed.

Lemma translateType_remaining (X : Externals) (type : Type_)
    (u : list Type_) (parent : Parent) (cb : Type_ -> M string) (s : State) :
  union type = Some u ->
  isRemainingUnion type = true ->
  translateType X type parent cb s =
    if Js.truthy (name type)
    then Ok (Some (name type)) (withEnumType (name type) (map name u) s)
    else Ok None s.
Proof.
  intros Hu Hr. unfold isRemainingUnion in Hr. rewrite Hu in Hr.
  destruct u as [|u0 r]; [discriminate|].
  apply andb_prop in Hr. destruct Hr as [Hr Ha].
  apply andb_prop in Hr. destruct Hr as [He Hn].
  apply negb_true_iff in He, Hn. unfold hasFixedExpression in He.
  repeat (apply orb_false_elim in He; destruct He as [He ?]).
  destruct (isArrayOfFirstVariant (u0 :: r)) as [[|]|] eqn:Harr; try discriminate.
  destruct type as [n e u t a rt p]. cbn [union expression name] in *. subst u.
  cbn [translateType expression union name].
  rewrite He, H3. cbn [bind defined nth_error ret].
  replace (String.eqb (name u0) "null" && Nat.eqb (List.length (u0 :: r)) 2) with false.
  2:{ symmetry. destruct r as [|u1 [|u2 r]].
      - apply andb_false_r.
      - cbn [isNullableShape] in Hn. now rewrite Hn.
      - apply andb_false_r. }
  rewrite H2, H1, H0. cbn [orb]. rewrite Harr. cbn [bind defined ret]. rewrite H.
  destruct (Js.truthy n); reflexivity.
Qed.

Lemma translateType_named_union (X : Externals) (type : Type_)
    (u : list Type_) (parent : Parent) (cb : Type_ -> M string) :
  union type = Some u ->
  isRemainingUnion type = true ->
  name type <> EmptyString ->
  forall s, translateType X type parent cb s =
    Ok (Some (name type)) (withEnumType (name type) (map name u) s).
Proof.
  intros Hu Hr Hn s. rewrite (translateType_remaining X type u parent cb s Hu Hr).
  destruct (name type); [congruence | reflexivity].
Qed.

(** C1, as amended: a union that no fixed expression and no fixed shape
    claims is translated to its declared name, after the names of its
    variants are registered under that name in the enum registry, exactly
    when that declared name is not empty, whatever its variants are; when the
    name is empty the result is null and nothing is registered. *)
Theorem remaining_union_translated_by_name (X : Externals) (type : Type_)
    (u : list Type_) (parent : Parent) (cb : Type_ -> M string) (s : State) :
  union type = Some u ->
  isRemainingUnion type = true ->
  (name type <> EmptyString ->
   translateType X type parent cb s =
     Ok (Some (name type)) (withEnumType (name type) (map name u) s))
  /\ (name type = EmptyString -> translateType X type parent cb s = Ok None s).
Proof.
  intros Hu Hr. rewrite (translateType_remaining X type u parent cb s Hu Hr).
  split; intros Hn.
  - destruct (name type); [congruence | reflexivity].
  - now rewrite Hn.
Qed.

Lemma remaining_union_translated_by_name_witness :
  translateType plainExternals colorScheme page defaultNameCallback initialState
  = Ok (Some "ColorScheme")
       (withEnumType "ColorScheme" [Js.quoted "light"; Js.quoted "dark"]
                     initialState).
Proof.
  apply (remaining_union_translated_by_name plainExternals colorScheme
           [simpleType (Js.quoted "light"); simpleType (Js.quoted "dark")]
           page defaultNameCallback initialState).
  - reflexivity.
  - reflexivity.
  - discriminate.
Defined.

(** C1 as stated fails in both directions: a named union of two non-literal
    variants is registered and translated to its name, and an unnamed union
    of quoted literals is translated to null. *)
Lemma union_literal_test_fails :
  (isRemainingUnion sizeUnion = true
   /\ isLiteralUnion [simpleType "int"; simpleType "boolean"] = false
   /\ translateType plainExternals sizeUnion page defaultNameCallback
        initialState
      = Ok (Some "Size") (withEnumType "Size" ["int"; "boolean"] initialState))
  /\ (isRemainingUnion unnamedLiterals = true
      /\ isLiteralUnion
           [simpleType (Js.quoted "a"); simpleType (Js.quoted "b")] = true
      /\ translateType plainExternals unnamedLiterals page defaultNameCallback
           initialState
         = Ok None initialState).
Proof. repeat split; reflexivity. Qed.

(** ** Literal unions and the enum registry *)

Lemma removeQuotes_app (a b : string) :
  Js.removeQuotes (a ++ b) = Js.removeQuotes a ++ Js.removeQuotes b.
Proof.
  induction a as [|c a IH]; simpl; [reflexivity|].
  destruct (Ascii.eqb c (ascii_of_nat 34)); simpl; now rewrite IH.
Qed.

Lemma append_empty_r (a : string) : a ++ EmptyString = a.
Proof. induction a as [|c a IH]; simpl; [reflexivity | now rewrite IH]. Qed.

Lemma removeQuotes_unquoted (w : string) :
  Js.includes w Js.dq = false -> Js.removeQuotes w = w.
Proof.
  induction w as [|c w IH]; simpl; [reflexivity|].
  intros H. apply orb_false_elim in H. destruct H as [Hc Hw].
  destruct (Ascii.eqb c (ascii_of_nat 34)) eqn:E.
  - apply Ascii.eqb_eq in E. subst c. simpl in Hc.
    destruct w; discriminate.
  - now rewrite IH.
Qed.

Lemma removeQuotes_quoted (w : string) :
  Js.includes w Js.dq = false -> Js.removeQuotes (Js.quoted w) = w.
Proof.
  intros H. unfold Js.quoted. rewrite !removeQuotes_app.
  rewrite (removeQuotes_unquoted w H). simpl. apply append_empty_r.
Qed.

Lemma renderEnumLiterals_values (literals body : list string) :
  renderEnumLiterals literals = Some body ->
  everyOther body = map (fun l => enumMemberLine (Js.removeQuotes l)) literals.
Proof.
  revert body. induction literals as [|l r IH]; intros body H.
  - injection H as <-. reflexivity.
  - cbn [renderEnumLiterals] in H.
    destruct (includesNull _); [discriminate|].
    destruct (renderEnumLiterals r) as [b|]; [|discriminate].
    injection H as <-. cbn [everyOther map]. now rewrite (IH b eq_refl).
Qed.

(** C3, as amended: translating a union with a declared name that reaches
    the last rule for unions sets, under that name, the names of all its
    variants as declared and in declared order (a leading null marker
    included, the quotes kept); translating it again changes nothing and adds
    no key; and when the variants are the quoted literals [ws], the values
    [renderEnum] emits are exactly [ws], without the quotes, in that order. *)
Theorem enum_registration_idempotent (X : Externals) (type : Type_)
    (u : list Type_) (parent : Parent) (cb : Type_ -> M string) (s : State) :
  union type = Some u ->
  isRemainingUnion type = true ->
  name type <> EmptyString ->
  let s1 := withEnumType (name type) (map name u) s in
  translateType X type parent cb s = Ok (Some (name type)) s1
  /\ JsMap.get (name type) (enumTypes s1) = Some (map name u)
  /\ translateType X type parent cb s1 = Ok (Some (name type)) s1
  /\ (NoDup (JsMap.keys (enumTypes s)) -> NoDup (JsMap.keys (enumTypes s1)))
  /\ (forall ws body,
        map name u = map Js.quoted ws ->
        Forall (fun w => Js.includes w Js.dq = false) ws ->
        renderEnum (map name u) = Some body ->
        everyOther (tl body) = map enumMemberLine ws).
Proof.
  intros Hu Hr Hn s1.
  pose proof (translateType_named_union X type u parent cb Hu Hr Hn) as H1.
  repeat split.
  - apply H1.
  - apply get_set_same.
  - rewrite H1. unfold s1, withEnumType. cbn [modelTypes documentedResults enumTypes].
    now rewrite set_set_same.
  - apply set_keeps_NoDup.
  - intros ws body Hq Hws Hb. unfold renderEnum in Hb.
    destruct (renderEnumLiterals (map name u)) as [b|] eqn:E; [|discriminate].
    injection Hb as <-. cbn [tl]. rewrite (renderEnumLiterals_values _ _ E).
    rewrite Hq, map_map. clear -Hws.
    induction Hws as [|w ws Hw _ IH]; [reflexivity|].
    cbn [map]. now rewrite IH, (removeQuotes_quoted w Hw).
Qed.

Lemma enum_registration_idempotent_witness :
  let s1 := withEnumType "ColorScheme" [Js.quoted "light"; Js.quoted "dark"]
                         initialState in
  translateType plainExternals colorScheme page defaultNameCallback initialState
  = Ok (Some "ColorScheme") s1
  /\ translateType plainExternals colorScheme page defaultNameCallback s1
     = Ok (Some "ColorScheme") s1
  /\ forall body,
       renderEnum [Js.quoted "light"; Js.quoted "dark"] = Some body ->
       everyOther (tl body) = map enumMemberLine ["light"; "dark"].
Proof.
  destruct (enum_registration_idempotent plainExternals colorScheme
              [simpleType (Js.quoted "light"); simpleType (Js.quoted "dark")]
              page defaultNameCallback initialState
              eq_refl eq_refl ltac:(discriminate))
    as (H1 & _ & H3 & _ & H5).
  split; [exact H1 | split; [exact H3 |]].
  intros body Hb. apply (H5 ["light"; "dark"] body eq_refl); [|exact Hb].
  repeat constructor.
Defined.

(** C3 as stated fails: the two-variant union of a null marker and one quoted
    literal is unwrapped, so translating it registers nothing under its
    name; and with more variants the null marker is registered among the
    literals, which are stored with their quotes. *)
Lemma nullable_literal_union_unregistered :
  (isLiteralUnion [simpleType "null"; simpleType (Js.quoted "print")] = true
   /\ translateType plainExternals nullableLiteral page defaultNameCallback
        initialState
      = Ok (Some (Js.quoted "print")) initialState
   /\ JsMap.get "Media" (enumTypes initialState) = None)
  /\ (exists s1,
        translateType plainExternals nullableLiterals page defaultNameCallback
          initialState = Ok (Some "Media") s1
        /\ JsMap.get "Media" (enumTypes s1)
           = Some ["null"; Js.quoted "screen"; Js.quoted "print"]
        /\ JsMap.get "Media" (enumTypes s1) <> Some ["screen"; "print"]).
Proof.
  split; [repeat split; reflexivity|].
  eexists. split; [reflexivity|]. split; [reflexivity | discriminate].
Qed.

(** ** Null unwrapping *)

(** C5, as amended: unless the union carries one of the two canonical
    expressions that are tested before anything else, translating the
    two-variant union of the null marker and [x] is translating [x]: same
    result, same registries, same failure. *)
Theorem null_unwrap_translation (X : Externals) (type x nullT : Type_)
    (parent : Parent) (cb : Type_ -> M string) (s : State) :
  union type = Some [nullT; x] ->
  name nullT = "null" ->
  Js.isStr (expression type) "[null]|[Error]" = false ->
  Js.isStr (expression type) booleanOrMixed = false ->
  translateType X type parent cb s = translateType X x parent cb s.
Proof. apply translateType_nullable. Qed.

Lemma null_unwrap_translation_witness :
  translateType plainExternals nullOrString page defaultNameCallback initialState
  = translateType plainExternals (simpleType "string") page defaultNameCallback
      initialState.
Proof.
  apply (null_unwrap_translation plainExternals nullOrString
           (simpleType "string") (simpleType "null"));
    reflexivity.
Defined.

(** C5 as stated fails at the non-union type Error: the union of the null
    marker and Error, with its canonical expression, is the void marker,
    while Error alone is the exception type. *)
Lemma null_or_error_is_void :
  union nullOrError = Some [simpleType "null"; simpleType "Error"]
  /\ translateType plainExternals nullOrError page defaultNameCallback
       initialState = Ok (Some "void") initialState
  /\ translateType plainExternals (simpleType "Error") page defaultNameCallback
       initialState = Ok (Some "Exception") initialState.
Proof. repeat split; reflexivity. Qed.

(** ** Arrays *)

(** C6, as amended: on an Array node (no union, neither of the two
    expressions tested first), a template list that does not have exactly one
    element, the empty one included, is the dimension error; with exactly one
    template the node is translated as its element is: the sequence wrapper
    around the element's translation when that succeeds, the element's own
    failure otherwise. *)
Theorem array_translation (X : Externals) (type : Type_) (parent : Parent)
    (cb : Type_ -> M string) (s : State) :
  name type = "Array" ->
  union type = None ->
  Js.isStr (expression type) "[null]|[Error]" = false ->
  Js.isStr (expression type) booleanOrMixed = false ->
  (forall ts, templates type = Some ts -> List.length ts <> 1 ->
     translateType X type parent cb s
     = Throw (ArrayDimensionError "Array" (parentName parent)))
  /\ (forall t0, templates type = Some [t0] ->
        translateType X type parent cb s
        = match translateType X t0 parent cb s with
          | Ok inner s' => Ok (Some ("IEnumerable<" ++ Js.show inner ++ ">")) s'
          | Throw e => Throw e
          end).
Proof.
  intros Hn Hu H1 H2.
  destruct type as [n e u t a r p]. cbn [name union expression templates] in *.
  subst n u. split.
  - intros ts Ht Hlen. subst t. cbn [translateType expression union name templates].
    rewrite H1, H2. cbn [String.eqb Ascii.eqb Bool.eqb].
    destruct ts as [|t0 [|t1 ts]]; cbn in Hlen; try reflexivity. lia.
  - intros t0 Ht. subst t. cbn [translateType expression union name templates].
    rewrite H1, H2. cbn [String.eqb Ascii.eqb Bool.eqb]. unfold bind at 1.
    destruct (translateType X t0 parent cb s); reflexivity.
Qed.

Lemma array_translation_witness :
  translateType plainExternals arrayOfStrings page defaultNameCallback
    initialState = Ok (Some "IEnumerable<string>") initialState
  /\ translateType plainExternals (arrayType []) page defaultNameCallback
       initialState = Throw (ArrayDimensionError "Array" "Page").
Proof.
  destruct (array_translation plainExternals arrayOfStrings page
              defaultNameCallback initialState eq_refl eq_refl eq_refl eq_refl)
    as [_ H].
  destruct (array_translation plainExternals (arrayType []) page
              defaultNameCallback initialState eq_refl eq_refl eq_refl eq_refl)
    as [H0 _].
  split.
  - rewrite (H (simpleType "string") eq_refl). reflexivity.
  - apply (H0 [] eq_refl). discriminate.
Defined.

(** C6 as stated fails: an Array node with exactly one template parameter
    fails when the translation of that parameter fails, and an Array node
    with an empty template list fails with the dimension error though it does
    not have more than one parameter. *)
Lemma array_of_bad_element_fails :
  (templates arrayOfBadArray
   = Some [arrayType [simpleType "string"; simpleType "int"]]
   /\ translateType plainExternals arrayOfBadArray page defaultNameCallback
        initialState = Throw (ArrayDimensionError "Array" "Page"))
  /\ (templates (arrayType []) = Some []
      /\ translateType plainExternals (arrayType []) page defaultNameCallback
           initialState = Throw (ArrayDimensionError "Array" "Page")).
Proof. repeat split; reflexivity. Qed.

(** ** Methods without arguments *)

Lemma isStr_neq (o : option string) (lit : string) :
  o <> Some lit -> Js.isStr o lit = false.
Proof.
  destruct o as [x|]; [|reflexivity]. intros H. simpl.
  apply String.eqb_neq. congruence.
Qed.

(** C7: a method without arguments whose return type is translated to
    something else than void is rendered, when it is synchronous and its name
    starts with neither Get nor As, as the one line of a read-only property
    (after its documentation); when it is asynchronous it is rendered as a
    method signature whose return type is the translated type inside Task,
    never as a property. *)
Theorem renderMethod_without_arguments (X : Externals) (member : Member)
    (parent : Parent) (name_ : string) (s s' : State) (ty : option string) :
  argsArray member = [] ->
  methodReturnType X member parent s = Ok ty s' ->
  ty <> Some "void" ->
  (async member = false ->
   Js.startsWith name_ "Get" = false ->
   Js.startsWith name_ "As" = false ->
   renderMethod X member parent name_ s
   = Ok (memberDocs X member +++ [Js.show ty ++ " " ++ name_ ++ " { get; }"])
        s')
  /\ (async member = true ->
      let name' := genericName ty name_ in
      renderMethod X member parent name_ s
      = Ok (renderXmlDoc X (spec member)
            +++ (if takesWaitForAction name'
                 then printArgDoc "action" ["Action to perform while waiting"]
                 else [])
            +++ [signature (Some ("Task<" ++ Js.show ty ++ ">")) name'
                   (if takesWaitForAction name'
                    then ["Func<Task> action = default"] else [])])
           s').
Proof.
  intros Hargs Hret Hvoid. apply isStr_neq in Hvoid.
  split.
  - intros Hasync HGet HAs. unfold renderMethod, bind. rewrite Hret, Hargs.
    cbn [List.length Nat.eqb andb]. rewrite Hvoid, HGet, HAs, Hasync.
    reflexivity.
  - intros Hasync name'. unfold renderMethod, bind. rewrite Hret, Hargs.
    rewrite Hasync, Hvoid, !andb_false_r.
    fold (genericName ty name_). fold name'.
    cbn [sortArgs existsb foldM ret].
    unfold addWaitForAction. fold (takesWaitForAction name').
    destruct (takesWaitForAction name'); reflexivity.
Qed.

Lemma renderMethod_without_arguments_witness :
  renderMethod plainExternals (titleMethod false) page "Title" initialState
  = Ok ["/// The page title."; "string Title { get; }"] initialState
  /\ renderMethod plainExternals (titleMethod true) page "TitleAsync"
       initialState
     = Ok ["/// The page title."; "Task<string> TitleAsync();"] initialState.
Proof.
  split.
  - apply (renderMethod_without_arguments plainExternals (titleMethod false)
             page "Title" initialState initialState (Some "string"));
      try reflexivity. discriminate.
  - apply (renderMethod_without_arguments plainExternals (titleMethod true)
             page "TitleAsync" initialState initialState (Some "string"));
      try reflexivity. discriminate.
Defined.

(** ** Union parameters *)

(** C2, as amended: a method whose rendered name does not take the action
    parameter of the WaitFor block, with a required parameter id of type
    string and a parameter value whose type is the union of string and
    number, is rendered as one overload per variant, in the order of the
    variants: (id, valueString) and (id, valueNumber), separated by a blank
    line; when value is required nothing follows, and when value is optional
    exactly one more overload follows, with id alone. *)
Theorem renderMethod_union_explosion (X : Externals) (member : Member)
    (parent : Parent) (name_ : string) (s s' : State) (ty : option string)
    (req : bool) (idSpec valueSpec : option MarkdownNodes) :
  argsArray member = [idParam idSpec; valueParam req valueSpec] ->
  methodReturnType X member parent s = Ok ty s' ->
  JsMap.get "string" (classNameMap X) = None ->
  JsMap.get "number" (classNameMap X) = None ->
  takesWaitForAction (genericName ty name_) = false ->
  let name' := genericName ty name_ in
  let type' := asyncType member ty in
  let docs := renderXmlDoc X (spec member) in
  let idDoc := printArgDoc "id" (renderTextOnly X idSpec) in
  let valueDoc := fun n => printArgDoc n (renderTextOnly X valueSpec) in
  renderMethod X member parent name_ s
  = Ok (docs +++ idDoc +++ valueDoc "valueString"
        +++ [signature type' name' ["string id"; "string valueString"]]
        +++ [EmptyString]
        +++ docs +++ idDoc +++ valueDoc "valueNumber"
        +++ [signature type' name' ["string id"; "number valueNumber"]]
        +++ (if req then []
             else docs +++ idDoc +++ [signature type' name' ["string id"]]))
       s'.
Proof.
  intros Hargs Hret Hstr Hnum Hwait. cbv zeta.
  unfold renderMethod, bind. rewrite Hret, Hargs.
  cbn [List.length Nat.eqb andb].
  fold (genericName ty name_). fold (asyncType member ty).
  assert (Hfold :
    foldM (fun L arg => processArg X member parent arg L)
      (sortArgs X [idParam idSpec; valueParam req valueSpec])
      (Locals.mk [] [] JsMap.empty JsMap.empty) s'
    = Ok (Locals.mk
            ["string id";
             if req then "EXPLODED_ARG" else "OPTIONAL_EXPLODED_ARG"]
            ["string valueString"; "number valueNumber"]
            [("string id", "id"); ("string valueString", "valueString");
             ("number valueNumber", "valueNumber")]
            [("id", renderTextOnly X idSpec);
             ("valueString", renderTextOnly X valueSpec);
             ("valueNumber", renderTextOnly X valueSpec)]) s').
  { destruct req.
    all: cbv - [JsMap.get classNameMap renderTextOnly]; rewrite Hstr.
    all: cbv - [JsMap.get classNameMap renderTextOnly]; rewrite Hnum.
    all: cbv - [renderTextOnly]; reflexivity. }
  rewrite Hfold. unfold addWaitForAction. fold (takesWaitForAction (genericName ty name_)).
  rewrite Hwait. unfold ret at 1. cbn [Locals.explodedArgs].
  destruct req;
    cbv - [renderXmlDoc renderTextOnly signature printArgDoc asyncType
           genericName spec mname app];
    repeat rewrite <- app_assoc; reflexivity.
Qed.

Lemma renderMethod_union_explosion_witness :
  renderMethod plainExternals (setValueMethod true) page "SetValue" initialState
  = Ok ["/// Sets the value.";
        "/// <param name=" ++ Js.quoted "id" ++ ">The id.</param>";
        "/// <param name=" ++ Js.quoted "valueString" ++ ">The value.</param>";
        "void SetValue(string id, string valueString);";
        EmptyString;
        "/// Sets the value.";
        "/// <param name=" ++ Js.quoted "id" ++ ">The id.</param>";
        "/// <param name=" ++ Js.quoted "valueNumber" ++ ">The value.</param>";
        "void SetValue(string id, number valueNumber);"]
       initialState
  /\ renderMethod plainExternals (setValueMethod false) page "SetValue"
       initialState
     = Ok ["/// Sets the value.";
           "/// <param name=" ++ Js.quoted "id" ++ ">The id.</param>";
           "/// <param name=" ++ Js.quoted "valueString" ++ ">The value.</param>";
           "void SetValue(string id, string valueString);";
           EmptyString;
           "/// Sets the value.";
           "/// <param name=" ++ Js.quoted "id" ++ ">The id.</param>";
           "/// <param name=" ++ Js.quoted "valueNumber" ++ ">The value.</param>";
           "void SetValue(string id, number valueNumber);";
           "/// Sets the value.";
           "/// <param name=" ++ Js.quoted "id" ++ ">The id.</param>";
           "void SetValue(string id);"]
          initialState.
Proof.
  split.
  - apply (renderMethod_union_explosion plainExternals (setValueMethod true)
             page "SetValue" initialState initialState (Some "void") true
             (Some ["The id."]) (Some ["The value."]));
      reflexivity.
  - apply (renderMethod_union_explosion plainExternals (setValueMethod false)
             page "SetValue" initialState initialState (Some "void") false
             (Some ["The id."]) (Some ["The value."]));
      reflexivity.
Defined.

(** C2 as stated fails at a method whose name takes the action parameter of
    the WaitFor block: with the same two parameters, id required and value
    the union of string and number, every overload carries the action
    parameter between id and the variant of value, and the overload that
    follows when value is optional is (id, action), not id alone. *)
Lemma waitFor_union_overloads_carry_action :
  takesWaitForAction "WaitForValueAsync" = true
  /\ argsArray (waitForValueMethod true)
     = [idParam (Some ["The id."]); valueParam true (Some ["The value."])]
  /\ argsArray (waitForValueMethod false)
     = [idParam (Some ["The id."]); valueParam false (Some ["The value."])]
  /\ renderMethod plainExternals (waitForValueMethod true) page
       "WaitForValueAsync" initialState
     = Ok ["/// Waits for the value.";
           "/// <param name=" ++ Js.quoted "id" ++ ">The id.</param>";
           "/// <param name=" ++ Js.quoted "action"
             ++ ">Action to perform while waiting</param>";
           "/// <param name=" ++ Js.quoted "valueString" ++ ">The value.</param>";
           "Task WaitForValueAsync(string id, Func<Task> action = default, string valueString);";
           EmptyString;
           "/// Waits for the value.";
           "/// <param name=" ++ Js.quoted "id" ++ ">The id.</param>";
           "/// <param name=" ++ Js.quoted "action"
             ++ ">Action to perform while waiting</param>";
           "/// <param name=" ++ Js.quoted "valueNumber" ++ ">The value.</param>";
           "Task WaitForValueAsync(string id, Func<Task> action = default, number valueNumber);"]
          initialState
  /\ renderMethod plainExternals (waitForValueMethod false) page
       "WaitForValueAsync" initialState
     = Ok ["/// Waits for the value.";
           "/// <param name=" ++ Js.quoted "id" ++ ">The id.</param>";
           "/// <param name=" ++ Js.quoted "action"
             ++ ">Action to perform while waiting</param>";
           "/// <param name=" ++ Js.quoted "valueString" ++ ">The value.</param>";
           "Task WaitForValueAsync(string id, Func<Task> action = default, string valueString);";
           EmptyString;
           "/// Waits for the value.";
           "/// <param name=" ++ Js.quoted "id" ++ ">The id.</param>";
           "/// <param name=" ++ Js.quoted "action"
             ++ ">Action to perform while waiting</param>";
           "/// <param name=" ++ Js.quoted "valueNumber" ++ ">The value.</param>";
           "Task WaitForValueAsync(string id, Func<Task> action = default, number valueNumber);";
           "/// Waits for the value.";
           "/// <param name=" ++ Js.quoted "id" ++ ">The id.</param>";
           "/// <param name=" ++ Js.quoted "action"
             ++ ">Action to perform while waiting</param>";
           "Task WaitForValueAsync(string id, Func<Task> action = default);"]
          initialState.
Proof.
  split; [reflexivity|]. split; [reflexivity|]. split; [reflexivity|].
  split; vm_compute; reflexivity.
Qed.

(** ** The string-or-path shape *)

Lemma string_append_assoc (a b c : string) : (a ++ b) ++ c = a ++ b ++ c.
Proof. induction a as [|x a IH]; simpl; [reflexivity | now rewrite IH]. Qed.

Lemma string_length_append (a b : string) :
  String.length (a ++ b) = String.length a + String.length b.
Proof. induction a as [|x a IH]; simpl; [reflexivity | now rewrite IH]. Qed.

Lemma append_Path_neq (a : string) : a ++ "Path" <> a.
Proof.
  intros H. apply (f_equal String.length) in H.
  rewrite string_length_append in H. simpl in H. lia.
Qed.

Lemma docKey_Path (a : string) : docKey (a ++ "Path") = docKey a ++ "Path".
Proof.
  unfold docKey, Js.startsWith.
  destruct a as [|c r]; [reflexivity|].
  cbn [String.append String.prefix Js.substringFrom].
  destruct (ascii_dec "@" c); [destruct r|]; reflexivity.
Qed.

(** C8: a parameter with the string-or-path expression, whatever its name but
    options (whose properties are flattened instead), is processed into
    exactly two sibling parameters of type string with a null default, the
    parameter's name and that name followed by Path; nothing is added to the
    exploded arguments and no explosion marker is pushed, so no overload is
    generated for it. *)
Theorem processArg_string_or_path (X : Externals) (member : Member)
    (parent : Parent) (arg : Member) (L : Locals.t) (s : State) :
  mname arg <> "options" ->
  expression (type arg) = Some "[string]|[path]" ->
  let argName := toArgumentName (mname arg) in
  let suffix := if required arg then EmptyString else " = default" in
  (spec arg <> None ->
   JsMap.get (docKey argName) (Locals.paramDocs L) = None
   /\ JsMap.get (docKey (argName ++ "Path")) (Locals.paramDocs L) = None) ->
  exists L',
    processArg X member parent arg L s = Ok L' s
    /\ Locals.args L'
       = Locals.args L
         +++ ["string " ++ argName ++ " = null" ++ suffix;
              "string " ++ argName ++ "Path = null" ++ suffix]
    /\ Locals.explodedArgs L' = Locals.explodedArgs L
    /\ isExplodedMarker ("string " ++ argName ++ " = null" ++ suffix) = false
    /\ isExplodedMarker ("string " ++ argName ++ "Path = null" ++ suffix)
       = false.
Proof.
  intros Hname Hexpr argName suffix Hdocs.
  assert (Hpush : forall n,
            Js.show (Some "string") ++ EmptyString ++ " " ++ (argName ++ n) ++ suffix
            = "string " ++ argName ++ n ++ suffix).
  { intros n. cbn [Js.show String.append]. now rewrite string_append_assoc. }
  destruct arg as [k n a t r asy aa sp cl].
  cbn [mname type required spec] in *.
  apply String.eqb_neq in Hname.
  cbn [processArg mname type]. rewrite Hname, Hexpr.
  cbn [Js.isStr]. rewrite String.eqb_refl.
  fold argName. unfold pushArg.
  cbn [required Js.includesStr nullableTypes existsb String.eqb Ascii.eqb
       Bool.eqb orb Locals.args Locals.explodedArgs Locals.argTypeMap
       Locals.paramDocs].
  replace (if r || false then EmptyString else EmptyString) with EmptyString
    by (destruct r; reflexivity).
  replace (if r || false then EmptyString else " = default") with suffix
    by (unfold suffix; destruct r; reflexivity).
  rewrite !Hpush. rewrite <- app_assoc. cbn [app].
  destruct sp as [sp|].
  - destruct Hdocs as [Hd1 Hd2]; [discriminate|].
    unfold bind, addParamsDoc. fold (docKey argName).
    cbn [Locals.paramDocs Locals.args Locals.explodedArgs Locals.argTypeMap].
    rewrite Hd1. cbn [ret spec]. fold (docKey (argName ++ "Path")).
    cbn [Locals.paramDocs Locals.args Locals.explodedArgs Locals.argTypeMap].
    rewrite get_set_other, Hd2.
    + eexists. split; [reflexivity|]. repeat split.
    + rewrite docKey_Path. apply append_Path_neq.
  - eexists. split; [reflexivity|]. repeat split.
Qed.

Lemma processArg_string_or_path_witness :
  exists L',
    processArg plainExternals addScriptMethod page
      (param "script" stringOrPath true (Some ["The script."]))
      (Locals.mk [] [] JsMap.empty JsMap.empty) initialState
    = Ok L' initialState
    /\ Locals.args L' = ["string script = null"; "string scriptPath = null"]
    /\ Locals.explodedArgs L' = [].
Proof.
  destruct (processArg_string_or_path plainExternals addScriptMethod page
              (param "script" stringOrPath true (Some ["The script."]))
              (Locals.mk [] [] JsMap.empty JsMap.empty) initialState)
    as (L' & H1 & H2 & H3 & _).
  - discriminate.
  - reflexivity.
  - intros _. split; reflexivity.
  - exists L'. split; [exact H1|]. split; [exact H2 | exact H3].
Defined.

(** The whole method: one signature, with the two sibling parameters. *)
Example renderMember_addScript :
  renderMember plainExternals addScriptMethod page initialState
  = Ok ["/// Adds a script.";
        "/// <param name=" ++ Js.quoted "script" ++ ">The script.</param>";
        "/// <param name=" ++ Js.quoted "scriptPath"
          ++ ">Instead of specifying <paramref name=" ++ Js.quoted "script"
          ++ "/>, gives the file name to load from.</param>";
        "void AddScript(string script = null, string scriptPath = null);";
        EmptyString]
       initialState.
Proof. reflexivity. Qed.

(** ** Structural equality *)

Lemma option_eqb_sound {A} (f : A -> A -> bool) (o : option A) :
  option_all A (fun a => forall b, f a b = true -> a = b) o ->
  forall o', option_eqb f o o' = true -> o = o'.
Proof.
  intros Hall o' H. destruct Hall as [a Ha|]; destruct o' as [b|];
    simpl in H; try discriminate; [|reflexivity].
  now rewrite (Ha b H).
Qed.

Lemma list_eqb_sound {A} (f : A -> A -> bool) (l : list A) :
  list_all A (fun a => forall b, f a b = true -> a = b) l ->
  forall l', list_eqb f l l' = true -> l = l'.
Proof.
  intros Hall. induction Hall as [|a Ha l Hl IH]; intros [|b l'] H;
    simpl in H; try discriminate; [reflexivity|].
  apply andb_prop in H. destruct H as [H1 H2].
  now rewrite (Ha b H1), (IH l' H2).
Qed.

Lemma option_all_total {A} (P : A -> Prop) (o : option A) :
  (forall a, P a) -> option_all A P o.
Proof. intros H. destruct o; constructor; auto. Qed.

Lemma list_all_total {A} (P : A -> Prop) (l : list A) :
  (forall a, P a) -> list_all A P l.
Proof. intros H. induction l; constructor; auto. Qed.

Lemma string_eqb_sound (a b : string) : String.eqb a b = true -> a = b.
Proof. apply String.eqb_eq. Qed.

Lemma Kind_eqb_sound (a b : Kind) : Kind_eqb a b = true -> a = b.
Proof. destruct a, b; simpl; congruence. Qed.

Lemma Type_Member_eqb_sound :
  (forall a b, Type_eqb a b = true -> a = b)
  /\ (forall m m', Member_eqb m m' = true -> m = m').
Proof.
  apply Type_Member_ind.
  - intros n e u Hu t Ht a Ha r Hr p Hp [n' e' u' t' a' r' p'] H.
    cbn [Type_eqb name expression union templates args returnType properties] in H.
    repeat (apply andb_prop in H; destruct H as [H ?]).
    apply String.eqb_eq in H.
    f_equal; auto.
    + apply (option_eqb_sound String.eqb); auto.
      apply option_all_total. exact string_eqb_sound.
    + apply (option_eqb_sound (list_eqb Type_eqb)); auto.
      destruct Hu; constructor. now apply list_eqb_sound.
    + apply (option_eqb_sound (list_eqb Type_eqb)); auto.
      destruct Ht; constructor. now apply list_eqb_sound.
    + apply (option_eqb_sound (list_eqb Type_eqb)); auto.
      destruct Ha; constructor. now apply list_eqb_sound.
    + apply (option_eqb_sound Type_eqb); auto.
    + apply (option_eqb_sound (list_eqb Member_eqb)); auto.
      destruct Hp; constructor. now apply list_eqb_sound.
  - intros k n a t Ht r asy aa Haa sp cl [k' n' a' t' r' asy' aa' sp' cl'] H.
    cbn [Member_eqb kind mname alias type required async argsArray spec clazz] in H.
    repeat (apply andb_prop in H; destruct H as [H ?]).
    f_equal; auto.
    + now apply Kind_eqb_sound.
    + now apply String.eqb_eq.
    + apply (option_eqb_sound String.eqb); auto.
      apply option_all_total. exact string_eqb_sound.
    + now apply Bool.eqb_prop.
    + now apply Bool.eqb_prop.
    + now apply (list_eqb_sound Member_eqb).
    + apply (option_eqb_sound (list_eqb String.eqb)); auto.
      apply option_all_total. intros l. apply list_eqb_sound.
      apply list_all_total. exact string_eqb_sound.
    + apply (option_eqb_sound String.eqb); auto.
      apply option_all_total. exact string_eqb_sound.
Qed.

Lemma JSON_stringify_differ_neq (p q : option (list Member)) :
  p <> q -> JSON_stringify_differ p q = true.
Proof.
  intros Hne. unfold JSON_stringify_differ. apply negb_true_iff.
  destruct (option_eqb (list_eqb Member_eqb) p q) eqn:E; [|reflexivity].
  exfalso. apply Hne. revert E.
  apply (option_eqb_sound (list_eqb Member_eqb)).
  apply option_all_total. intros l. apply list_eqb_sound.
  apply list_all_total. exact (proj2 Type_Member_eqb_sound).
Qed.

(** ** The name synthesizer *)

Lemma generateNameLoop_free (names : list string) (a : string) (t : Type_)
    (s : State) :
  JsMap.get (normalizeAttempt a) (modelTypes s) = None ->
  normalizeAttempt a <> "Value" ->
  generateNameLoop names a t s
  = Ok (normalizeAttempt a) (withModelType (normalizeAttempt a) t s).
Proof.
  intros Hget Hval. apply String.eqb_neq in Hval.
  destruct names; cbn [generateNameLoop]; unfold bind, getModelTypes;
    rewrite Hget; cbn [orb Js.includesStr existsb]; rewrite Hval; reflexivity.
Qed.

Lemma generateNameLoop_conflict (n : string) (names : list string)
    (a : string) (t p : Type_) (s : State) :
  JsMap.get (normalizeAttempt a) (modelTypes s) = Some p ->
  typesDiffer t p = true ->
  generateNameLoop (n :: names) a t s
  = generateNameLoop names (n ++ normalizeAttempt a) t s.
Proof.
  intros Hget Hdiff. cbn [generateNameLoop]. unfold bind at 1, getModelTypes.
  rewrite Hget, Hdiff. reflexivity.
Qed.

Lemma generateNameLoop_reserved (n : string) (names : list string)
    (a : string) (t : Type_) (s : State) :
  normalizeAttempt a = "Value" ->
  generateNameLoop (n :: names) a t s
  = generateNameLoop names (n ++ "Value") t s.
Proof.
  intros Hval. cbn [generateNameLoop]. unfold bind at 1, getModelTypes.
  rewrite Hval. cbn [Js.includesStr existsb String.eqb Ascii.eqb Bool.eqb].
  rewrite orb_true_r. reflexivity.
Qed.

Lemma nameChain_stack (member : Member) (name_ : string) (parent : Parent) :
  exists rest,
    rev (removelast (nameChain member name_ parent))
    = last (removelast (nameChain member name_ parent)) EmptyString :: rest.
Proof.
  unfold nameChain. cbn [nth].
  destruct (String.eqb _ _); eexists; reflexivity.
Qed.

Lemma generateNameDefault_object (member : Member) (name_ : string)
    (t : Type_) (parent : Parent) :
  isMethodOrProperty member = true ->
  isAnonymousObject t = true ->
  generateNameDefault member name_ t parent
  = generateNameLoop (rev (removelast (nameChain member name_ parent)))
      (last (nameChain member name_ parent) EmptyString) t.
Proof.
  intros Hk Ho. unfold isMethodOrProperty in Hk. unfold isAnonymousObject in Ho.
  unfold generateNameDefault, generateEnumNameIfApplicable.
  destruct (properties t); [|discriminate].
  destruct (union t); [discriminate|].
  cbn [Js.truthyOpt negb].
  destruct (kind member); try discriminate; reflexivity.
Qed.

Lemma typesDiffer_properties (t p : Type_) :
  properties t <> properties p ->
  Js.truthyOpt (expression t) && Js.truthyOpt (expression p) = false ->
  typesDiffer t p = true.
Proof.
  intros Hp He. unfold typesDiffer. rewrite He.
  apply JSON_stringify_differ_neq. congruence.
Qed.

(** The type that comes first takes the candidate, the type that comes second
    and that [typesDiffer] tells from it takes the disambiguated name. *)
Lemma generateNameDefault_first_then_second
    (mA mB : Member) (nA nB : string) (pA pB : Parent) (tA tB : Type_)
    (s : State) (c : string) :
  isMethodOrProperty mA = true -> isMethodOrProperty mB = true ->
  isAnonymousObject tA = true -> isAnonymousObject tB = true ->
  typesDiffer tB tA = true ->
  candidateName mA nA pA = c -> candidateName mB nB pB = c ->
  c <> "Value" ->
  disambiguatedName mB nB pB <> "Value" ->
  disambiguatedName mB nB pB <> c ->
  JsMap.get c (modelTypes s) = None ->
  JsMap.get (disambiguatedName mB nB pB) (modelTypes s) = None ->
  exists s1 s2,
    generateNameDefault mA nA tA pA s = Ok c s1
    /\ generateNameDefault mB nB tB pB s1 = Ok (disambiguatedName mB nB pB) s2
    /\ JsMap.get c (modelTypes s2) = Some tA
    /\ JsMap.get (disambiguatedName mB nB pB) (modelTypes s2) = Some tB.
Proof.
  intros HkA HkB HoA HoB Hdiff HcA HcB Hval HdVal Hdc Hfree HdFree.
  exists (withModelType c tA s).
  exists (withModelType (disambiguatedName mB nB pB) tB (withModelType c tA s)).
  rewrite (generateNameDefault_object mA nA tA pA HkA HoA).
  rewrite (generateNameDefault_object mB nB tB pB HkB HoB).
  unfold candidateName in HcA, HcB.
  repeat split.
  - rewrite generateNameLoop_free; rewrite HcA; auto.
  - destruct (nameChain_stack mB nB pB) as [rest ->].
    rewrite (generateNameLoop_conflict _ _ _ tB tA).
    + unfold disambiguatedName, candidateName in *. rewrite HcB in *.
      rewrite generateNameLoop_free; auto.
      cbn [withModelType modelTypes]. rewrite get_set_other; auto.
    + rewrite HcB. cbn [withModelType modelTypes]. apply get_set_same.
    + exact Hdiff.
  - cbn [withModelType modelTypes]. rewrite get_set_other by auto.
    apply get_set_same.
  - cbn [withModelType modelTypes]. apply get_set_same.
Qed.

(** C4, as amended: two anonymous object types, of members that are methods
    or properties, whose first candidate name is the same and is not the
    reserved Value, and which the synthesizer can tell apart because their
    properties differ and at most one of them carries an expression, are
    named in the order of translation: whichever comes first takes the
    candidate and keeps it in the registry, the other takes its own candidate
    behind the next outer element of its chain.  The registry is assumed to
    hold neither the candidate nor the two longer names. *)
Theorem name_synthesis_order_dependent
    (mA mB : Member) (nA nB : string) (pA pB : Parent) (tA tB : Type_)
    (s : State) (c : string) :
  isMethodOrProperty mA = true -> isMethodOrProperty mB = true ->
  isAnonymousObject tA = true -> isAnonymousObject tB = true ->
  properties tA <> properties tB ->
  Js.truthyOpt (expression tA) && Js.truthyOpt (expression tB) = false ->
  candidateName mA nA pA = c -> candidateName mB nB pB = c ->
  c <> "Value" ->
  let dA := disambiguatedName mA nA pA in
  let dB := disambiguatedName mB nB pB in
  dA <> "Value" -> dB <> "Value" -> dA <> c -> dB <> c ->
  JsMap.get c (modelTypes s) = None ->
  JsMap.get dA (modelTypes s) = None ->
  JsMap.get dB (modelTypes s) = None ->
  (exists s1 s2,
     generateNameDefault mA nA tA pA s = Ok c s1
     /\ generateNameDefault mB nB tB pB s1 = Ok dB s2
     /\ JsMap.get c (modelTypes s2) = Some tA
     /\ JsMap.get dB (modelTypes s2) = Some tB)
  /\ (exists s1 s2,
        generateNameDefault mB nB tB pB s = Ok c s1
        /\ generateNameDefault mA nA tA pA s1 = Ok dA s2
        /\ JsMap.get c (modelTypes s2) = Some tB
        /\ JsMap.get dA (modelTypes s2) = Some tA).
Proof.
  intros HkA HkB HoA HoB Hp He HcA HcB Hval dA dB HdA HdB HdAc HdBc Hc HfA HfB.
  split.
  - apply generateNameDefault_first_then_second; auto.
    apply typesDiffer_properties; [congruence|]. now rewrite andb_comm.
  - apply generateNameDefault_first_then_second; auto.
    apply typesDiffer_properties; auto.
Qed.

Lemma name_synthesis_order_dependent_witness :
  (exists s1 s2,
     generateNameDefault (property "Alpha" "config" (widthObject None)) "Config"
       (widthObject None) alpha initialState = Ok "Config" s1
     /\ generateNameDefault (property "Beta" "config" (heightObject None)) "Config"
          (heightObject None) beta s1 = Ok "BetaConfig" s2
     /\ JsMap.get "Config" (modelTypes s2) = Some (widthObject None)
     /\ JsMap.get "BetaConfig" (modelTypes s2) = Some (heightObject None))
  /\ (exists s1 s2,
        generateNameDefault (property "Beta" "config" (heightObject None)) "Config"
          (heightObject None) beta initialState = Ok "Config" s1
        /\ generateNameDefault (property "Alpha" "config" (widthObject None)) "Config"
             (widthObject None) alpha s1 = Ok "AlphaConfig" s2
        /\ JsMap.get "Config" (modelTypes s2) = Some (heightObject None)
        /\ JsMap.get "AlphaConfig" (modelTypes s2) = Some (widthObject None)).
Proof.
  apply (name_synthesis_order_dependent
           (property "Alpha" "config" (widthObject None))
           (property "Beta" "config" (heightObject None))
           "Config" "Config" alpha beta (widthObject None) (heightObject None)
           initialState "Config");
    try reflexivity; discriminate.
Defined.

(** C4 as stated fails when the candidate is the reserved name Value: the
    type translated first does not receive the plain candidate either, and
    the order of translation changes no name. *)
Lemma reserved_candidate_never_plain :
  candidateName (property "Alpha" "value" (widthObject None)) "Value" alpha = "Value"
  /\ candidateName (property "Beta" "value" (heightObject None)) "Value" beta = "Value"
  /\ (exists s1 s2,
        generateNameDefault (property "Alpha" "value" (widthObject None)) "Value"
          (widthObject None) alpha initialState = Ok "AlphaValue" s1
        /\ generateNameDefault (property "Beta" "value" (heightObject None)) "Value"
             (heightObject None) beta s1 = Ok "BetaValue" s2
        /\ JsMap.get "Value" (modelTypes s2) = None)
  /\ (exists s1 s2,
        generateNameDefault (property "Beta" "value" (heightObject None)) "Value"
          (heightObject None) beta initialState = Ok "BetaValue" s1
        /\ generateNameDefault (property "Alpha" "value" (widthObject None)) "Value"
             (widthObject None) alpha s1 = Ok "AlphaValue" s2
        /\ JsMap.get "Value" (modelTypes s2) = None).
Proof.
  split; [reflexivity|]. split; [reflexivity|]. split.
  - exists (withModelType "AlphaValue" (widthObject None) initialState).
    exists (withModelType "BetaValue" (heightObject None)
              (withModelType "AlphaValue" (widthObject None) initialState)).
    repeat split; reflexivity.
  - exists (withModelType "BetaValue" (heightObject None) initialState).
    exists (withModelType "AlphaValue" (widthObject None)
              (withModelType "BetaValue" (heightObject None) initialState)).
    repeat split; reflexivity.
Qed.

(** ** The model-type registry *)

(** [registerModelType] never touches an entry that is there. *)
Lemma registerModelType_preserves (typeName : string) (type : Type_)
    (s : State) :
  exists s',
    registerModelType typeName type s = Ok tt s'
    /\ (Js.includesStr ["object"; "string"; "int"] typeName = true -> s' = s)
    /\ forall k v, JsMap.get k (modelTypes s) = Some v ->
                   JsMap.get k (modelTypes s') = Some v.
Proof.
  unfold registerModelType.
  destruct (Js.includesStr _ typeName).
  - exists s. repeat split; auto.
  - unfold bind, getModelTypes.
    destruct (JsMap.get typeName (modelTypes s)) as [p|] eqn:E.
    + exists s. repeat split; auto.
    + eexists. split; [reflexivity|]. split; [discriminate|].
      intros k v Hk. cbn [modelTypes]. rewrite get_set_other; [assumption|].
      intros ->. congruence.
Qed.

(** The loop of the synthesizer replaces the entry of the name it returns,
    and only when [typesDiffer] does not tell the new type from the stored
    one. *)
Lemma generateNameLoop_preserves (names : list string) (t : Type_) :
  forall (a : string) (s s' : State) (n : string),
    generateNameLoop names a t s = Ok n s' ->
    forall k v, JsMap.get k (modelTypes s) = Some v ->
      JsMap.get k (modelTypes s') = Some v
      \/ (k = n /\ typesDiffer t v = false
          /\ JsMap.get k (modelTypes s') = Some t).
Proof.
  induction names as [|x names IH]; intros a s s' n H k v Hk.
  - cbn [generateNameLoop] in H. unfold bind, getModelTypes in H.
    destruct (_ || _) eqn:E; [discriminate|].
    injection H as <- <-. apply orb_false_elim in E. destruct E as [E _].
    cbn [modelTypes]. destruct (String.eqb k (normalizeAttempt a)) eqn:Ek.
    + apply String.eqb_eq in Ek. subst k. rewrite Hk in E.
      right. repeat split; auto. apply get_set_same.
    + apply String.eqb_neq in Ek. left. now rewrite get_set_other.
  - cbn [generateNameLoop] in H. unfold bind at 1, getModelTypes in H.
    destruct (_ || _) eqn:E.
    + exact (IH _ _ _ _ H k v Hk).
    + injection H as <- <-. apply orb_false_elim in E. destruct E as [E _].
      cbn [modelTypes]. destruct (String.eqb k (normalizeAttempt a)) eqn:Ek.
      * apply String.eqb_eq in Ek. subst k. rewrite Hk in E.
        right. repeat split; auto. apply get_set_same.
      * apply String.eqb_neq in Ek. left. now rewrite get_set_other.
Qed.

(** C9 fails on the code: [typesDiffer] compares the expressions alone when
    both types have one, so two top-level object types with the same
    expression and different properties are taken for the same type, and
    naming the second replaces the entry of the first by a structurally
    different type. *)
Theorem model_type_replaced_under_same_expression :
  let w := widthObject (Some "[Object]") in
  let h := heightObject (Some "[Object]") in
  Type_eqb w h = false
  /\ typesDiffer h w = false
  /\ renderMember plainExternals (property "Alpha" "config" w) alpha initialState
     = Ok ["public Config Config { get; }"; EmptyString]
          (withModelType "Config" w initialState)
  /\ renderMember plainExternals (property "Beta" "config" h) beta
       (withModelType "Config" w initialState)
     = Ok ["public Config Config { get; }"; EmptyString]
          (withModelType "Config" h initialState)
  /\ JsMap.get "Config" (modelTypes (withModelType "Config" w initialState))
     = Some w
  /\ JsMap.get "Config" (modelTypes (withModelType "Config" h initialState))
     = Some h.
Proof. repeat split; reflexivity. Qed.

(** ** The action parameter of the WaitFor methods *)

Lemma find_first (f : string -> bool) (pre post : list string) (a : string) :
  Forall (fun x => f x = false) pre -> f a = true ->
  find f (pre ++ a :: post) = Some a.
Proof.
  intros Hpre Ha. induction Hpre as [|x pre Hx _ IH]; simpl.
  - now rewrite Ha.
  - now rewrite Hx.
Qed.

Lemma find_none (f : string -> bool) (l : list string) :
  Forall (fun x => f x = false) l -> find f l = None.
Proof.
  intros H. induction H as [|x l Hx _ IH]; simpl; [reflexivity|].
  now rewrite Hx.
Qed.

Lemma indexOf_undefined (l : list string) : indexOf l None = (-1)%Z.
Proof. induction l as [|x l IH]; simpl; [reflexivity | now rewrite IH]. Qed.

Lemma indexOf_first (pre post : list string) (a : string) :
  Forall (fun x => x <> a) pre ->
  indexOf (pre ++ a :: post) (Some a) = Z.of_nat (List.length pre).
Proof.
  intros Hpre. induction Hpre as [|x pre Hx _ IH].
  - simpl. now rewrite String.eqb_refl.
  - cbn [app indexOf Js.isStr List.length]. rewrite IH.
    assert (E : String.eqb a x = false) by (apply String.eqb_neq; congruence).
    rewrite E. destruct (Z.ltb_spec (Z.of_nat (List.length pre)) 0); lia.
Qed.

Lemma spliceInsert_middle (pre post : list string) (x : string) :
  spliceInsert (pre ++ post) (Z.of_nat (List.length pre)) x
  = (pre ++ x :: post)%list.
Proof.
  unfold spliceInsert. rewrite length_app.
  destruct (Z.ltb_spec (Z.of_nat (List.length pre)) 0); [lia|].
  rewrite Z.min_l by lia. rewrite Nat2Z.id.
  rewrite firstn_app, skipn_app, Nat.sub_diag, firstn_all, skipn_all.
  simpl. now rewrite app_nil_r.
Qed.

Lemma spliceInsert_before_last (pre : list string) (z x : string) :
  spliceInsert (pre ++ [z]) (-1) x = (pre ++ [x; z])%list.
Proof.
  unfold spliceInsert. rewrite length_app. cbn [List.length Z.ltb Z.compare].
  replace (Z.max (Z.of_nat (List.length pre + 1) + -1) 0)
    with (Z.of_nat (List.length pre)) by lia.
  rewrite Nat2Z.id.
  rewrite firstn_app, skipn_app, Nat.sub_diag, firstn_all, skipn_all.
  simpl. now rewrite app_nil_r.
Qed.

(** When some argument has a default, the action parameter goes right before
    the first such argument. *)
Lemma addWaitForAction_before_first_optional (name_ : string) (L : Locals.t)
    (pre post : list string) (a : string) (s : State) :
  takesWaitForAction name_ = true ->
  Locals.args L = (pre ++ a :: post)%list ->
  Forall (fun x => Js.includes x "=" = false) pre ->
  Js.includes a "=" = true ->
  JsMap.get "action" (Locals.paramDocs L) = None ->
  exists L',
    addWaitForAction name_ L s = Ok L' s
    /\ Locals.args L' = (pre ++ "Func<Task> action = default" :: a :: post)%list
    /\ Locals.explodedArgs L' = Locals.explodedArgs L.
Proof.
  intros Hw Hargs Hpre Ha Hdoc. unfold addWaitForAction.
  fold (takesWaitForAction name_). rewrite Hw.
  unfold addParamsDoc. cbn [Js.startsWith String.prefix Locals.paramDocs].
  destruct (ascii_dec _ _) as [E|_]; [discriminate E|].
  rewrite Hdoc. eexists. split; [reflexivity|].
  cbn [Locals.args Locals.explodedArgs]. split; [|reflexivity].
  rewrite Hargs, (find_first _ pre post a Hpre Ha).
  rewrite indexOf_first.
  - apply spliceInsert_middle.
  - eapply Forall_impl; [|exact Hpre]. intros x Hx ->. congruence.
Qed.

(** When no argument has a default, [find] gives [undefined], [indexOf] gives
    -1 and [splice] counts from the end: the action parameter, which has a
    default, goes before the last required argument. *)
Lemma addWaitForAction_without_optional (name_ : string) (L : Locals.t)
    (pre : list string) (z : string) (s : State) :
  takesWaitForAction name_ = true ->
  Locals.args L = (pre ++ [z])%list ->
  Forall (fun x => Js.includes x "=" = false) (pre ++ [z]) ->
  JsMap.get "action" (Locals.paramDocs L) = None ->
  exists L',
    addWaitForAction name_ L s = Ok L' s
    /\ Locals.args L' = (pre ++ ["Func<Task> action = default"; z])%list.
Proof.
  intros Hw Hargs Hall Hdoc. unfold addWaitForAction.
  fold (takesWaitForAction name_). rewrite Hw.
  unfold addParamsDoc. cbn [Js.startsWith String.prefix Locals.paramDocs].
  destruct (ascii_dec _ _) as [E|_]; [discriminate E|].
  rewrite Hdoc. eexists. split; [reflexivity|].
  cbn [Locals.args]. rewrite Hargs, (find_none _ _ Hall), indexOf_undefined.
  apply spliceInsert_before_last.
Qed.

(** C10 fails on the code for a method whose arguments are all required: the
    action parameter, with its default, is spliced in before the last
    required argument. *)
Theorem waitFor_action_before_last_required :
  renderMember plainExternals waitForEventMethod page initialState
  = Ok ["/// Waits for the event.";
        "/// <param name=" ++ Js.quoted "event" ++ ">The event.</param>";
        "/// <param name=" ++ Js.quoted "url" ++ ">The url.</param>";
        "/// <param name=" ++ Js.quoted "action"
          ++ ">Action to perform while waiting</param>";
        "Task WaitForEventAsync(string @event, Func<Task> action = default, string url);";
        EmptyString]
       initialState.
Proof. reflexivity. Qed.

(** * Further properties of the generator *)

(** ** Invariants of the registries *)

Lemma bind_Ok {A B} (c : M A) (k : A -> M B) (s s' : State) (b : B) :
  bind c k s = Ok b s' ->
  exists a s1, c s = Ok a s1 /\ k a s1 = Ok b s'.
Proof.
  unfold bind. destruct (c s) as [a s1|e]; [|discriminate].
  intros H. now exists a, s1.
Qed.

Lemma defined_Ok {A} (o : option A) (s s' : State) (a : A) :
  defined o s = Ok a s' -> o = Some a /\ s' = s.
Proof.
  destruct o; simpl; [|discriminate]. unfold ret. intros H.
  injection H as -> ->. auto.
Qed.

Lemma ret_Ok {A} (a b : A) (s s' : State) :
  ret a s = Ok b s' -> b = a /\ s' = s.
Proof. unfold ret. intros H. injection H as -> ->. auto. Qed.

(** The helpers of [renderMethod] that only read the registries. *)

Lemma addParamsDoc_state (k : string) (d : list string) (L L' : Locals.t)
    (s s' : State) :
  addParamsDoc k d L s = Ok L' s' -> s' = s.
Proof.
  unfold addParamsDoc. destruct (JsMap.get _ _); [discriminate|].
  intros H. apply ret_Ok in H. now destruct H.
Qed.

Lemma pushExploded_state (argName : string) (arg : Member)
    (docs : list string) (L L' : Locals.t) (newArg : string) (s s' : State) :
  pushExploded argName arg docs L newArg s = Ok L' s' -> s' = s.
Proof.
  unfold pushExploded. intros H.
  apply bind_Ok in H. destruct H as (a & s1 & H1 & H).
  apply defined_Ok in H1. destruct H1 as [_ ->].
  apply bind_Ok in H. destruct H as (b & s2 & H2 & H).
  apply defined_Ok in H2. destruct H2 as [_ ->].
  now apply addParamsDoc_state in H.
Qed.

Lemma addWaitForAction_state (name_ : string) (L L' : Locals.t)
    (s s' : State) :
  addWaitForAction name_ L s = Ok L' s' -> s' = s.
Proof.
  unfold addWaitForAction. destruct (_ && _).
  - apply addParamsDoc_state.
  - intros H. apply ret_Ok in H. now destruct H.
Qed.

Lemma argDoc_state (L : Locals.t) (key : string) (d : list string)
    (s s' : State) :
  argDoc L key s = Ok d s' -> s' = s.
Proof.
  unfold argDoc. intros H.
  apply bind_Ok in H. destruct H as (a & s1 & H1 & H).
  apply defined_Ok in H1. destruct H1 as [_ ->].
  apply bind_Ok in H. destruct H as (b & s2 & H2 & H).
  apply defined_Ok in H2. destruct H2 as [_ ->].
  apply ret_Ok in H. now destruct H.
Qed.

Lemma overloadArgs_state (L : Locals.t) (explodedArg : string)
    (args_ : list string) :
  forall acc r s s', overloadArgs L explodedArg args_ acc s = Ok r s' -> s' = s.
Proof.
  induction args_ as [|a args_ IH]; intros [[out ov] c] r s s' H.
  - apply ret_Ok in H. now destruct H.
  - cbn [overloadArgs] in H. destruct (isExplodedMarker a).
    + apply bind_Ok in H. destruct H as (d & s1 & H1 & H).
      apply argDoc_state in H1. subst s1. eapply IH; eauto.
    + apply bind_Ok in H. destruct H as (d & s1 & H1 & H).
      apply argDoc_state in H1. subst s1. eapply IH; eauto.
Qed.

Lemma renderOverloads_state (X : Externals) (member : Member)
    (ty : option string) (name_ : string) (L : Locals.t)
    (explodedArgs_ : list string) :
  forall acc r s s',
    renderOverloads X member ty name_ L explodedArgs_ acc s = Ok r s' -> s' = s.
Proof.
  induction explodedArgs_ as [|a rest IH]; intros acc r s s' H.
  - apply ret_Ok in H. now destruct H.
  - cbn [renderOverloads] in H.
    apply bind_Ok in H. destruct H as ([[out ov] c] & s1 & H1 & H).
    apply overloadArgs_state in H1. subst s1. eapply IH; eauto.
Qed.

Section Invariant.

Variable X : Externals.
Variable Inv : State -> Prop.

Hypothesis Inv_enum : forall k v s, Inv s -> Inv (withEnumType k v s).
Hypothesis Inv_doc : forall k v s, Inv s -> Inv (withDocumentedResult k v s).
Hypothesis Inv_model :
  forall k t s, isObjectWithProperties t = true -> Inv s ->
                Inv (withModelType k t s).

Lemma mapM_Inv {A B} (f : A -> M B) (l : list A) :
  list_all A (fun a => forall s b s', Inv s -> f a s = Ok b s' -> Inv s') l ->
  forall s bs s', Inv s -> mapM f l s = Ok bs s' -> Inv s'.
Proof.
  intros Hall. induction Hall as [|a Ha l Hl IH]; intros s bs s' Hs H.
  - apply ret_Ok in H. destruct H as [_ ->]. exact Hs.
  - cbn [mapM] in H. apply bind_Ok in H. destruct H as (b & s1 & H1 & H).
    apply bind_Ok in H. destruct H as (bs' & s2 & H2 & H).
    apply ret_Ok in H. destruct H as [_ ->].
    eapply IH; [|exact H2]. eapply Ha; eauto.
Qed.

Lemma foldM_Inv {A S} (f : S -> A -> M S) (l : list A) :
  (forall a, In a l -> forall acc s b s', Inv s -> f acc a s = Ok b s' -> Inv s') ->
  forall acc s b s', Inv s -> foldM f l acc s = Ok b s' -> Inv s'.
Proof.
  induction l as [|a l IH]; intros Hf acc s b s' Hs H.
  - apply ret_Ok in H. destruct H as [_ ->]. exact Hs.
  - cbn [foldM] in H. apply bind_Ok in H. destruct H as (acc' & s1 & H1 & H).
    eapply IH; [| |exact H].
    + intros a' Ha'. apply Hf. now right.
    + eapply Hf; [now left | exact Hs | exact H1].
Qed.

Lemma registerModelType_Inv (typeName : string) (type : Type_)
    (s s' : State) (u : unit) :
  isObjectWithProperties type = true -> Inv s ->
  registerModelType typeName type s = Ok u s' -> Inv s'.
Proof.
  intros Ho Hs. unfold registerModelType.
  destruct (Js.includesStr _ typeName).
  - intros H. apply ret_Ok in H. destruct H as [_ ->]. exact Hs.
  - unfold bind, getModelTypes.
    destruct (JsMap.get typeName (modelTypes s)).
    + intros H. apply ret_Ok in H. destruct H as [_ ->]. exact Hs.
    + unfold setModelType. intros H. injection H as _ <-.
      now apply (Inv_model typeName type s).
Qed.

Lemma translateType_Inv (type : Type_) :
  forall parent cb s r s',
    keepsInv Inv cb -> Inv s ->
    translateType X type parent cb s = Ok r s' -> Inv s'.
Proof.
  induction type as [n e u Hu t Ht a Ha rt Hrt p Hp | ]
    using Type_mut with (P0 := fun _ => True); [|exact I].
  intros parent cb s r s' Hcb Hs H.
  cbn [translateType expression union name templates args returnType properties] in H.
  destruct (Js.isStr e "[null]|[Error]").
  { apply ret_Ok in H. destruct H as [_ ->]. exact Hs. }
  destruct (Js.isStr e booleanOrMixed).
  { apply ret_Ok in H. destruct H as [_ ->]. exact Hs. }
  destruct u as [u|].
  - (* unions *)
    apply bind_Ok in H. destruct H as (u0 & s1 & H0 & H).
    apply defined_Ok in H0. destruct H0 as [H0 ->].
    destruct (String.eqb (name u0) "null" && Nat.eqb (List.length u) 2).
    { destruct u as [|v0 [|v1 [|v2 u]]]; try discriminate H.
      inversion Hu as [l Hl|]; subst.
      inversion Hl as [|? ? ? Hl']; subst. inversion Hl' as [|? Hv1 ? ?]; subst.
      eapply Hv1; eauto. }
    destruct (Js.isStr e "[string]|[Buffer]").
    { apply ret_Ok in H. destruct H as [_ ->]. exact Hs. }
    destruct (_ || _).
    { apply ret_Ok in H. destruct H as [_ ->]. exact Hs. }
    apply bind_Ok in H. destruct H as (b & s1 & H1 & H).
    apply defined_Ok in H1. destruct H1 as [_ ->].
    destruct b.
    { apply ret_Ok in H. destruct H as [_ ->]. exact Hs. }
    destruct (Js.isStr e floatOrRaf).
    { apply ret_Ok in H. destruct H as [_ ->]. exact Hs. }
    destruct (Js.truthy n).
    + apply bind_Ok in H. destruct H as (x & s1 & H1 & H).
      apply ret_Ok in H. destruct H as [_ ->].
      unfold setEnumType in H1. injection H1 as _ <-.
      apply (Inv_enum n (map name u) s Hs).
    + apply ret_Ok in H. destruct H as [_ ->]. exact Hs.
  - destruct (String.eqb n "Array").
    { destruct t as [[|t0 [|t1 t]]|]; try discriminate H.
      apply bind_Ok in H. destruct H as (x & s1 & H1 & H).
      apply ret_Ok in H. destruct H as [_ ->].
      inversion Ht as [l Hl|]; subst. inversion Hl as [|? Ht0 ? ?]; subst.
      eapply Ht0; eauto. }
    destruct (String.eqb n "Object") eqn:En.
    { assert (Hnamed : forall p0 s0 r0 s0',
                p = Some p0 -> Inv s0 ->
                (objectName <- cb (mkType n e None t a rt p) ;;
                 (if String.eqb objectName "Object"
                  then throw ObjectUnexpected
                  else registerModelType objectName (mkType n e None t a rt p) ;;;
                       ret (Some objectName))) s0 = Ok r0 s0' -> Inv s0').
      { intros p0 s0 r0 s0' Hp0 Hs0 H0.
        assert (Ho : isObjectWithProperties (mkType n e None t a rt p) = true).
        { unfold isObjectWithProperties. cbn [name union properties].
          rewrite En, Hp0. reflexivity. }
        apply bind_Ok in H0. destruct H0 as (x & s1 & H1 & H0).
        destruct (String.eqb x "Object"); [discriminate H0|].
        apply bind_Ok in H0. destruct H0 as (y & s2 & H2 & H0).
        apply ret_Ok in H0. destruct H0 as [_ ->].
        eapply registerModelType_Inv; [exact Ho | | exact H2].
        eapply Hcb; eauto. }
      destruct t as [[|t0 [|t1 [|t2 t]]]|].
      3:{ inversion Ht as [l Hl|]; subst.
          inversion Hl as [|? Ht0 ? Hl']; subst.
          inversion Hl' as [|? Ht1 ? ?]; subst.
          apply bind_Ok in H. destruct H as (x & s1 & H1 & H).
          apply bind_Ok in H. destruct H as (y & s2 & H2 & H).
          apply ret_Ok in H. destruct H as [_ ->].
          eapply Ht1; [exact Hcb | | exact H2]. eapply Ht0; eauto. }
      all: destruct p as [p|];
        [ eapply Hnamed; [reflexivity | exact Hs | exact H]
        | apply ret_Ok in H; destruct H as [_ ->]; exact Hs ]. }
    destruct (String.eqb n "Map").
    { destruct t as [[|t0 [|t1 [|t2 t]]]|]; try discriminate H.
      inversion Ht as [l Hl|]; subst.
      inversion Hl as [|? Ht0 ? Hl']; subst.
      inversion Hl' as [|? Ht1 ? ?]; subst.
      apply bind_Ok in H. destruct H as (x & s1 & H1 & H).
      apply bind_Ok in H. destruct H as (y & s2 & H2 & H).
      apply ret_Ok in H. destruct H as [_ ->].
      eapply Ht1; [exact Hcb | | exact H2]. eapply Ht0; eauto. }
    destruct (String.eqb n "function").
    { destruct a as [targs|].
      2:{ apply ret_Ok in H. destruct H as [_ ->]. exact Hs. }
      destruct (Js.isStr e "[function]").
      { apply ret_Ok in H. destruct H as [_ ->]. exact Hs. }
      apply bind_Ok in H. destruct H as (xs & s1 & H1 & H).
      assert (Hs1 : Inv s1).
      { eapply (mapM_Inv (fun t0 => translateType X t0 parent cb)); [|exact Hs|exact H1].
        inversion Ha as [l Hl|]; subst.
        clear -Hl Hcb. induction Hl as [|x Hx l Hl IH]; constructor; auto.
        intros s b s' Hs Hb. eapply Hx; eauto. }
      destruct (includesNull xs); [discriminate H|].
      destruct rt as [rt|].
      2:{ apply ret_Ok in H. destruct H as [_ ->]. exact Hs1. }
      apply bind_Ok in H. destruct H as (y & s2 & H2 & H).
      destruct y; [|discriminate H].
      apply ret_Ok in H. destruct H as [_ ->].
      inversion Hrt as [? Hr|]; subst. eapply Hr; eauto. }
    destruct t as [ts|].
    + apply bind_Ok in H. destruct H as (xs & s1 & H1 & H).
      apply ret_Ok in H. destruct H as [_ ->].
      eapply (mapM_Inv (fun t0 => translateType X t0 parent defaultNameCallback));
        [|exact Hs|exact H1].
      inversion Ht as [l Hl|]; subst.
      clear -Hl. induction Hl as [|x Hx l Hl IH]; constructor; auto.
      intros s b s' Hs Hb. eapply Hx; [|exact Hs|exact Hb].
      intros t0 s0 r0 s0' _ Hs0 H0. apply ret_Ok in H0.
      destruct H0 as [_ ->]. exact Hs0.
    + apply ret_Ok in H. destruct H as [_ ->]. exact Hs.
Qed.

Lemma generateNameLoop_Inv (names : list string) (t : Type_) :
  isObjectWithProperties t = true ->
  forall a s r s', Inv s -> generateNameLoop names a t s = Ok r s' -> Inv s'.
Proof.
  intros Ho. induction names as [|x names IH]; intros a s r s' Hs H;
    cbn [generateNameLoop] in H; unfold bind at 1, getModelTypes in H;
    destruct (_ || _); try discriminate H.
  - apply bind_Ok in H. destruct H as (u & s1 & H1 & H).
    apply ret_Ok in H. destruct H as [_ ->].
    unfold setModelType in H1. injection H1 as _ <-. now apply Inv_model.
  - eapply IH; eauto.
  - apply bind_Ok in H. destruct H as (u & s1 & H1 & H).
    apply ret_Ok in H. destruct H as [_ ->].
    unfold setModelType in H1. injection H1 as _ <-. now apply Inv_model.
Qed.

Lemma generateNameDefault_Inv (member : Member) (name_ : string)
    (parent : Parent) :
  keepsInv Inv (fun t => generateNameDefault member name_ t parent).
Proof.
  intros t s r s' Ho Hs H. unfold generateNameDefault in H.
  destruct (match properties t with Some _ => _ | None => _ end).
  { apply ret_Ok in H. destruct H as [_ ->]. exact Hs. }
  cbv zeta in H. destruct (negb _).
  - destruct (kind member).
    + eapply generateNameLoop_Inv; eauto.
    + eapply generateNameLoop_Inv; eauto.
    + apply ret_Ok in H. destruct H as [_ ->]. exact Hs.
    + apply ret_Ok in H. destruct H as [_ ->]. exact Hs.
  - apply ret_Ok in H. destruct H as [_ ->]. exact Hs.
Qed.

Lemma notSupported_Inv : keepsInv Inv (fun _ => throw NotSupported).
Proof. intros t s r s' _ _ H. discriminate H. Qed.

Lemma resolveType_Inv (member : Member) (parent : Parent) (type : Type_)
    (s s' : State) (r : option string) :
  Inv s -> resolveType X member parent type s = Ok r s' -> Inv s'.
Proof.
  intros Hs H. unfold resolveType in H.
  eapply translateType_Inv; [|exact Hs|exact H].
  intros t s0 r0 s0' _ Hs0 H0.
  apply bind_Ok in H0. destruct H0 as (u & s1 & H1 & H0).
  apply ret_Ok in H0. destruct H0 as [_ ->].
  unfold setDocumentedResult in H1. injection H1 as _ <-.
  now apply Inv_doc.
Qed.

Lemma methodReturnType_Inv (member : Member) (parent : Parent)
    (s s' : State) (r : option string) :
  Inv s -> methodReturnType X member parent s = Ok r s' -> Inv s'.
Proof.
  intros Hs H. unfold methodReturnType in H.
  apply bind_Ok in H. destruct H as (ty & s1 & H1 & H).
  assert (Hs1 : Inv s1).
  { destruct (_ || _).
    - apply bind_Ok in H1. destruct H1 as ([inner isArray] & s2 & H2 & H1).
      assert (Hs2 : s2 = s).
      { destruct (String.eqb (name (type member)) "Array").
        - apply bind_Ok in H2. destruct H2 as (ts & s3 & H3 & H2).
          apply defined_Ok in H3. destruct H3 as [_ ->].
          apply bind_Ok in H2. destruct H2 as (t0 & s4 & H4 & H2).
          apply defined_Ok in H4. destruct H4 as [_ ->].
          apply ret_Ok in H2. now destruct H2.
        - apply ret_Ok in H2. now destruct H2. }
      subst s2.
      destruct (Js.isStr (expression inner) _).
      { apply ret_Ok in H1. destruct H1 as [_ ->]. exact Hs. }
      destruct (negb isArray && _).
      { apply ret_Ok in H1. destruct H1 as [_ ->]. exact Hs. }
      apply bind_Ok in H1. destruct H1 as (ty' & s3 & H3 & H1).
      assert (Hs3 : Inv s3).
      { destruct (Js.truthyOpt _).
        - apply ret_Ok in H3. destruct H3 as [_ ->]. exact Hs.
        - eapply resolveType_Inv; eauto. }
      destruct isArray; apply ret_Ok in H1; destruct H1 as [_ ->]; exact Hs3.
    - apply ret_Ok in H1. destruct H1 as [_ ->]. exact Hs. }
  destruct (Js.truthyOpt ty).
  - apply ret_Ok in H. destruct H as [_ ->]. exact Hs1.
  - eapply resolveType_Inv; eauto.
Qed.

Lemma list_all_Forall {A} (P : A -> Prop) (l : list A) :
  list_all A P l -> Forall P l.
Proof. intros H. induction H; constructor; auto. Qed.

(** [processArg] keeps the invariant, whatever the member it is called for. *)
Lemma processArg_Inv (arg : Member) :
  forall member parent L s L' s',
    Inv s -> processArg X member parent arg L s = Ok L' s' -> Inv s'.
Proof.
  induction arg as [tn te tu Htu tt Htt ta Hta tr Htr tp Htp
                   | k n a ty Hty r asy aa Haa sp cl]
    using Member_mut
    with (P := fun t => forall props, properties t = Some props ->
                 Forall (fun p => forall member parent L s L' s',
                           Inv s ->
                           processArg X member parent p L s = Ok L' s' ->
                           Inv s') props).
  - intros props Hprops. cbn [properties] in Hprops. subst.
    inversion Htp as [l Hl|]; subst. now apply list_all_Forall.
  - intros member parent L s L' s' Hs H.
    cbn [processArg mname type] in H.
    destruct (String.eqb n "options").
    { destruct (properties ty) as [props|] eqn:Ep; [|discriminate H].
      specialize (Hty props eq_refl). clear -Hty Hs H.
      revert L s Hs H. induction Hty as [|p props Hp _ IH]; intros L s Hs H.
      - apply ret_Ok in H. destruct H as [_ ->]. exact Hs.
      - apply bind_Ok in H. destruct H as (L1 & s1 & H1 & H).
        eapply IH; [|exact H]. eapply Hp; eauto. }
    destruct (Js.isStr (expression ty) "[string]|[path]").
    { cbn [spec] in H. destruct sp.
      - apply bind_Ok in H. destruct H as (L1 & s1 & H1 & H).
        apply addParamsDoc_state in H1, H. now subst.
      - apply ret_Ok in H. destruct H as [_ ->]. exact Hs. }
    destruct (Js.isStr (expression ty) "[boolean]|[Array]<[string]>").
    { apply bind_Ok in H. destruct H as (u & s1 & H1 & H).
      apply defined_Ok in H1. destruct H1 as [_ ->].
      apply bind_Ok in H. destruct H as (u0 & s1 & H1 & H).
      apply defined_Ok in H1. destruct H1 as [_ ->].
      apply bind_Ok in H. destruct H as (lt & s1 & H1 & H).
      apply (translateType_Inv _ _ _ _ _ _ notSupported_Inv Hs) in H1.
      apply bind_Ok in H. destruct H as (u1 & s2 & H2 & H).
      apply defined_Ok in H2. destruct H2 as [_ ->].
      apply bind_Ok in H. destruct H as (rt & s2 & H2 & H).
      apply (translateType_Inv _ _ _ _ _ _ notSupported_Inv H1) in H2.
      apply bind_Ok in H. destruct H as (L1 & s3 & H3 & H).
      apply addParamsDoc_state in H3, H. now subst. }
    cbv zeta in H.
    apply bind_Ok in H. destruct H as (argType & s1 & H1 & H).
    apply (translateType_Inv _ _ _ _ _ _
             (generateNameDefault_Inv member _ parent) Hs) in H1.
    assert (Hplain : forall s2 L2 s2',
              Inv s2 ->
              (L0 <- addParamsDoc
                       (toArgumentName (Js.orElse a n))
                       (renderTextOnly X sp) L ;;
               (if String.eqb (toArgumentName (Js.orElse a n)) "timeout"
                   && Js.isStr argType "decimal"
                then ret (pushRaw "int timeout = 0" L0)
                else ret (pushArg argType (toArgumentName (Js.orElse a n))
                            (mkMember k n a ty r asy aa sp cl) false L0)))
                s2 = Ok L2 s2' -> Inv s2').
    { intros s2 L2 s2' Hs2 H2.
      apply bind_Ok in H2. destruct H2 as (L0 & s3 & H3 & H2).
      apply addParamsDoc_state in H3. subst s3.
      destruct (_ && _); apply ret_Ok in H2; destruct H2 as [_ ->]; exact Hs2. }
    cbn [alias mname spec] in H.
    destruct argType as [argType|]; [now apply (Hplain s1 L' s')|].
    destruct (union ty) as [u|]; [|now apply (Hplain s1 L' s')].
    apply bind_Ok in H. destruct H as (ts & s2 & H2 & H).
    assert (Hs2 : Inv s2).
    { eapply (mapM_Inv (fun t =>
                translateType X t parent
                  (fun x => generateNameDefault member
                              (toArgumentName (Js.orElse a n)) x parent)));
        [|exact H1|exact H2].
      clear H2 H. induction u; constructor; auto.
      intros s0 b s0' Hs0 Hb.
      eapply translateType_Inv; [|exact Hs0|exact Hb].
      apply generateNameDefault_Inv. }
    destruct (includesNull ts); [discriminate H|].
    apply bind_Ok in H. destruct H as (L1 & s3 & H3 & H).
    apply ret_Ok in H. destruct H as [_ ->].
    eapply foldM_Inv; [|exact Hs2|exact H3].
    intros x _ acc s0 b s0' Hs0 Hb. apply pushExploded_state in Hb. now subst.
Qed.

Lemma renderMethod_Inv (member : Member) (parent : Parent) (name_ : string)
    (s s' : State) (out : list string) :
  Inv s -> renderMethod X member parent name_ s = Ok out s' -> Inv s'.
Proof.
  intros Hs H. unfold renderMethod in H.
  apply bind_Ok in H. destruct H as (ty & s1 & H1 & H).
  apply (methodReturnType_Inv member parent s s1 ty Hs) in H1.
  destruct (_ && _).
  { apply ret_Ok in H. destruct H as [_ ->]. exact H1. }
  cbv zeta in H.
  apply bind_Ok in H. destruct H as (L & s2 & H2 & H).
  assert (Hs2 : Inv s2).
  { eapply foldM_Inv; [|exact H1|exact H2].
    intros a _ acc s0 b s0' Hs0 Hb.
    exact (processArg_Inv a member parent acc s0 b s0' Hs0 Hb). }
  apply bind_Ok in H. destruct H as (L2 & s3 & H3 & H).
  apply addWaitForAction_state in H3. subst s3.
  destruct (Locals.explodedArgs L2) as [|e0 es].
  { apply ret_Ok in H. destruct H as [_ ->]. exact Hs2. }
  apply bind_Ok in H. destruct H as ([o c] & s3 & H3 & H).
  apply renderOverloads_state in H3. subst s3.
  destruct c.
  - apply bind_Ok in H. destruct H as (docs & s3 & H3 & H).
    apply ret_Ok in H. destruct H as [_ ->].
    eapply foldM_Inv; [|exact Hs2|exact H3].
    intros a _ acc z0 b z0' Hs0 Hb. cbv beta in Hb.
    destruct (String.eqb a "EXPLODED_ARG"); [discriminate Hb|];
      cbv beta in Hb.
    apply bind_Ok in Hb. destruct Hb as (d & s4 & H4 & Hb).
    apply argDoc_state in H4. apply ret_Ok in Hb. destruct Hb as [_ ->].
    now subst.
  - apply ret_Ok in H. destruct H as [_ ->]. exact Hs2.
Qed.

Lemma renderMember_Inv (member : Member) (parent : Parent)
    (s s' : State) (out : list string) :
  Inv s -> renderMember X member parent s = Ok out s' -> Inv s'.
Proof.
  intros Hs H. unfold renderMember in H. cbv zeta in H.
  apply bind_Ok in H. destruct H as (o & s1 & H1 & H).
  apply ret_Ok in H. destruct H as [_ ->].
  assert (Hother : forall k,
            (type_ <- translateType X (type member) parent
                        (fun t => generateNameDefault member
                                    (toMemberName member false) t parent) ;;
             k type_) s = Ok o s1 ->
            (forall ty s2 s2', k ty s2 = Ok o s2' -> s2' = s2) -> Inv s1).
  { intros k Hk Hpure. apply bind_Ok in Hk. destruct Hk as (ty & s2 & H2 & Hk).
    apply Hpure in Hk. subst s2.
    eapply translateType_Inv; [|exact Hs|exact H2].
    apply generateNameDefault_Inv. }
  destruct (kind member).
  - eapply renderMethod_Inv; eauto.
  - eapply Hother; [exact H1|]. intros ty s2 s2' Hk.
    apply bind_Ok in Hk. destruct Hk as (x & s3 & H3 & Hk).
    apply defined_Ok in H3. destruct H3 as [_ ->].
    apply ret_Ok in Hk. now destruct Hk.
  - eapply Hother; [exact H1|]. intros ty s2 s2' Hk.
    apply ret_Ok in Hk. now destruct Hk.
  - eapply Hother; [exact H1|]. intros ty s2 s2' Hk. discriminate Hk.
Qed.

Lemma renderMembers_Inv (members : list Member) (parent : Parent)
    (s s' : State) (out : list string) :
  Inv s -> renderMembers X members parent s = Ok out s' -> Inv s'.
Proof.
  intros Hs H. unfold renderMembers in H.
  eapply foldM_Inv; [|exact Hs|exact H].
  intros m _ acc s0 b s0' Hs0 Hb.
  apply bind_Ok in Hb. destruct Hb as (o & s1 & H1 & Hb).
  apply ret_Ok in Hb. destruct Hb as [_ ->].
  eapply renderMember_Inv; eauto.
Qed.

End Invariant.

Lemma get_set_not_None {V} (k k' : string) (v : V) (m : JsMap.t V) :
  JsMap.get k' m <> None -> JsMap.get k' (JsMap.set k v m) <> None.
Proof.
  intros H. destruct (String.eqb k' k) eqn:E.
  - apply String.eqb_eq in E. subst k'. rewrite get_set_same. discriminate.
  - apply String.eqb_neq in E. now rewrite get_set_other.
Qed.

Lemma keysKept_set {V} (m0 m : JsMap.t V) (k : string) (v : V) :
  keysKept m0 m -> keysKept m0 (JsMap.set k v m).
Proof. intros H k' Hk'. apply get_set_not_None. now apply H. Qed.

Lemma registriesGrow_refl (s : State) : registriesGrow s s.
Proof. repeat split; intros k H; exact H. Qed.

(** X1: rendering members never removes a key from the model-type registry,
    the documented results or the enum registry, and it keeps the model-type
    registry made of Object nodes with properties only. *)
Theorem renderMembers_keeps_registries (X : Externals)
    (members : list Member) (parent : Parent) (s s' : State)
    (out : list string) :
  renderMembers X members parent s = Ok out s' ->
  registriesGrow s s'
  /\ (modelTypesAreObjects s -> modelTypesAreObjects s').
Proof.
  intros H. split.
  - apply (renderMembers_Inv X (registriesGrow s)) with (4 := registriesGrow_refl s)
                                                        (5 := H).
    + intros k v s0 (H1 & H2 & H3). repeat split; auto.
      now apply keysKept_set.
    + intros k v s0 (H1 & H2 & H3). repeat split; auto.
      now apply keysKept_set.
    + intros k t s0 _ (H1 & H2 & H3). repeat split; auto.
      now apply keysKept_set.
  - intros Hobj.
    apply (renderMembers_Inv X modelTypesAreObjects) with (4 := Hobj) (5 := H).
    + intros k v s0 H0. exact H0.
    + intros k v s0 H0. exact H0.
    + intros k t s0 Ht H0 k' t' Hk'. cbn [withModelType modelTypes] in Hk'.
      destruct (String.eqb k' k) eqn:E.
      * apply String.eqb_eq in E. subst k'. rewrite get_set_same in Hk'.
        now injection Hk' as <-.
      * apply String.eqb_neq in E. rewrite get_set_other in Hk' by assumption.
        now apply (H0 k' t').
Qed.

Lemma renderMembers_keeps_registries_witness :
  exists out s',
    renderMembers plainExternals
      [property "Alpha" "config" (widthObject None)] alpha initialState
    = Ok out s'
    /\ registriesGrow initialState s'
    /\ modelTypesAreObjects s'.
Proof.
  eexists. eexists. split; [reflexivity|].
  destruct (renderMembers_keeps_registries plainExternals
              [property "Alpha" "config" (widthObject None)] alpha
              initialState _ _ eq_refl) as [H1 H2].
  split; [exact H1|]. apply H2. intros k t H. discriminate H.
Defined.

(** X2: a model type of a registry that holds Object nodes with properties
    only never meets the two shape errors of [renderModelType]: its members
    are rendered and the result, file or failure, is theirs. *)
Theorem renderModelType_of_registered (X : Externals)
    (newType : string -> Parent) (k : string) (t : Type_) (s : State) :
  modelTypesAreObjects s ->
  JsMap.get k (modelTypes s) = Some t ->
  exists props,
    properties t = Some props
    /\ renderModelType X newType k t s
       = match (body <- renderMembers X props (newType k) ;;
                writeFile X "partial class" (Some k) None body ModelsDir None) s
         with
         | Ok file s' => Wrote file s'
         | Throw e => Failed (GeneratorError e)
         end.
Proof.
  intros Hobj Hk. specialize (Hobj k t Hk).
  unfold isObjectWithProperties in Hobj.
  apply andb_prop in Hobj. destruct Hobj as [Hobj Hp].
  apply andb_prop in Hobj. destruct Hobj as [Hn Hu].
  apply String.eqb_eq in Hn.
  destruct (union t) eqn:Eu; [discriminate|].
  destruct (properties t) as [props|] eqn:Ep; [|discriminate].
  exists props. split; [reflexivity|].
  unfold renderModelType. rewrite Eu, Hn, Ep. reflexivity.
Qed.

Lemma renderModelType_of_registered_witness :
  exists file s',
    renderModelType plainExternals plainParent "Config" (widthObject None)
      (withModelType "Config" (widthObject None) initialState)
    = Wrote file s'.
Proof.
  destruct (renderModelType_of_registered plainExternals plainParent "Config"
              (widthObject None)
              (withModelType "Config" (widthObject None) initialState))
    as (props & Hp & H).
  - intros k t Hk. cbn in Hk. destruct (String.eqb k "Config"); [|discriminate].
    now injection Hk as <-.
  - reflexivity.
  - rewrite H. injection Hp as <-. eexists. eexists. reflexivity.
Defined.

(** X3: a model type that is the two-variant union of the null marker and a
    type is rendered exactly as that type is. *)
Theorem renderModelType_nullable (X : Externals) (newType : string -> Parent)
    (k : string) (t nullT x : Type_) (s : State) :
  union t = Some [nullT; x] ->
  name nullT = "null" ->
  union x = None ->
  renderModelType X newType k t s = renderModelType X newType k x s.
Proof.
  intros Hu Hn Hx. unfold renderModelType. rewrite Hu, Hx, Hn. reflexivity.
Qed.

Lemma renderModelType_nullable_witness :
  renderModelType plainExternals plainParent "Config"
    (unionType EmptyString None [simpleType "null"; widthObject None])
    initialState
  = renderModelType plainExternals plainParent "Config" (widthObject None)
      initialState.
Proof.
  apply (renderModelType_nullable plainExternals plainParent "Config" _
           (simpleType "null") (widthObject None)); reflexivity.
Defined.

(** ** The class name map *)

Lemma get_fold_set_absent {V} (l : list (string * V)) :
  forall (m : JsMap.t V) (k : string),
    ~ In k (map fst l) ->
    JsMap.get k (fold_left (fun m kv => JsMap.set (fst kv) (snd kv) m) l m)
    = JsMap.get k m.
Proof.
  induction l as [|[k0 v0] l IH]; intros m k Hk; [reflexivity|].
  cbn [fold_left fst snd]. rewrite IH.
  - apply get_set_other. intros ->. apply Hk. now left.
  - intros H. apply Hk. now right.
Qed.

Lemma get_fold_set_function {V} (g : string -> V) (l : list string) :
  forall (m : JsMap.t V) (k : string),
    In k l \/ JsMap.get k m = Some (g k) ->
    JsMap.get k
      (fold_left (fun m kv => JsMap.set (fst kv) (snd kv) m)
                 (map (fun x => (x, g x)) l) m)
    = Some (g k).
Proof.
  induction l as [|x l IH]; intros m k H.
  - destruct H as [[]|H]. exact H.
  - cbn [map fold_left fst snd]. apply IH.
    destruct (String.eqb k x) eqn:E.
    + apply String.eqb_eq in E. subst x. right. apply get_set_same.
    + apply String.eqb_neq in E. destruct H as [[H|H]|H].
      * congruence.
      * now left.
      * right. now rewrite get_set_other.
Qed.

Lemma get_fold_set_function_absent {V} (g : string -> V) (l : list string) :
  forall (m : JsMap.t V) (k : string),
    ~ In k l ->
    JsMap.get k
      (fold_left (fun m kv => JsMap.set (fst kv) (snd kv) m)
                 (map (fun x => (x, g x)) l) m)
    = JsMap.get k m.
Proof.
  intros m k H. apply get_fold_set_absent. now rewrite map_map, map_id.
Qed.

Lemma includesStr_In (l : list string) (x : string) :
  Js.includesStr l x = true <-> In x l.
Proof.
  unfold Js.includesStr. rewrite existsb_exists. split.
  - intros (y & Hy & E). apply String.eqb_eq in E. now subst.
  - intros H. exists x. split; [exact H | apply String.eqb_refl].
Qed.

Lemma includesStr_not_In (l : list string) (x : string) :
  Js.includesStr l x = false -> ~ In x l.
Proof.
  intros H Hin. apply includesStr_In in Hin. congruence.
Qed.

Lemma classNameMap_documented (X : Externals) (c : string) :
  isFixedClassName c = false ->
  In c (classesArray X) ->
  JsMap.get c (classNameMap X) = Some ("I" ++ toTitleCase c).
Proof.
  intros Hc Hin. apply includesStr_not_In in Hc.
  unfold classNameMap. rewrite get_fold_set_absent by exact Hc.
  unfold JsMap.fromList.
  apply (get_fold_set_function (fun x => "I" ++ toTitleCase x)). now left.
Qed.

(** X4: the eleven fixed names win over the documented classes: whatever the
    documentation declares, Error is Exception, boolean is bool, and so on;
    any other documented class is its title-cased name behind an I; and a
    name that is neither has no entry. *)
Theorem classNameMap_lookup (X : Externals) :
  Forall (fun kv => JsMap.get (fst kv) (classNameMap X) = Some (snd kv))
         fixedClassNames
  /\ (forall c, isFixedClassName c = false ->
        In c (classesArray X) ->
        JsMap.get c (classNameMap X) = Some ("I" ++ toTitleCase c))
  /\ (forall c, isFixedClassName c = false ->
        ~ In c (classesArray X) ->
        JsMap.get c (classNameMap X) = None).
Proof.
  split; [|split].
  - unfold fixedClassNames. repeat constructor; cbn [fst snd];
    unfold classNameMap; cbn [fold_left fst snd];
    repeat (rewrite get_set_other by discriminate); apply get_set_same.
  - apply classNameMap_documented.
  - intros c Hc Hin. apply includesStr_not_In in Hc.
    unfold classNameMap. rewrite get_fold_set_absent by exact Hc.
    unfold JsMap.fromList.
    now rewrite (get_fold_set_function_absent (fun x => "I" ++ toTitleCase x)).
Qed.

Lemma classNameMap_TimeoutError (X : Externals) :
  JsMap.get "TimeoutError" (classNameMap X) = Some "TimeoutException".
Proof.
  unfold classNameMap; cbn [fold_left fst snd];
  repeat (rewrite get_set_other by discriminate); apply get_set_same.
Qed.

(** ** [renderClass] *)

(** X5: the class TimeoutError is never emitted: none of its members is
    rendered, no file is written and the registries stay as they are. *)
Theorem renderClass_TimeoutError (X : Externals) (clazz : Class) (s : State) :
  className clazz = "TimeoutError" ->
  renderClass X clazz s = Ok None s.
Proof.
  intros Hn. unfold renderClass. rewrite Hn, classNameMap_TimeoutError.
  reflexivity.
Qed.

Lemma renderClass_TimeoutError_witness :
  renderClass (withClasses ["Page"; "TimeoutError"])
    (mkClass "TimeoutError" None (Some "Error") [titleMethod false] None)
    initialState
  = Ok None initialState.
Proof. now apply renderClass_TimeoutError. Defined.

(** X6: a class that extends EventEmitter is emitted exactly as the same
    class without a base class. *)
Theorem renderClass_EventEmitter (X : Externals) (n : string)
    (a : option string) (ms : list Member) (sp : option MarkdownNodes)
    (s : State) :
  renderClass X (mkClass n a (Some "EventEmitter") ms sp) s
  = renderClass X (mkClass n a None ms sp) s.
Proof. reflexivity. Qed.

(** X7: a class that extends any other class C is declared with the base
    list `: I` followed by the title-cased C, after its documentation and
    before its body in braces. *)
Theorem renderClass_declaration (X : Externals) (clazz : Class)
    (base n : string) (body : list string) (s s' : State) :
  JsMap.get (className clazz) (classNameMap X) = Some n ->
  n <> "TimeoutException" ->
  classExtends clazz = Some base ->
  base <> EmptyString ->
  toTitleCase base <> "EventEmitter" ->
  classSpec clazz <> None ->
  renderMembers X (membersArray clazz) (classParent clazz) s = Ok body s' ->
  renderClass X clazz s
  = Ok (Some (mkFile TypesDir (n ++ ".generated.cs")
                (renderXmlDoc X (classSpec clazz)
                 +++ ("public partial interface " ++ n ++ " : I"
                      ++ toTitleCase base)
                 :: "{" :: body +++ ["}"])))
       s'.
Proof.
  intros Hn Ht Hb Hbe Hee Hsp Hm. unfold renderClass.
  rewrite Hn. cbn [Js.isStr].
  apply String.eqb_neq in Ht. rewrite Ht.
  unfold bind. rewrite Hm, Hb.
  destruct base as [|c base]; [congruence|].
  cbn [Js.truthyOpt Js.truthy showUndefined].
  unfold writeFile.
  destruct (classSpec clazz) as [d|]; [|congruence].
  cbn [Js.isStr].
  assert (E : String.eqb ("I" ++ toTitleCase (String c base)) "IEventEmitter"
              = false).
  { apply String.eqb_neq. intros H. apply Hee.
    cbn [String.append] in H. now injection H. }
  rewrite E. cbn [Js.truthyOpt Js.truthy String.append showUndefined].
  reflexivity.
Qed.

Lemma renderClass_declaration_witness :
  renderClass (withClasses ["Page"]) (pageClass (Some "ChannelOwner"))
    initialState
  = Ok (Some (mkFile TypesDir "IPage.generated.cs"
                ["/// The page.";
                 "public partial interface IPage : IChannelOwner";
                 "{";
                 "/// The page title.";
                 "string Title { get; }";
                 EmptyString;
                 "}"]))
       initialState.
Proof.
  apply (renderClass_declaration (withClasses ["Page"])
           (pageClass (Some "ChannelOwner")) "ChannelOwner" "IPage"
           ["/// The page title."; "string Title { get; }"; EmptyString]
           initialState initialState);
    try reflexivity; discriminate.
Defined.

(** ** Links *)

(** X8: a link to a documented class whose name is not one of the fixed
    names refers to the very interface name under which [renderClass] writes
    the class. *)
Theorem linkRenderer_class (X : Externals) (c : string)
    (m : option Member) (o p : option string) :
  In c (classesArray X) ->
  isFixedClassName c = false ->
  exists n,
    JsMap.get c (classNameMap X) = Some n
    /\ linkRenderer (mkLinkItem (Some c) m o p)
       = inr ("<see cref=" ++ Js.quoted n ++ "/>").
Proof.
  intros Hin Hc. exists ("I" ++ toTitleCase c). split.
  - now apply classNameMap_documented.
  - reflexivity.
Qed.

(** ** The other rules of [translateType] *)

Lemma hasNoShortcut_split (t : Type_) :
  hasNoShortcut t = true ->
  Js.isStr (expression t) "[null]|[Error]" = false
  /\ Js.isStr (expression t) booleanOrMixed = false.
Proof.
  unfold hasNoShortcut. intros H. apply andb_prop in H.
  destruct H as [H1 H2]. apply negb_true_iff in H1, H2. auto.
Qed.

Lemma hasOrdinaryName_split (t : Type_) :
  hasOrdinaryName t = true ->
  String.eqb (name t) "Array" = false
  /\ String.eqb (name t) "Object" = false
  /\ String.eqb (name t) "Map" = false
  /\ String.eqb (name t) "function" = false.
Proof.
  unfold hasOrdinaryName, Js.includesStr. intros H.
  apply negb_true_iff in H. cbn [existsb] in H.
  repeat (apply orb_false_elim in H; destruct H as [? H]).
  repeat split; assumption.
Qed.

(** X9: a Map node is translated to a dictionary of the translations of its
    two templates, key first, and fails with the Map error when it has not
    exactly two templates, none at all included; a failure of a template is
    the failure of the node. *)
Theorem translateType_Map (X : Externals) (type : Type_) (parent : Parent)
    (cb : Type_ -> M string) (s : State) :
  name type = "Map" ->
  union type = None ->
  hasNoShortcut type = true ->
  (forall k v, templates type = Some [k; v] ->
     translateType X type parent cb s
     = match translateType X k parent cb s with
       | Ok keyType s1 =>
           match translateType X v parent cb s1 with
           | Ok valueType s2 =>
               Ok (Some ("Dictionary<" ++ Js.show keyType ++ ", "
                         ++ Js.show valueType ++ ">")) s2
           | Throw e => Throw e
           end
       | Throw e => Throw e
       end)
  /\ ((forall k v, templates type <> Some [k; v]) ->
      translateType X type parent cb s = Throw MapTemplatesError).
Proof.
  intros Hn Hu Hs. apply hasNoShortcut_split in Hs. destruct Hs as [H1 H2].
  destruct type as [n e u t a r p]. cbn [name union expression templates] in *.
  subst n u. split.
  - intros k v Ht. subst t.
    cbn [translateType expression union name templates].
    rewrite H1, H2. cbn [String.eqb Ascii.eqb Bool.eqb]. unfold bind.
    destruct (translateType X k parent cb s) as [kt s1|]; [|reflexivity].
    destruct (translateType X v parent cb s1); reflexivity.
  - intros Ht. cbn [translateType expression union name templates].
    rewrite H1, H2. cbn [String.eqb Ascii.eqb Bool.eqb].
    destruct t as [[|k [|v [|w t]]]|]; try reflexivity.
    exfalso. now apply (Ht k v).
Qed.

Lemma translateType_Map_witness :
  translateType plainExternals
    (templated "Map" [simpleType "string"; simpleType "boolean"]) page
    defaultNameCallback initialState
  = Ok (Some "Dictionary<string, bool>") initialState
  /\ translateType plainExternals (templated "Map" [simpleType "string"]) page
       defaultNameCallback initialState
     = Throw MapTemplatesError.
Proof.
  split.
  - destruct (translateType_Map plainExternals
                (templated "Map" [simpleType "string"; simpleType "boolean"])
                page defaultNameCallback initialState eq_refl eq_refl eq_refl)
      as [H _].
    rewrite (H _ _ eq_refl). reflexivity.
  - destruct (translateType_Map plainExternals
                (templated "Map" [simpleType "string"]) page
                defaultNameCallback initialState eq_refl eq_refl eq_refl)
      as [_ H].
    apply H. discriminate.
Defined.

(** X10: an Object node without properties and without exactly two templates
    is the type object: the naming callback is not called and no registry is
    touched. *)
Theorem translateType_bare_Object (X : Externals) (type : Type_)
    (parent : Parent) (cb : Type_ -> M string) (s : State) :
  name type = "Object" ->
  union type = None ->
  hasNoShortcut type = true ->
  properties type = None ->
  (forall k v, templates type <> Some [k; v]) ->
  translateType X type parent cb s = Ok (Some "object") s.
Proof.
  intros Hn Hu Hs Hp Ht. apply hasNoShortcut_split in Hs.
  destruct Hs as [H1 H2].
  destruct type as [n e u t a r p].
  cbn [name union expression templates properties] in *. subst n u p.
  cbn [translateType expression union name templates properties].
  rewrite H1, H2. cbn [String.eqb Ascii.eqb Bool.eqb].
  destruct t as [[|k [|v [|w t]]]|]; try reflexivity.
  exfalso. now apply (Ht k v).
Qed.

Lemma translateType_bare_Object_witness :
  translateType plainExternals (simpleType "Object") page
    (fun _ => throw NotSupported) initialState
  = Ok (Some "object") initialState.
Proof.
  apply translateType_bare_Object; try reflexivity. discriminate.
Defined.

Lemma translateType_object_by_callback (X : Externals) (type : Type_)
    (parent : Parent) (cb : Type_ -> M string) (s s1 : State)
    (objectName : string) :
  isObjectWithProperties type = true ->
  hasNoShortcut type = true ->
  (forall k v, templates type <> Some [k; v]) ->
  cb type s = Ok objectName s1 ->
  translateType X type parent cb s
  = if String.eqb objectName "Object" then Throw ObjectUnexpected
    else if Js.includesStr ["object"; "string"; "int"] objectName
    then Ok (Some objectName) s1
    else match JsMap.get objectName (modelTypes s1) with
         | Some _ => Ok (Some objectName) s1
         | None => Ok (Some objectName) (withModelType objectName type s1)
         end.
Proof.
  intros Ho Hs Ht Hcb. apply hasNoShortcut_split in Hs.
  destruct Hs as [H1 H2]. unfold isObjectWithProperties in Ho.
  apply andb_prop in Ho. destruct Ho as [Ho Hp].
  apply andb_prop in Ho. destruct Ho as [Hn Hu].
  destruct type as [n e u t a r p].
  cbn [name union expression templates properties] in *.
  destruct u; [discriminate|]. destruct p as [p|]; [|discriminate].
  cbn [translateType expression union name templates properties].
  rewrite H1, H2, Hn.
  apply String.eqb_eq in Hn. subst n.
  cbn [String.eqb Ascii.eqb Bool.eqb].
  assert (E : (objectName0 <- cb (mkType "Object" e None t a r (Some p)) ;;
               (if String.eqb objectName0 "Object" then throw ObjectUnexpected
                else registerModelType objectName0
                       (mkType "Object" e None t a r (Some p)) ;;;
                     ret (Some objectName0))) s
              = if String.eqb objectName "Object" then Throw ObjectUnexpected
                else if Js.includesStr ["object"; "string"; "int"] objectName
                then Ok (Some objectName) s1
                else match JsMap.get objectName (modelTypes s1) with
                     | Some _ => Ok (Some objectName) s1
                     | None =>
                         Ok (Some objectName)
                            (withModelType objectName
                               (mkType "Object" e None t a r (Some p)) s1)
                     end).
  { unfold bind at 1. rewrite Hcb.
    destruct (String.eqb objectName "Object"); [reflexivity|].
    unfold bind, registerModelType.
    destruct (Js.includesStr _ objectName); [reflexivity|].
    unfold bind, getModelTypes.
    destruct (JsMap.get objectName (modelTypes s1)); reflexivity. }
  destruct t as [[|k [|v [|w t]]]|]; try exact E.
  exfalso. now apply (Ht k v).
Qed.

(** X11: an Object node with properties takes the name its callback gives:
    the name Object is refused; one of object, string and int, or a name
    already in the registry, is returned with the registry as the callback
    left it; any other name is returned after the node is registered under
    it. *)
Theorem translateType_named_Object (X : Externals) (type : Type_)
    (parent : Parent) (cb : Type_ -> M string) (s s1 : State)
    (objectName : string) :
  isObjectWithProperties type = true ->
  hasNoShortcut type = true ->
  (forall k v, templates type <> Some [k; v]) ->
  cb type s = Ok objectName s1 ->
  translateType X type parent cb s
  = if String.eqb objectName "Object" then Throw ObjectUnexpected
    else if Js.includesStr ["object"; "string"; "int"] objectName
    then Ok (Some objectName) s1
    else match JsMap.get objectName (modelTypes s1) with
         | Some _ => Ok (Some objectName) s1
         | None => Ok (Some objectName) (withModelType objectName type s1)
         end.
Proof. apply translateType_object_by_callback. Qed.

Lemma translateType_named_Object_witness :
  translateType plainExternals (widthObject None) page
    (fun _ => ret "Viewport") initialState
  = Ok (Some "Viewport")
       (withModelType "Viewport" (widthObject None) initialState)
  /\ translateType plainExternals (widthObject None) page defaultNameCallback
       initialState
     = Throw ObjectUnexpected.
Proof.
  split.
  - rewrite (translateType_named_Object plainExternals (widthObject None) page
               (fun _ => ret "Viewport") initialState initialState "Viewport");
      try reflexivity. discriminate.
  - rewrite (translateType_named_Object plainExternals (widthObject None) page
               defaultNameCallback initialState initialState "Object");
      try reflexivity. discriminate.
Defined.

(** X12: inside a generic type the templates are translated with the default
    callback, not with the caller's: an Object node with properties as the
    only template always fails with the error for the name Object, whatever
    callback the caller gave. *)
Theorem translateType_generic_of_object (X : Externals) (type t0 : Type_)
    (parent : Parent) (cb : Type_ -> M string) (s : State) :
  hasNoShortcut type = true ->
  hasOrdinaryName type = true ->
  union type = None ->
  templates type = Some [t0] ->
  isObjectWithProperties t0 = true ->
  hasNoShortcut t0 = true ->
  (forall k v, templates t0 <> Some [k; v]) ->
  translateType X type parent cb s = Throw ObjectUnexpected.
Proof.
  intros Hs Hname Hu Ht Ho Hs0 Ht0.
  assert (H0 : translateType X t0 parent defaultNameCallback s
               = Throw ObjectUnexpected).
  { rewrite (translateType_object_by_callback X t0 parent defaultNameCallback s s
               (name t0) Ho Hs0 Ht0 eq_refl).
    unfold isObjectWithProperties in Ho.
    apply andb_prop in Ho. destruct Ho as [Ho _].
    apply andb_prop in Ho. destruct Ho as [Hn _]. now rewrite Hn. }
  apply hasNoShortcut_split in Hs. destruct Hs as [H1 H2].
  apply hasOrdinaryName_split in Hname.
  destruct Hname as (N1 & N2 & N3 & N4).
  destruct type as [n e u t a r p].
  cbn [name union expression templates] in *. subst u t.
  cbn [translateType expression union name templates].
  rewrite H1, H2, N1, N2, N3, N4.
  cbn [mapM]. unfold bind at 1. unfold bind at 1. rewrite H0. reflexivity.
Qed.

Lemma translateType_generic_of_object_witness :
  translateType plainExternals (templated "Promise" [widthObject None]) page
    (fun _ => ret "Viewport") initialState
  = Throw ObjectUnexpected.
Proof.
  apply (translateType_generic_of_object plainExternals
           (templated "Promise" [widthObject None]) (widthObject None));
    try reflexivity; discriminate.
Defined.

(** X13: a node with a plain name (no union, no templates, not Array,
    Object, Map or function) is translated to the entry of its name in the
    class name map, or to the name itself when there is none, without a
    change of state: a documented class becomes its interface, a fixed name
    its replacement. *)
Theorem translateType_plain_name (X : Externals) (type : Type_)
    (parent : Parent) (cb : Type_ -> M string) (s : State) :
  isPlainName type = true ->
  translateType X type parent cb s
  = Ok (Some (Js.orElse (JsMap.get (name type) (classNameMap X)) (name type)))
       s.
Proof.
  intros Hplain. unfold isPlainName in Hplain.
  apply andb_prop in Hplain. destruct Hplain as [Hplain Hname].
  apply andb_prop in Hplain. destruct Hplain as [Hplain Ht].
  apply andb_prop in Hplain. destruct Hplain as [Hs Hu].
  apply hasNoShortcut_split in Hs. destruct Hs as [H1 H2].
  apply hasOrdinaryName_split in Hname.
  destruct Hname as (N1 & N2 & N3 & N4).
  destruct type as [n e u t a r p].
  cbn [name union expression templates] in *.
  destruct u; [discriminate|]. destruct t; [discriminate|].
  cbn [translateType expression union name templates].
  rewrite H1, H2, N1, N2, N3, N4. reflexivity.
Qed.

Lemma translateType_plain_name_witness :
  translateType (withClasses ["Page"]) (simpleType "Page") page
    defaultNameCallback initialState = Ok (Some "IPage") initialState
  /\ translateType (withClasses ["Page"]) (simpleType "boolean") page
       defaultNameCallback initialState = Ok (Some "bool") initialState
  /\ translateType (withClasses ["Page"]) (simpleType "int") page
       defaultNameCallback initialState = Ok (Some "int") initialState.
Proof.
  split; [|split].
  - exact (translateType_plain_name (withClasses ["Page"]) (simpleType "Page")
             page defaultNameCallback initialState eq_refl).
  - exact (translateType_plain_name (withClasses ["Page"])
             (simpleType "boolean") page defaultNameCallback initialState
             eq_refl).
  - exact (translateType_plain_name (withClasses ["Page"]) (simpleType "int")
             page defaultNameCallback initialState eq_refl).
Defined.

(** ** More on the name synthesizer *)

Lemma filter_length_le {A} (f : A -> bool) (l : list A) :
  List.length (filter f l) <= List.length l.
Proof.
  induction l as [|x l IH]; simpl; [lia|]. destruct (f x); simpl; lia.
Qed.

Lemma filter_length_all {A} (f : A -> bool) (l : list A) :
  Nat.eqb (List.length (filter f l)) (List.length l) = forallb f l.
Proof.
  induction l as [|x l IH]; [reflexivity|]. cbn [filter forallb List.length].
  destruct (f x); cbn [List.length andb].
  - exact IH.
  - apply Nat.eqb_neq. pose proof (filter_length_le f l). lia.
Qed.

(** X14: [generateEnumNameIfApplicable] gives the declared name of a union
    exactly when every variant is a quoted literal, or every variant but a
    leading null marker is; it gives null for any other union and for a type
    that is not a union. *)
Theorem generateEnumNameIfApplicable_literal_union (type : Type_) :
  generateEnumNameIfApplicable type
  = match union type with
    | Some u => if isLiteralUnion u then Some (name type) else None
    | None => None
    end.
Proof.
  unfold generateEnumNameIfApplicable, isLiteralUnion.
  destruct (union type) as [u|]; [|reflexivity].
  fold isQuotedLiteral. change (fun v : Type_ => Js.startsWith (name v) Js.dq)
    with isQuotedLiteral.
  rewrite filter_length_all.
  destruct (forallb isQuotedLiteral u) eqn:Eall; [reflexivity|].
  cbn [negb andb orb]. destruct u as [|u0 r]; [discriminate Eall|].
  cbn [filter List.length]. cbn [forallb] in Eall.
  destruct (String.eqb (name u0) "null") eqn:En; [|reflexivity].
  cbn [andb].
  assert (Hq : isQuotedLiteral u0 = false).
  { apply String.eqb_eq in En. unfold isQuotedLiteral. now rewrite En. }
  rewrite Hq. replace (S (List.length r) - 1) with (List.length r) by lia.
  rewrite filter_length_all. destruct (forallb isQuotedLiteral r); reflexivity.
Qed.

(** X15: when the candidate of a property and the candidate behind the name
    of the parent are both taken by types that [typesDiffer] tells from the
    new one, the chain is exhausted and naming fails with the
    ran-out-of-names error: nothing is registered. *)
Theorem generateNameDefault_runs_out (member : Member) (name_ : string)
    (t tc td : Type_) (parent : Parent) (s : State) :
  isMethodOrProperty member = true ->
  isAnonymousObject t = true ->
  List.length (nameChain member name_ parent) = 2 ->
  JsMap.get (candidateName member name_ parent) (modelTypes s) = Some tc ->
  typesDiffer t tc = true ->
  JsMap.get (disambiguatedName member name_ parent) (modelTypes s) = Some td ->
  typesDiffer t td = true ->
  generateNameDefault member name_ t parent s
  = Throw (RanOutOfNames (disambiguatedName member name_ parent)).
Proof.
  intros Hk Ho Hlen Hc Hdc Hd Hdd.
  rewrite (generateNameDefault_object member name_ t parent Hk Ho).
  unfold candidateName, disambiguatedName, candidateName in *.
  destruct (nameChain member name_ parent) as [|p [|n [|x l]]];
    try discriminate Hlen.
  cbn [removelast rev app last] in *.
  rewrite (generateNameLoop_conflict p [] n t tc s Hc Hdc).
  cbn [generateNameLoop]. unfold bind, getModelTypes.
  rewrite Hd, Hdd. reflexivity.
Qed.

Lemma generateNameDefault_runs_out_witness :
  generateNameDefault (property "Alpha" "config" (simpleType "x")) "Config"
    (objectType None []) alpha
    (withModelType "AlphaConfig" (heightObject None)
       (withModelType "Config" (widthObject None) initialState))
  = Throw (RanOutOfNames "AlphaConfig").
Proof.
  apply (generateNameDefault_runs_out
           (property "Alpha" "config" (simpleType "x")) "Config"
           (objectType None []) (widthObject None) (heightObject None) alpha);
    reflexivity.
Defined.

(** Structural equality is reflexive. *)
Lemma option_eqb_refl {A} (f : A -> A -> bool) (o : option A) :
  option_all A (fun a => f a a = true) o -> option_eqb f o o = true.
Proof. intros H. destruct H; simpl; auto. Qed.

Lemma list_eqb_refl {A} (f : A -> A -> bool) (l : list A) :
  list_all A (fun a => f a a = true) l -> list_eqb f l l = true.
Proof.
  intros H. induction H as [|a Ha l Hl IH]; simpl; [reflexivity|].
  now rewrite Ha, IH.
Qed.

Lemma Type_Member_eqb_refl :
  (forall a, Type_eqb a a = true) /\ (forall m, Member_eqb m m = true).
Proof.
  apply Type_Member_ind.
  - intros n e u Hu t Ht a Ha r Hr p Hp.
    cbn [Type_eqb name expression union templates args returnType properties].
    rewrite String.eqb_refl.
    rewrite (option_eqb_refl String.eqb e)
      by (apply option_all_total; exact String.eqb_refl).
    rewrite (option_eqb_refl (list_eqb Type_eqb) u)
      by (destruct Hu; constructor; now apply list_eqb_refl).
    rewrite (option_eqb_refl (list_eqb Type_eqb) t)
      by (destruct Ht; constructor; now apply list_eqb_refl).
    rewrite (option_eqb_refl (list_eqb Type_eqb) a)
      by (destruct Ha; constructor; now apply list_eqb_refl).
    rewrite (option_eqb_refl Type_eqb r) by exact Hr.
    rewrite (option_eqb_refl (list_eqb Member_eqb) p)
      by (destruct Hp; constructor; now apply list_eqb_refl).
    reflexivity.
  - intros k n a t Ht r asy aa Haa sp cl.
    cbn [Member_eqb kind mname alias type required async argsArray spec clazz].
    rewrite String.eqb_refl, Ht, !Bool.eqb_reflx.
    rewrite (option_eqb_refl String.eqb a)
      by (apply option_all_total; exact String.eqb_refl).
    rewrite (list_eqb_refl Member_eqb aa) by exact Haa.
    rewrite (option_eqb_refl (list_eqb String.eqb) sp)
      by (apply option_all_total; intros l; apply list_eqb_refl;
          apply list_all_total; exact String.eqb_refl).
    rewrite (option_eqb_refl String.eqb cl)
      by (apply option_all_total; exact String.eqb_refl).
    destruct k; reflexivity.
Qed.

Lemma typesDiffer_same (t : Type_) : typesDiffer t t = false.
Proof.
  unfold typesDiffer. destruct (_ && _).
  - rewrite (option_eqb_refl String.eqb)
      by (apply option_all_total; exact String.eqb_refl).
    reflexivity.
  - unfold JSON_stringify_differ.
    rewrite (option_eqb_refl (list_eqb Member_eqb)); [reflexivity|].
    apply option_all_total. intros l. apply list_eqb_refl.
    apply list_all_total. exact (proj2 Type_Member_eqb_refl).
Qed.

(** X16: naming is idempotent on a type: once an object type has been named
    for a member, naming the very same type again for that member gives the
    same name and leaves the registries exactly as they were, so a type
    translated twice is declared once. *)
Theorem generateNameDefault_same_type_again (member : Member)
    (name_ : string) (t : Type_) (parent : Parent) (s s1 : State)
    (n : string) :
  isMethodOrProperty member = true ->
  isAnonymousObject t = true ->
  candidateName member name_ parent <> "Value" ->
  JsMap.get (candidateName member name_ parent) (modelTypes s) = None ->
  generateNameDefault member name_ t parent s = Ok n s1 ->
  n = candidateName member name_ parent
  /\ generateNameDefault member name_ t parent s1 = Ok n s1.
Proof.
  intros Hk Ho Hval Hfree H.
  rewrite (generateNameDefault_object member name_ t parent Hk Ho) in *.
  unfold candidateName in *.
  rewrite generateNameLoop_free in H by assumption.
  injection H as <- <-. split; [reflexivity|].
  apply String.eqb_neq in Hval.
  destruct (rev (removelast (nameChain member name_ parent)));
    cbn [generateNameLoop]; unfold bind, getModelTypes;
    cbn [withModelType modelTypes]; rewrite get_set_same, typesDiffer_same;
    cbn [orb Js.includesStr existsb]; rewrite Hval; cbn [orb];
    unfold setModelType, ret; cbn [modelTypes documentedResults enumTypes].
  all: unfold withModelType;
    cbn [modelTypes documentedResults enumTypes];
    rewrite set_set_same; reflexivity.
Qed.

Lemma generateNameDefault_same_type_again_witness :
  generateNameDefault (property "Alpha" "config" (widthObject None)) "Config"
    (widthObject None) alpha
    (withModelType "Config" (widthObject None) initialState)
  = Ok "Config" (withModelType "Config" (widthObject None) initialState).
Proof.
  apply (generateNameDefault_same_type_again
           (property "Alpha" "config" (widthObject None)) "Config"
           (widthObject None) alpha initialState); try reflexivity.
  discriminate.
Defined.

(** ** Names of members *)

Lemma substring_append_suffix (a b : string) :
  String.substring (String.length a) (String.length b) (a ++ b) = b.
Proof.
  induction a as [|c a IH]; cbn [String.length String.append].
  - induction b as [|c b IHb]; [reflexivity|].
    cbn [String.length String.substring]. now rewrite IHb.
  - cbn [String.substring]. exact IH.
Qed.

Lemma endsWith_append (a b : string) : Js.endsWith (a ++ b) b = true.
Proof.
  unfold Js.endsWith. rewrite string_length_append.
  replace (String.length a + String.length b - String.length b)
    with (String.length a) by lia.
  rewrite substring_append_suffix, String.eqb_refl.
  rewrite andb_true_r. apply Nat.leb_le. lia.
Qed.

(** X17: the display name of an asynchronous method always ends in Async,
    and the suffix is not added to a name that already has it; with
    omitAsync, or for a member that is not an asynchronous method, the name
    is the title-cased alias or name alone. *)
Theorem toMemberName_Async (member : Member) :
  let assumedName :=
    toTitleCase (Js.orElse (alias member) (mname member)) in
  (kind member = KMethod -> async member = true ->
   Js.endsWith (toMemberName member false) "Async" = true
   /\ (Js.endsWith assumedName "Async" = true ->
       toMemberName member false = assumedName))
  /\ (kind member <> KInterface ->
      toMemberName member true = assumedName)
  /\ (kind member <> KInterface -> async member = false ->
      toMemberName member false = assumedName).
Proof.
  intros assumedName. unfold toMemberName. fold assumedName.
  split; [|split].
  - intros Hk Ha. rewrite Hk, Ha. cbn [negb andb Kind_eqb].
    destruct (Js.endsWith assumedName "Async") eqn:E; cbn [negb].
    + split; [exact E | reflexivity].
    + split; [apply endsWith_append | discriminate].
  - intros Hk. destruct (kind member); [reflexivity.. | congruence].
  - intros Hk Ha. rewrite Ha.
    destruct (kind member); try reflexivity; try congruence.
Qed.

(** ** Parameter documentation *)

(** X18: a parameter is documented once: after [addParamsDoc] has filed a
    name, filing the same name again fails, with or without the at sign in
    front of it. *)
Theorem addParamsDoc_once (n : string) (d d' : list string)
    (L L1 : Locals.t) (s s1 : State) :
  Js.startsWith n "@" = false ->
  addParamsDoc n d L s = Ok L1 s1 ->
  addParamsDoc n d' L1 s1 = Throw (ParameterAlreadyDocumented n)
  /\ addParamsDoc ("@" ++ n) d' L1 s1 = Throw (ParameterAlreadyDocumented n).
Proof.
  intros Hat H. unfold addParamsDoc in *. rewrite Hat in *.
  destruct (JsMap.get n (Locals.paramDocs L)); [discriminate H|].
  apply ret_Ok in H. destruct H as [-> ->].
  cbn [Locals.paramDocs Js.startsWith String.prefix String.append].
  destruct (ascii_dec "@" "@") as [_|E]; [|congruence].
  replace (String.prefix EmptyString n) with true by (destruct n; reflexivity).
  cbn [Js.substringFrom]. rewrite get_set_same. split; reflexivity.
Qed.

Lemma addParamsDoc_once_witness :
  exists L1,
    addParamsDoc "event" ["The event."] emptyLocals initialState
    = Ok L1 initialState
    /\ addParamsDoc "@event" ["Again."] L1 initialState
       = Throw (ParameterAlreadyDocumented "event").
Proof.
  eexists. split; [reflexivity|].
  apply (addParamsDoc_once "event" ["The event."] ["Again."] emptyLocals _
           initialState initialState eq_refl eq_refl).
Defined.

(** ** Ordinary parameters *)

Lemma processArg_ordinary (X : Externals) (member : Member) (parent : Parent)
    (arg : Member) (L : Locals.t) (s s1 : State) (ty : string) :
  mname arg <> "options" ->
  hasFixedSplit arg = false ->
  translateType X (type arg) parent
    (fun t => generateNameDefault member (argumentName arg) t parent) s
  = Ok (Some ty) s1 ->
  processArg X member parent arg L s
  = (L0 <- addParamsDoc (argumentName arg) (renderTextOnly X (spec arg)) L ;;
     (if String.eqb (argumentName arg) "timeout" && String.eqb ty "decimal"
      then ret (pushRaw "int timeout = 0" L0)
      else ret (pushArg (Some ty) (argumentName arg) arg false L0))) s1.
Proof.
  intros Hn Hf Ht. unfold hasFixedSplit in Hf.
  apply orb_false_elim in Hf. destruct Hf as [F1 F2].
  apply String.eqb_neq in Hn. unfold argumentName in *.
  destruct arg as [k n a t r asy aa sp cl].
  cbn [mname type alias spec] in *.
  cbn [processArg mname type alias spec]. rewrite Hn, F1, F2.
  unfold bind at 1. rewrite Ht. reflexivity.
Qed.

(** X19: a parameter rendered under the name timeout whose type translates
    to decimal becomes `int timeout = 0`, whether it is required or not; it
    is documented, but no entry is made for it in the map from rendered
    arguments to names. *)
Theorem processArg_timeout (X : Externals) (member : Member) (parent : Parent)
    (arg : Member) (L : Locals.t) (s s1 : State) :
  hasFixedSplit arg = false ->
  argumentName arg = "timeout" ->
  mname arg <> "options" ->
  translateType X (type arg) parent
    (fun t => generateNameDefault member "timeout" t parent) s
  = Ok (Some "decimal") s1 ->
  JsMap.get "timeout" (Locals.paramDocs L) = None ->
  processArg X member parent arg L s
  = Ok (Locals.mk (Locals.args L +++ ["int timeout = 0"])
                  (Locals.explodedArgs L)
                  (Locals.argTypeMap L)
                  (JsMap.set "timeout" (renderTextOnly X (spec arg))
                             (Locals.paramDocs L)))
       s1.
Proof.
  intros Hf Hname Hn Ht Hd.
  rewrite (processArg_ordinary X member parent arg L s s1 "decimal" Hn Hf)
    by (rewrite Hname; exact Ht).
  rewrite Hname. unfold bind, addParamsDoc.
  cbn [Js.startsWith String.prefix]. destruct (ascii_dec _ _); [discriminate|].
  rewrite Hd. reflexivity.
Qed.

Lemma processArg_timeout_witness :
  processArg plainExternals (titleMethod true) page (timeoutParam true None)
    emptyLocals initialState
  = Ok (Locals.mk ["int timeout = 0"] [] [] [("timeout", [])]) initialState
  /\ processArg plainExternals (titleMethod true) page
       (timeoutParam false None) emptyLocals initialState
     = Ok (Locals.mk ["int timeout = 0"] [] [] [("timeout", [])]) initialState.
Proof.
  split;
    apply (processArg_timeout plainExternals (titleMethod true) page
             (timeoutParam _ None) emptyLocals initialState initialState);
    try reflexivity; discriminate.
Defined.

(** X20: any other ordinary parameter is rendered as its translated type and
    its name: alone when it is required; with ` = default` when it is
    optional, and with a question mark after the type when the type is one
    of int, bool, decimal and float.  Its rendering is mapped to its name
    and its documentation is filed under the name. *)
Theorem processArg_plain (X : Externals) (member : Member) (parent : Parent)
    (arg : Member) (L : Locals.t) (s s1 : State) (ty : string) :
  hasFixedSplit arg = false ->
  mname arg <> "options" ->
  translateType X (type arg) parent
    (fun t => generateNameDefault member (argumentName arg) t parent) s
  = Ok (Some ty) s1 ->
  String.eqb (argumentName arg) "timeout" && String.eqb ty "decimal" = false ->
  JsMap.get (docKey (argumentName arg)) (Locals.paramDocs L) = None ->
  let rendered :=
    if required arg then ty ++ " " ++ argumentName arg
    else if Js.includesStr nullableTypes ty
    then ty ++ "? " ++ argumentName arg ++ " = default"
    else ty ++ " " ++ argumentName arg ++ " = default" in
  processArg X member parent arg L s
  = Ok (Locals.mk (Locals.args L +++ [rendered])
                  (Locals.explodedArgs L)
                  (JsMap.set rendered (argumentName arg) (Locals.argTypeMap L))
                  (JsMap.set (docKey (argumentName arg))
                             (renderTextOnly X (spec arg))
                             (Locals.paramDocs L)))
       s1.
Proof.
  intros Hf Hn Ht Hto Hd rendered.
  rewrite (processArg_ordinary X member parent arg L s s1 ty Hn Hf Ht).
  rewrite Hto. unfold bind, addParamsDoc. fold (docKey (argumentName arg)).
  rewrite Hd. unfold ret, pushArg.
  cbn [Locals.args Locals.explodedArgs Locals.argTypeMap Locals.paramDocs
       Js.show orb].
  rewrite orb_false_r.
  assert (E : ty ++ (if required arg then EmptyString
                     else if Js.includesStr nullableTypes ty then "?"
                          else EmptyString)
              ++ " " ++ argumentName arg
              ++ (if required arg then EmptyString else " = default")
              = rendered).
  { unfold rendered. destruct (required arg).
    - cbn [String.append]. now rewrite append_empty_r.
    - destruct (Js.includesStr nullableTypes ty); reflexivity. }
  rewrite E. reflexivity.
Qed.

Lemma processArg_plain_witness :
  processArg plainExternals (titleMethod true) page
    (param "count" (simpleType "int") false None) emptyLocals initialState
  = Ok (Locals.mk ["int? count = default"] []
          [("int? count = default", "count")] [("count", [])])
       initialState.
Proof.
  apply (processArg_plain plainExternals (titleMethod true) page
           (param "count" (simpleType "int") false None) emptyLocals
           initialState initialState "int");
    try reflexivity. discriminate.
Defined.

(** ** The options parameter *)

Lemma foldM_app {A S} (f : S -> A -> M S) (l1 l2 : list A) (a : S)
    (s : State) :
  foldM f (l1 ++ l2) a s = (a' <- foldM f l1 a ;; foldM f l2 a') s.
Proof.
  revert a s. induction l1 as [|x l1 IH]; intros a s.
  - reflexivity.
  - cbn [app foldM]. unfold bind.
    destruct (f a x s) as [a1 s1|e]; [|reflexivity].
    rewrite IH. reflexivity.
Qed.

Lemma bind_ext {A B} (c : M A) (k k' : A -> M B) (s : State) :
  (forall a s1, k a s1 = k' a s1) -> bind c k s = bind c k' s.
Proof. intros H. unfold bind. destruct (c s); [apply H | reflexivity]. Qed.

Lemma forEach_foldM {A S} (f : A -> S -> M S) (l : list A) :
  forall (a : S) (s : State),
    (fix forEach (l : list A) (a : S) {struct l} : M S :=
       match l with
       | [] => ret a
       | p :: r => a' <- f p a ;; forEach r a'
       end) l a s
    = foldM (fun a p => f p a) l a s.
Proof.
  induction l as [|p l IH]; intros a s; [reflexivity|].
  cbn [foldM]. apply bind_ext. exact IH.
Qed.

Lemma processArg_options (X : Externals) (member : Member) (parent : Parent)
    (arg : Member) (props : list Member) (L : Locals.t) (s : State) :
  mname arg = "options" ->
  properties (type arg) = Some props ->
  processArg X member parent arg L s
  = foldM (fun L p => processArg X member parent p L) props L s.
Proof.
  intros Hn Hp. destruct arg as [k n a t r asy aa sp cl].
  cbn [mname type] in *. subst n.
  cbn [processArg mname type]. rewrite Hp.
  cbn [String.eqb Ascii.eqb Bool.eqb].
  apply (forEach_foldM (fun p L => processArg X member parent p L)).
Qed.

(** X21: a parameter named options is flattened: processing a list of
    parameters that holds it is processing the list with the properties of
    its type in its place, in their order; options inside options are
    flattened the same way.  An options parameter whose type has no
    properties is a TypeError. *)
Theorem processArg_options_flattened (X : Externals) (member : Member)
    (parent : Parent) (before after : list Member) (arg : Member)
    (L : Locals.t) (s : State) :
  mname arg = "options" ->
  (forall props, properties (type arg) = Some props ->
     foldM (fun L p => processArg X member parent p L)
           (before ++ arg :: after) L s
     = foldM (fun L p => processArg X member parent p L)
             (before ++ props ++ after) L s)
  /\ (properties (type arg) = None ->
      processArg X member parent arg L s = Throw TypeError).
Proof.
  intros Hn. split.
  - intros props Hp.
    rewrite !foldM_app. unfold bind.
    destruct (foldM _ before L s) as [L1 s1|e]; [|reflexivity].
    rewrite foldM_app. cbn [foldM]. unfold bind.
    now rewrite (processArg_options X member parent arg props L1 s1 Hn Hp).
  - intros Hp. destruct arg as [k n a t r asy aa sp cl].
    cbn [mname type] in *. subst n.
    cbn [processArg mname type]. now rewrite Hp.
Qed.

Lemma processArg_options_flattened_witness :
  foldM (fun L p => processArg plainExternals (titleMethod true) page p L)
        [idParam None; optionsParam [timeoutParam false None]]
        emptyLocals initialState
  = foldM (fun L p => processArg plainExternals (titleMethod true) page p L)
          [idParam None; timeoutParam false None]
          emptyLocals initialState.
Proof.
  destruct (processArg_options_flattened plainExternals (titleMethod true)
              page [idParam None] [] (optionsParam [timeoutParam false None])
              emptyLocals initialState eq_refl) as [H _].
  exact (H [timeoutParam false None] eq_refl).
Defined.

(** ** A union parameter beside the timeout parameter *)

(** X22: a method with a union parameter that is exploded and a timeout
    parameter under the integer override cannot be rendered: the override
    pushes `int timeout = 0` without an entry in the map from rendered
    arguments to names, and building the overloads fails with a TypeError on
    its missing documentation. *)
Theorem renderMethod_union_beside_timeout (X : Externals) (member : Member)
    (parent : Parent) (name_ : string) (s s' : State) (ty : option string)
    (req reqT : bool) (valueSpec timeoutSpec : option MarkdownNodes) :
  argsArray member = [valueParam req valueSpec; timeoutParam reqT timeoutSpec] ->
  methodReturnType X member parent s = Ok ty s' ->
  JsMap.get "string" (classNameMap X) = None ->
  JsMap.get "number" (classNameMap X) = None ->
  JsMap.get "decimal" (classNameMap X) = None ->
  takesWaitForAction (genericName ty name_) = false ->
  renderMethod X member parent name_ s = Throw TypeError.
Proof.
  intros Hargs Hret Hstr Hnum Hdec Hwait.
  unfold renderMethod, bind. rewrite Hret, Hargs.
  cbn [List.length Nat.eqb andb].
  fold (genericName ty name_). fold (asyncType member ty).
  assert (Hfold :
    foldM (fun L arg => processArg X member parent arg L)
      (sortArgs X [valueParam req valueSpec; timeoutParam reqT timeoutSpec])
      (Locals.mk [] [] JsMap.empty JsMap.empty) s'
    = Ok (Locals.mk
            [if req then "EXPLODED_ARG" else "OPTIONAL_EXPLODED_ARG";
             "int timeout = 0"]
            ["string valueString"; "number valueNumber"]
            [("string valueString", "valueString");
             ("number valueNumber", "valueNumber")]
            [("valueString", renderTextOnly X valueSpec);
             ("valueNumber", renderTextOnly X valueSpec);
             ("timeout", renderTextOnly X timeoutSpec)]) s').
  { destruct req.
    all: cbv - [JsMap.get classNameMap renderTextOnly]; rewrite Hstr.
    all: cbv - [JsMap.get classNameMap renderTextOnly]; rewrite Hnum.
    all: cbv - [JsMap.get classNameMap renderTextOnly]; rewrite Hdec.
    all: cbv - [renderTextOnly]; reflexivity. }
  rewrite Hfold. unfold addWaitForAction.
  fold (takesWaitForAction (genericName ty name_)).
  rewrite Hwait. unfold ret at 1. cbn [Locals.explodedArgs].
  destruct req;
    cbv - [renderXmlDoc renderTextOnly signature printArgDoc asyncType
           genericName spec mname app];
    reflexivity.
Qed.

Lemma renderMethod_union_beside_timeout_witness :
  renderMethod plainExternals
    (method "setValue" (simpleType "void") false
       [valueParam true None; timeoutParam false None] None)
    page "SetValue" initialState
  = Throw TypeError.
Proof.
  apply (renderMethod_union_beside_timeout plainExternals _ page "SetValue"
           initialState initialState (Some "void") true false None None);
    reflexivity.
Defined.

(** ** Properties and events *)

(** X23: a property whose type is translated to null, such as a union
    without a name that fits no fixed shape, cannot be rendered: testing the
    end of the translated type is a TypeError.  (The property named children
    is the exception: its type is replaced before the test.) *)
Theorem renderMember_property_of_null (X : Externals) (member : Member)
    (parent : Parent) (s s1 : State) :
  kind member = KProperty ->
  mname member <> "children" ->
  translateType X (type member) parent
    (fun t => generateNameDefault member (toMemberName member false) t parent)
    s = Ok None s1 ->
  renderMember X member parent s = Throw TypeError.
Proof.
  intros Hk Hc Ht. unfold renderMember. cbv zeta. rewrite Hk.
  unfold bind at 1. unfold bind at 1. rewrite Ht.
  apply String.eqb_neq in Hc. rewrite Hc. reflexivity.
Qed.

Lemma renderMember_property_of_null_witness :
  renderMember plainExternals (property "Alpha" "value" stringOrNumber) alpha
    initialState
  = Throw TypeError.
Proof.
  apply (renderMember_property_of_null plainExternals
           (property "Alpha" "value" stringOrNumber) alpha initialState
           initialState); try reflexivity. discriminate.
Defined.

Lemma suffixed_not_reserved (x suffix : string) :
  6 < String.length suffix \/ (x <> EmptyString /\ 6 <= String.length suffix) ->
  String.eqb (x ++ suffix) "Object" = false
  /\ Js.includesStr ["object"; "string"; "int"] (x ++ suffix) = false.
Proof.
  intros H.
  assert (L : 6 < String.length (x ++ suffix)).
  { rewrite string_length_append. destruct H as [H|[Hx H]]; [lia|].
    destruct x; [congruence|]. simpl. lia. }
  assert (N : forall y, String.length y <= 6 -> String.eqb (x ++ suffix) y = false).
  { intros y Hy. apply String.eqb_neq. intros E. rewrite E in L. lia. }
  split; [apply N; simpl; lia|].
  unfold Js.includesStr. cbn [existsb].
  rewrite !N by (simpl; lia). reflexivity.
Qed.

Lemma result_not_reserved (x : string) :
  String.eqb (x ++ "Result") "Object" = false
  /\ Js.includesStr ["object"; "string"; "int"] (x ++ "Result") = false.
Proof.
  destruct x as [|c x]; [split; reflexivity|].
  apply suffixed_not_reserved. right. split; [discriminate | simpl; lia].
Qed.

(** X24: an event whose payload is an object type with properties is
    rendered as an event handler over a type named after the event with
    Payload behind it, and the payload type is registered under that name
    unless the name is already taken. *)
Theorem renderMember_event_payload (X : Externals) (member : Member)
    (parent : Parent) (s : State) :
  kind member = KEvent ->
  isObjectWithProperties (type member) = true ->
  hasNoShortcut (type member) = true ->
  (forall k v, templates (type member) <> Some [k; v]) ->
  Js.isStr (expression (type member)) "[Object]" = false ->
  let name_ := toMemberName member false in
  renderMember X member parent s
  = Ok (memberDocs X member
        +++ ["event EventHandler<" ++ name_ ++ "Payload> " ++ name_ ++ ";"]
        +++ [EmptyString])
       (match JsMap.get (name_ ++ "Payload") (modelTypes s) with
        | Some _ => s
        | None => withModelType (name_ ++ "Payload") (type member) s
        end).
Proof.
  intros Hk Ho Hs Ht He name_.
  assert (Hcb : generateNameDefault member name_ (type member) parent s
                = Ok (name_ ++ "Payload") s).
  { unfold generateNameDefault, generateEnumNameIfApplicable.
    unfold isObjectWithProperties in Ho.
    apply andb_prop in Ho. destruct Ho as [Ho Hp].
    apply andb_prop in Ho. destruct Ho as [_ Hu].
    destruct (properties (type member)); [|discriminate].
    destruct (union (type member)); [discriminate|].
    cbn [Js.truthyOpt negb]. rewrite Hk. reflexivity. }
  destruct (suffixed_not_reserved name_ "Payload") as [N1 N2];
    [left; simpl; lia|].
  unfold renderMember. cbv zeta. fold name_. rewrite Hk.
  unfold bind at 1. unfold bind at 1.
  rewrite (translateType_object_by_callback X (type member) parent _ s s
             (name_ ++ "Payload") Ho Hs Ht Hcb).
  rewrite N1, N2. unfold memberDocs.
  destruct (JsMap.get (name_ ++ "Payload") (modelTypes s));
    unfold ret; cbn [Js.show]; rewrite <- app_assoc, string_append_assoc;
    reflexivity.
Qed.

Lemma renderMember_event_payload_witness :
  renderMember plainExternals (eventMember "resize" (widthObject None)) page
    initialState
  = Ok ["event EventHandler<ResizePayload> Resize;"; EmptyString]
       (withModelType "ResizePayload" (widthObject None) initialState).
Proof.
  apply (renderMember_event_payload plainExternals
           (eventMember "resize" (widthObject None)) page initialState);
    try reflexivity. discriminate.
Defined.

(** ** Return types of methods *)

(** X25: a method that returns an object type with properties gets a result
    type named after the class and the method, with Result behind: the name
    is documented as the result of calling the method, and the type is
    registered under it unless the name is already taken. *)
Theorem methodReturnType_result (X : Externals) (member : Member)
    (parent : Parent) (s : State) :
  isObjectWithProperties (type member) = true ->
  hasNoShortcut (type member) = true ->
  (forall k v, templates (type member) <> Some [k; v]) ->
  Js.isStr (expression (type member)) stringDictionary = false ->
  JsMap.get "Object" (classNameMap X) = None ->
  let n := resultName member parent in
  let documented :=
    withDocumentedResult n
      ("Result of calling <see cref=" ++ Js.dq ++ "I"
       ++ toTitleCase (parentName parent) ++ "." ++ toMemberName member false
       ++ Js.dq ++ "/>.") s in
  methodReturnType X member parent s
  = Ok (Some n)
       (match JsMap.get n (modelTypes s) with
        | Some _ => documented
        | None => withModelType n (type member) documented
        end).
Proof.
  intros Ho Hs Ht He Hc n documented.
  pose proof Ho as Ho'. unfold isObjectWithProperties in Ho'.
  apply andb_prop in Ho'. destruct Ho' as [Ho' Hp].
  apply andb_prop in Ho'. destruct Ho' as [Hn Hu].
  apply String.eqb_eq in Hn.
  destruct (result_not_reserved
              (parentName parent ++ toMemberName member true)) as [N1 N2].
  assert (En : n = parentName parent ++ toMemberName member true ++ "Result")
    by reflexivity.
  rewrite string_append_assoc in N1, N2. rewrite <- En in N1, N2.
  assert (Hres : resolveType X member parent (type member) s
                 = Ok (Some n)
                      (match JsMap.get n (modelTypes s) with
                       | Some _ => documented
                       | None => withModelType n (type member) documented
                       end)).
  { unfold resolveType.
    rewrite (translateType_object_by_callback X (type member) parent _ s
               documented n Ho Hs Ht eq_refl).
    rewrite N1, N2.
    replace (modelTypes documented) with (modelTypes s) by reflexivity.
    destruct (JsMap.get n (modelTypes s)); reflexivity. }
  unfold methodReturnType. rewrite Hn.
  cbn [String.eqb Ascii.eqb Bool.eqb orb].
  unfold bind at 1. unfold bind at 1. cbn [ret].
  fold stringDictionary. rewrite He.
  destruct (properties (type member)); [|discriminate Hp].
  cbn [negb andb]. rewrite Hn, Hc. cbn [Js.truthyOpt].
  unfold bind at 1. rewrite Hres.
  destruct (JsMap.get n (modelTypes s)); cbn [ret];
    replace (Js.truthyOpt (Some n)) with true; try reflexivity.
  all: symmetry; destruct n eqn:E; [|reflexivity].
  all: apply (f_equal String.length) in En;
    rewrite !string_length_append in En; simpl in En; lia.
Qed.

Lemma methodReturnType_result_witness :
  methodReturnType plainExternals
    (method "viewportSize" (widthObject None) false [] None) page initialState
  = Ok (Some "PageViewportSizeResult")
       (withModelType "PageViewportSizeResult" (widthObject None)
          (withDocumentedResult "PageViewportSizeResult"
             ("Result of calling <see cref=" ++ Js.quoted "IPage.ViewportSize"
              ++ "/>.")
             initialState)).
Proof.
  apply (methodReturnType_result plainExternals
           (method "viewportSize" (widthObject None) false [] None) page
           initialState); try reflexivity. discriminate.
Defined.

(** X26: the return type of a method is not always what [translateType]
    gives: a method that returns an Object without properties returns
    dynamic, and a method that returns an Array whose first template is a
    name of the class name map returns a read-only collection of the mapped
    name, even when the Array has more templates than one; neither touches a
    registry. *)
Theorem methodReturnType_special (X : Externals) (member : Member)
    (parent : Parent) (s : State) :
  (name (type member) = "Object" ->
   properties (type member) = None ->
   Js.isStr (expression (type member)) stringDictionary = false ->
   methodReturnType X member parent s = Ok (Some "dynamic") s)
  /\ (forall t0 rest c,
        name (type member) = "Array" ->
        templates (type member) = Some (t0 :: rest) ->
        Js.isStr (expression t0) stringDictionary = false ->
        JsMap.get (name t0) (classNameMap X) = Some c ->
        c <> EmptyString ->
        methodReturnType X member parent s
        = Ok (Some ("IReadOnlyCollection<" ++ c ++ ">")) s).
Proof.
  split.
  - intros Hn Hp He. unfold methodReturnType. rewrite Hn.
    cbn [String.eqb Ascii.eqb Bool.eqb orb].
    unfold bind at 1. unfold bind at 1. cbn [ret].
    fold stringDictionary. rewrite He, Hp. reflexivity.
  - intros t0 rest c Hn Ht He Hc Hne. unfold methodReturnType. rewrite Hn, Ht.
    cbn [String.eqb Ascii.eqb Bool.eqb orb defined nth_error].
    unfold bind, defined, ret. cbv beta iota zeta. fold stringDictionary.
    rewrite He. cbn [negb andb].
    rewrite Hc. destruct c as [|x c]; [congruence|].
    reflexivity.
Qed.

(** ** Enum bodies *)

Lemma customTypeNames_truthy (word w : string) :
  JsMap.get word customTypeNames = Some w -> Js.truthy w = true.
Proof.
  unfold customTypeNames. cbn.
  repeat (match goal with
          | |- context [if String.eqb word ?k then _ else _] =>
              destruct (String.eqb word k)
          end; [intros H; injection H as <-; reflexivity|]).
  discriminate.
Qed.

Lemma word_renders (word : string) :
  match JsMap.get word customTypeNames with
  | Some w => if Js.truthy w then Some w else Js.capitalizeIdx word
  | None => Js.capitalizeIdx word
  end = None <-> word = EmptyString.
Proof.
  split.
  - destruct (JsMap.get word customTypeNames) as [w|] eqn:E.
    + rewrite (customTypeNames_truthy word w E). discriminate.
    + destruct word; [reflexivity | discriminate].
  - intros ->. reflexivity.
Qed.

Lemma includesNull_words (words : list string) :
  includesNull
    (map (fun word =>
            match JsMap.get word customTypeNames with
            | Some w => if Js.truthy w then Some w else Js.capitalizeIdx word
            | None => Js.capitalizeIdx word
            end) words) = true
  <-> In EmptyString words.
Proof.
  unfold includesNull. rewrite existsb_exists. split.
  - intros (o & Hin & Ho). apply in_map_iff in Hin.
    destruct Hin as (word & <- & Hin).
    destruct (match JsMap.get word customTypeNames with
              | Some w => _ | None => _ end) eqn:E; [discriminate|].
    apply word_renders in E. now subst.
  - intros Hin. exists None. split; [|reflexivity].
    apply in_map_iff. exists EmptyString. split; [reflexivity | exact Hin].
Qed.

(** X27: [renderEnum] fails, with a TypeError, exactly when some literal has
    an empty word once its quotes are removed and its dashes are spaces: an
    empty literal, or one that starts or ends with a dash or a space or has
    two in a row.  Otherwise the body is the line for the zero value and two
    lines for each literal. *)
Theorem renderEnum_fails_on_empty_word (literals : list string) :
  (renderEnum literals = None
   <-> exists l, In l literals /\ In EmptyString (literalWords l))
  /\ (forall body, renderEnum literals = Some body ->
        List.length body = 1 + 2 * List.length literals
        /\ hd EmptyString body = "Undefined = 0,").
Proof.
  assert (Hlit : (renderEnumLiterals literals = None
                  <-> exists l, In l literals /\ In EmptyString (literalWords l))
                 /\ (forall body, renderEnumLiterals literals = Some body ->
                       List.length body = 2 * List.length literals)).
  { induction literals as [|l r [IH1 IH2]].
    - split.
      + split; [discriminate | intros (l & [] & _)].
      + intros body H. injection H as <-. reflexivity.
    - cbn [renderEnumLiterals]. fold (literalWords l).
      destruct (includesNull _) eqn:E.
      + apply includesNull_words in E. split.
        * split; [|reflexivity]. intros _. exists l. split; [now left|exact E].
        * discriminate.
      + assert (E' : ~ In EmptyString (literalWords l)).
        { intros Hin. apply includesNull_words in Hin. congruence. }
        destruct (renderEnumLiterals r) as [b|].
        * split.
          -- split; [discriminate|]. intros (l' & [<-|Hin] & Hw).
             ++ contradiction.
             ++ exfalso. assert (Hb : Some b = None) by (apply IH1; now exists l').
                discriminate Hb.
          -- intros body H. injection H as <-. cbn [List.length].
             rewrite (IH2 b eq_refl). lia.
        * split.
          -- split; [|reflexivity]. intros _.
             destruct (proj1 IH1 eq_refl) as (l' & Hin & Hw).
             exists l'. split; [now right | exact Hw].
          -- discriminate. }
  destruct Hlit as [H1 H2]. unfold renderEnum. split.
  - rewrite <- H1. destruct (renderEnumLiterals literals); simpl;
      split; congruence.
  - intros body H. destruct (renderEnumLiterals literals) as [b|];
      [|discriminate]. injection H as <-. cbn [List.length hd].
    rewrite (H2 b eq_refl). split; [lia | reflexivity].
Qed.

(** ** What the registry operations keep *)

(** X28: [registerModelType] never replaces or removes an entry: it always
    succeeds, every entry present before is present with the same type
    after, and under the names object, string and int nothing is added. *)
Theorem registerModelType_never_replaces (typeName : string) (type : Type_)
    (s : State) :
  exists s',
    registerModelType typeName type s = Ok tt s'
    /\ (Js.includesStr ["object"; "string"; "int"] typeName = true -> s' = s)
    /\ forall k v, JsMap.get k (modelTypes s) = Some v ->
                   JsMap.get k (modelTypes s') = Some v.
Proof. apply registerModelType_preserves. Qed.

(** X29: the loop of the name synthesizer touches one entry at most: the
    entry of the name it returns.  Every other entry keeps its type; the
    entry of the returned name is replaced only when [typesDiffer] does not
    tell the new type from the one stored there. *)
Theorem generateNameLoop_touches_one_entry (names : list string) (t : Type_)
    (a : string) (s s' : State) (n : string) :
  generateNameLoop names a t s = Ok n s' ->
  forall k v, JsMap.get k (modelTypes s) = Some v ->
    JsMap.get k (modelTypes s') = Some v
    \/ (k = n /\ typesDiffer t v = false
        /\ JsMap.get k (modelTypes s') = Some t).
Proof. apply generateNameLoop_preserves. Qed.

Lemma generateNameLoop_touches_one_entry_witness :
  JsMap.get "Config" (modelTypes
    (withModelType "AlphaConfig" (heightObject None)
       (withModelType "Config" (widthObject None) initialState)))
  = Some (widthObject None).
Proof.
  destruct (generateNameLoop_touches_one_entry ["Alpha"] (heightObject None)
              "Config"
              (withModelType "Config" (widthObject None) initialState)
              (withModelType "AlphaConfig" (heightObject None)
                 (withModelType "Config" (widthObject None) initialState))
              "AlphaConfig" eq_refl "Config" (widthObject None) eq_refl)
    as [H|(H & _)].
  - exact H.
  - discriminate H.
Defined.

(** X30: when some rendered argument has a default, the action parameter of
    a WaitFor method is inserted right before the first such argument, the
    arguments before and after keeping their order; the exploded arguments
    are left alone. *)
Theorem addWaitForAction_first_default (name_ : string) (L : Locals.t)
    (pre post : list string) (a : string) (s : State) :
  takesWaitForAction name_ = true ->
  Locals.args L = (pre ++ a :: post)%list ->
  Forall (fun x => Js.includes x "=" = false) pre ->
  Js.includes a "=" = true ->
  JsMap.get "action" (Locals.paramDocs L) = None ->
  exists L',
    addWaitForAction name_ L s = Ok L' s
    /\ Locals.args L' = (pre ++ "Func<Task> action = default" :: a :: post)%list
    /\ Locals.explodedArgs L' = Locals.explodedArgs L.
Proof. apply addWaitForAction_before_first_optional. Qed.

Lemma addWaitForAction_first_default_witness :
  exists L',
    addWaitForAction "WaitForEventAsync"
      (Locals.mk ["string @event"; "int timeout = 0"] [] [] []) initialState
    = Ok L' initialState
    /\ Locals.args L'
       = ["string @event"; "Func<Task> action = default"; "int timeout = 0"].
Proof.
  destruct (addWaitForAction_first_default "WaitForEventAsync"
              (Locals.mk ["string @event"; "int timeout = 0"] [] [] [])
              ["string @event"] [] "int timeout = 0" initialState)
    as (L' & H1 & H2 & _); try reflexivity.
  - repeat constructor.
  - exists L'. split; assumption.
Defined.

Lemma linkRenderer_class_witness :
  exists n,
    JsMap.get "Page" (classNameMap (withClasses ["Page"])) = Some n
    /\ linkRenderer (mkLinkItem (Some "Page") None None None)
       = inr ("<see cref=" ++ Js.quoted n ++ "/>").
Proof.
  apply (linkRenderer_class (withClasses ["Page"]) "Page" None None None).
  - now left.
  - reflexivity.
Defined.

(** ** Instances *)

Lemma classNameMap_lookup_witness :
  JsMap.get "Error" (classNameMap (withClasses ["Page"; "Error"]))
  = Some "Exception"
  /\ JsMap.get "Page" (classNameMap (withClasses ["Page"; "Error"]))
     = Some "IPage"
  /\ JsMap.get "Frame" (classNameMap (withClasses ["Page"; "Error"])) = None.
Proof.
  destruct (classNameMap_lookup (withClasses ["Page"; "Error"]))
    as (H1 & H2 & H3).
  split; [|split].
  - inversion H1 as [|kv l Hkv _]. exact Hkv.
  - apply H2; [reflexivity | now left].
  - apply H3; [reflexivity|]. intros [H|[H|[]]]; discriminate H.
Defined.

Lemma toMemberName_Async_witness :
  Js.endsWith (toMemberName (titleMethod true) false) "Async" = true
  /\ toMemberName (titleMethod true) true = "Title"
  /\ toMemberName (titleMethod false) false = "Title".
Proof.
  destruct (toMemberName_Async (titleMethod true)) as (H1 & H2 & _).
  destruct (toMemberName_Async (titleMethod false)) as (_ & _ & H3).
  split; [|split].
  - apply H1; reflexivity.
  - apply H2. discriminate.
  - apply H3; [discriminate | reflexivity].
Defined.

Lemma methodReturnType_special_witness :
  methodReturnType plainExternals
    (method "evaluate" (simpleType "Object") false [] None) page initialState
  = Ok (Some "dynamic") initialState
  /\ methodReturnType (withClasses ["Frame"])
       (method "frames" (arrayType [simpleType "Frame"; simpleType "int"])
               false [] None)
       page initialState
     = Ok (Some "IReadOnlyCollection<IFrame>") initialState.
Proof.
  split.
  - apply (proj1 (methodReturnType_special plainExternals
                    (method "evaluate" (simpleType "Object") false [] None)
                    page initialState)); reflexivity.
  - apply (proj2 (methodReturnType_special (withClasses ["Frame"])
                    (method "frames"
                       (arrayType [simpleType "Frame"; simpleType "int"])
                       false [] None)
                    page initialState)
             (simpleType "Frame") [simpleType "int"] "IFrame");
      try reflexivity. discriminate.
Defined.

Lemma renderEnum_fails_on_empty_word_witness :
  renderEnum [Js.quoted "load"; Js.quoted "-idle"] = None
  /\ List.length (match renderEnum [Js.quoted "load"] with
                  | Some body => body
                  | None => []
                  end) = 3.
Proof.
  split.
  - apply (proj1 (renderEnum_fails_on_empty_word
                    [Js.quoted "load"; Js.quoted "-idle"])).
    exists (Js.quoted "-idle"). split; [right; now left | now left].
  - destruct (renderEnum [Js.quoted "load"]) as [body|] eqn:E;
      [|discriminate E].
    apply (proj2 (renderEnum_fails_on_empty_word [Js.quoted "load"]) body E).
Defined.

Lemma registerModelType_never_replaces_witness :
  exists s',
    registerModelType "Config" (heightObject None)
      (withModelType "Config" (widthObject None) initialState) = Ok tt s'
    /\ JsMap.get "Config" (modelTypes s') = Some (widthObject None).
Proof.
  destruct (registerModelType_never_replaces "Config" (heightObject None)
              (withModelType "Config" (widthObject None) initialState))
    as (s' & H1 & _ & H3).
  exists s'. split; [exact H1|]. apply H3. reflexivity.
Defined.
